(** * Quality screener: a shallow embedding of [engine.py] and of the
    threshold interpolation of [app.py].

    Python values are embedded as the tagged union [pyval]; Python floats
    are the binary64 numbers of [PrimFloat], so that comparisons, divisions
    and not-a-number behave as they do at run time.  Strings are byte
    strings.  A configuration is a [gmap] from keys to values, a data frame
    is a header with labelled rows, and the objects that [compute_actions]
    allocates and updates live in an explicit store. *)

From Stdlib Require Import ZArith Floats Ascii String List Bool Lia QArith Qabs Qround.
From Stdlib Require Import DecimalString.
From Stdlib Require DecimalPos DecimalZ.
From Stdlib Require Import Sorting.Sorted Sorting.Permutation.
From stdpp Require Import base option list gmap strings.

Set Warnings "-inexact-float".

Local Open Scope Z_scope.
Local Open Scope string_scope.
Local Open Scope list_scope.

(** ** Exceptions and fallible computations *)

Inductive exn := TypeError | ValueError | OverflowError | KeyError | ReferenceError.

Inductive result (A : Type) :=
| Ok (a : A)
| Err (e : exn).
Arguments Ok {A} a.
Arguments Err {A} e.

Definition rbind {A B} (m : result A) (k : A -> result B) : result B :=
  match m with Ok a => k a | Err e => Err e end.

Notation "'let?' x := m 'in' k" := (rbind m (fun x => k))
  (at level 10, x name, m at level 100, k at level 200).

Fixpoint rmapM {A B} (f : A -> result B) (l : list A) : result (list B) :=
  match l with
  | [] => Ok []
  | a :: l' => let? b := f a in let? bs := rmapM f l' in Ok (b :: bs)
  end.

(** ** Byte strings: the [str] methods the engine calls *)

Module Str.

(** Python's whitespace, restricted to one-byte characters. *)
Definition is_space (a : ascii) : bool :=
  let n := nat_of_ascii a in
  ((9 <=? n) && (n <=? 13) || (28 <=? n) && (n <=? 32))%nat.

Fixpoint lstrip (s : string) : string :=
  match s with
  | EmptyString => EmptyString
  | String a s' => if is_space a then lstrip s' else s
  end.

Fixpoint rstrip (s : string) : string :=
  match s with
  | EmptyString => EmptyString
  | String a s' =>
      match rstrip s' with
      | EmptyString => if is_space a then EmptyString else String a EmptyString
      | r => String a r
      end
  end.

(** [s.strip()] *)
Definition strip (s : string) : string := rstrip (lstrip s).

Definition lower_ascii (a : ascii) : ascii :=
  let n := nat_of_ascii a in
  if ((65 <=? n) && (n <=? 90))%nat then ascii_of_nat (n + 32) else a.

(** [s.lower()] *)
Fixpoint lower (s : string) : string :=
  match s with
  | EmptyString => EmptyString
  | String a s' => String (lower_ascii a) (lower s')
  end.

(** [s.startswith(p)] *)
Fixpoint startswith (p s : string) : bool :=
  match p, s with
  | EmptyString, _ => true
  | String a p', String b s' => if Ascii.eqb a b then startswith p' s' else false
  | String _ _, EmptyString => false
  end.

(** [s.replace(old, new)] for a non-empty [old]: left to right, without
    overlap.  [skip] counts the bytes of a match still to be dropped. *)
Fixpoint replace_from (old new : string) (skip : nat) (s : string) : string :=
  match s with
  | EmptyString => EmptyString
  | String a s' =>
      match skip with
      | S k => replace_from old new k s'
      | O =>
          if startswith old s
          then new +:+ replace_from old new (String.length old - 1) s'
          else String a (replace_from old new 0 s')
      end
  end.

Definition replace (old new s : string) : string := replace_from old new 0 s.

(** [sep.join(l)] *)
Definition join (sep : string) (l : list string) : string := String.concat sep l.

(** [bool(s)] *)
Definition nonempty (s : string) : bool :=
  match s with EmptyString => false | _ => true end.

(** [str(n)] for an integer. *)
Definition of_Z (z : Z) : string :=
  NilZero.string_of_int (Z.to_int z).

End Str.

(** ** Floats *)

Module Flt.

Definition f0 : float := 0%float.
Definition f1 : float := 1%float.

(** [float(n)] for an integer: rounded to nearest even, and
    [OverflowError] when the magnitude exceeds the binary64 range. *)
Definition of_Z (z : Z) : result float :=
  let f := SF2Prim (binary_normalize prec emax z 0 false) in
  if PrimFloat.is_infinity f then Err OverflowError else Ok f.

Definition of_bool (b : bool) : float := if b then f1 else f0.

End Flt.

(** ** Python values *)

Inductive pyval :=
| VNone
| VBool (b : bool)
| VInt (z : Z)
| VFloat (x : float)
| VStr (s : string).

Definition np_nan : float := PrimFloat.nan.

(** [pd.isna(x)] on a scalar. *)
Definition pd_isna (v : pyval) : bool :=
  match v with
  | VNone => true
  | VFloat x => PrimFloat.is_nan x
  | _ => false
  end.

Definition pd_notna (v : pyval) : bool := negb (pd_isna v).

(** [bool(x)]: Python truthiness. *)
Definition py_bool (v : pyval) : bool :=
  match v with
  | VNone => false
  | VBool b => b
  | VInt z => negb (Z.eqb z 0)
  | VFloat x => negb (PrimFloat.eqb x Flt.f0)
  | VStr s => Str.nonempty s
  end.

(** ** Built-ins of the Python run time

    The number parser behind [float(s)], the printer behind [str(x)] on a
    float and the [.0%] formatter are not code of the repository; the
    engine is embedded over any implementation of them.  [float_of_str]
    answers [None] where Python raises [ValueError]. *)

Class PyBuiltins := {
  float_of_str : string -> option float;
  str_of_float : float -> string;
  format_pct : float -> string
}.

Definition EXPECTED_COLUMNS : list string :=
  ["ticker"; "name"; "sector"; "price";
   "drawdown_from_52w_high"; "drawdown_trigger";
   "fcf_last_year"; "fcf_positive_last_n_years"; "fcf_trend_slope"; "pass_fcf";
   "roic_proxy"; "pass_roic";
   "payout_to_fcf"; "pass_payout";
   "net_debt_to_ebitda"; "interest_cover"; "pass_debt"; "pass_interest_cover";
   "QUALITY_PASS"; "ENTRY_PERMITTED"; "BUY_CANDIDATE"; "score"].

Definition BOOL_COLS : list string :=
  ["pass_fcf"; "pass_roic"; "pass_payout"; "pass_debt"; "pass_interest_cover";
   "QUALITY_PASS"; "ENTRY_PERMITTED"; "BUY_CANDIDATE"].

Definition NUM_COLS : list string :=
  ["price"; "drawdown_from_52w_high"; "fcf_last_year"; "fcf_positive_last_n_years";
   "fcf_trend_slope"; "roic_proxy"; "payout_to_fcf"; "net_debt_to_ebitda";
   "interest_cover"; "score"].

Definition TEXT_COLS : list string :=
  ["ticker"; "name"; "sector"; "drawdown_trigger"].

(** [s in l] for a string and a collection of strings. *)
Definition str_in (s : string) (l : list string) : bool :=
  existsb (String.eqb s) l.

(** A row as pandas hands it to an [axis=1] callback: a Series of labelled
    cells.  Labels are taken to be distinct; lookup returns the first. *)
Abbreviation series := (list (string * pyval)) (only parsing).

Fixpoint series_get (col : string) (r : series) : option pyval :=
  match r with
  | [] => None
  | (k, v) :: r' => if String.eqb k col then Some v else series_get col r'
  end.

(** [col in r.index] *)
Definition in_index (col : string) (r : series) : bool :=
  match series_get col r with Some _ => true | None => false end.

Definition _safe_get (r : series) (col : string) (default : pyval) : pyval :=
  match series_get col r with Some v => v | None => default end.

(** [cfg.get(key, default)] *)
Definition cfg_get (cfg : gmap string pyval) (key : string) (default : pyval) : pyval :=
  match cfg !! key with Some v => v | None => default end.

Definition _normalize_drawdown (x : float) : float :=
  if PrimFloat.is_nan x then np_nan
  else if PrimFloat.leb x (-1)%float then PrimFloat.div x 100%float
  else x.

(** One block of [_passes_required]: when the toggle is on and the flag
    is not true, the identifier is appended. *)
Definition require_pass (cfg : gmap string pyval) (toggle : string) (dflt : bool)
    (r : series) (flag : string) (failed : list string) : list string :=
  if py_bool (cfg_get cfg toggle (VBool dflt)) then
    if negb (py_bool (_safe_get r flag (VBool false))) then failed ++ [flag]
    else failed
  else failed.

Definition _passes_required (r : series) (cfg : gmap string pyval) : list string :=
  let failed := [] in
  let failed := require_pass cfg "REQUIRE_PASS_DEBT" true r "pass_debt" failed in
  let failed := require_pass cfg "REQUIRE_PASS_INTEREST" true r "pass_interest_cover" failed in
  let failed := require_pass cfg "REQUIRE_PASS_FCF" true r "pass_fcf" failed in
  let failed := require_pass cfg "REQUIRE_PASS_ROIC" false r "pass_roic" failed in
  let failed := require_pass cfg "REQUIRE_PASS_PAYOUT" false r "pass_payout" failed in
  failed.

(** The first closure of [compute_actions]; it reads only [cfg]. *)
Definition sell_signal (cfg : gmap string pyval) (r : series) : bool * string :=
  if negb (py_bool (_safe_get r "QUALITY_PASS" (VBool true))) then
    (true, "QUALITY_PASS=FALSE")
  else
    let required_failed := _passes_required r cfg in
    match required_failed with
    | _ :: _ => (true, Str.join " / " required_failed)
    | [] => (false, "")
    end.

(** The threshold locals of [compute_actions]. *)
Record thresholds := Thresholds {
  SCORE_BUY_MIN : float;
  DD_BUY : float;
  DD_STRONG : float;
  ALLOW_SPEC : bool
}.

Section Engine.

Context `{PyBuiltins}.

(** [str(x)] *)
Definition py_str (v : pyval) : string :=
  match v with
  | VNone => "None"
  | VBool b => if b then "True" else "False"
  | VInt z => Str.of_Z z
  | VFloat x => str_of_float x
  | VStr s => s
  end.

(** [float(x)] *)
Definition py_float (v : pyval) : result float :=
  match v with
  | VNone => Err TypeError
  | VBool b => Ok (Flt.of_bool b)
  | VInt z => Flt.of_Z z
  | VFloat x => Ok x
  | VStr s =>
      match float_of_str s with Some x => Ok x | None => Err ValueError end
  end.

Definition _to_bool (x : pyval) : bool :=
  if pd_isna x then false
  else match x with
       | VBool b => b
       | _ =>
           let s := Str.lower (Str.strip (py_str x)) in
           str_in s ["true"; "1"; "yes"; "y"; "sim"; "s"; "ok"]
       end.

Definition _to_num (x : pyval) : result float :=
  if pd_isna x then Ok np_nan
  else match x with
       | VBool _ | VInt _ | VFloat _ => py_float x
       | _ =>
           let s := Str.replace "," "." (Str.replace "%" "" (Str.strip (py_str x))) in
           match py_float (VStr s) with
           | Ok y => Ok y
           | Err _ => Ok np_nan
           end
       end.

Definition resolve_thresholds (cfg : gmap string pyval) : result thresholds :=
  let? score_buy_min := py_float (cfg_get cfg "SCORE_BUY_MIN" (VInt 70)) in
  let? dd_buy := py_float (cfg_get cfg "DD_BUY" (VFloat (-0.20)%float)) in
  let? dd_strong := py_float (cfg_get cfg "DD_STRONG" (VFloat (-0.30)%float)) in
  let allow_spec := py_bool (cfg_get cfg "ALLOW_SPECULATIVE" (VBool true)) in
  Ok (Thresholds score_buy_min dd_buy dd_strong allow_spec).

Definition buy_gate (th : thresholds) (cfg : gmap string pyval) (r : series)
    : result (bool * string) :=
  if negb (py_bool (_safe_get r "ENTRY_PERMITTED" (VBool false))) then
    Ok (false, "ENTRY_PERMITTED=FALSE")
  else if negb (py_bool (_safe_get r "QUALITY_PASS" (VBool false))) then
    Ok (false, "QUALITY_PASS=FALSE")
  else
    let buy_candidate := py_bool (_safe_get r "BUY_CANDIDATE" (VBool false)) in
    let score := _safe_get r "score" (VFloat np_nan) in
    let? score_ok :=
      (if pd_notna score
       then let? s := py_float score in Ok (PrimFloat.leb (SCORE_BUY_MIN th) s)
       else Ok false) in
    if negb (buy_candidate || score_ok) then
      Ok (false, "NO_BUY_CANDIDATE_OR_SCORE")
    else
      let dd := _safe_get r "dd_norm" (VFloat np_nan) in
      let? shallow :=
        (if pd_notna dd
         then let? d := py_float dd in Ok (PrimFloat.ltb (DD_BUY th) d)
         else Ok false) in
      if shallow then
        let? d := py_float dd in
        Ok (false, "INSUFFICIENT_DRAWDOWN(" +:+ format_pct d +:+ ")")
      else
        let required_failed := _passes_required r cfg in
        match required_failed with
        | _ :: _ =>
            if ALLOW_SPEC th
            then Ok (true, "ENTRY_OK_WITH_FLAGS:" +:+ Str.join "," required_failed)
            else Ok (false, "FAILED_REQUIRED:" +:+ Str.join "," required_failed)
        | [] => Ok (true, "ENTRY_OK")
        end.

(** The four values [decide] returns, in order. *)
Abbreviation decision := (string * string * string * string)%type (only parsing).

Definition WATCH_COLS : list string :=
  ["pass_debt"; "pass_interest_cover"; "pass_fcf"; "pass_payout"; "pass_roic"].

Definition decide (th : thresholds) (cfg : gmap string pyval) (r : series)
    : result decision :=
  let (s, rs) := sell_signal cfg r in
  if s then Ok ("REVIEW SELL", "", rs, rs)
  else
    let? g := buy_gate th cfg r in
    let (b, rb) := g : bool * string in
    if b then
      let dd := _safe_get r "dd_norm" (VFloat np_nan) in
      let flags :=
        if Str.startswith "ENTRY_OK_WITH_FLAGS:" rb
        then Str.replace "ENTRY_OK_WITH_FLAGS:" "" rb else "" in
      let failed := if Str.nonempty flags then Str.replace "," " / " flags else "" in
      let? strong :=
        (if pd_notna dd
         then let? d := py_float dd in
              Ok (PrimFloat.leb d (DD_STRONG th) && negb (Str.nonempty failed))
         else Ok false) in
      if strong then Ok ("STRONG BUY", rb, "", "")
      else if Str.nonempty failed && ALLOW_SPEC th
           then Ok ("SPECULATIVE / WATCH", rb, "", failed)
           else Ok ("BUY", rb, "", "")
    else
      let watch_flags :=
        if py_bool (_safe_get r "ENTRY_PERMITTED" (VBool false)) then
          List.filter
            (fun col => match series_get col r with
                        | Some v => negb (py_bool v)
                        | None => false
                        end)
            WATCH_COLS
        else [] in
      match watch_flags with
      | _ :: _ =>
          Ok ("WATCH", "", Str.join " / " watch_flags, Str.join " / " watch_flags)
      | [] => Ok ("HOLD", "", "", "")
      end.

Definition decision_cells (d : decision) : list pyval :=
  match d with
  | (a, rb, rs, fc) => [VStr a; VStr rb; VStr rs; VStr fc]
  end.

End Engine.

(** ** Data frames

    A frame is its header and its rows; every row carries the header's
    labels.  The embedding covers frames whose labels are distinct after
    trimming and differ from the four labels the engine adds by
    concatenation ([wf_input]); on a repeated label pandas selects a
    sub-frame, which is outside the model. *)

Record frame := Frame { columns : list string; rows : list series }.

Definition has_column (c : string) (fr : frame) : bool := str_in c (columns fr).

(** [df.columns = new] *)
Definition set_columns (new : list string) (fr : frame) : result frame :=
  if Nat.eqb (length new) (length (columns fr))
  then Ok (Frame new (map (fun r : series => combine new (map snd r)) (rows fr)))
  else Err ValueError.

Definition series_apply_at (c : string) (f : pyval -> result pyval) (r : series)
    : result series :=
  rmapM (fun kv : string * pyval =>
           if String.eqb (fst kv) c
           then let? v := f (snd kv) in Ok (fst kv, v)
           else Ok kv) r.

(** [df[c] = df[c].apply(f)] *)
Definition col_apply (c : string) (f : pyval -> result pyval) (fr : frame)
    : result frame :=
  let? rs := rmapM (series_apply_at c f) (rows fr) in
  Ok (Frame (columns fr) rs).

(** [df[c]] *)
Definition get_col (c : string) (fr : frame) : result (list pyval) :=
  if has_column c fr
  then Ok (map (fun r => _safe_get r c VNone) (rows fr))
  else Err KeyError.

Definition series_set (c : string) (v : pyval) (r : series) : series :=
  if in_index c r
  then map (fun kv : string * pyval => if String.eqb (fst kv) c then (fst kv, v) else kv) r
  else r ++ [(c, v)].

Definition with_column (c : string) (fr : frame) : list string :=
  if has_column c fr then columns fr else columns fr ++ [c].

(** [df[c] = vals], a column of cells *)
Definition set_col (c : string) (vals : list pyval) (fr : frame) : result frame :=
  if Nat.eqb (length vals) (length (rows fr))
  then Ok (Frame (with_column c fr)
             (map (fun rv : series * pyval => series_set c (snd rv) (fst rv))
                  (combine (rows fr) vals)))
  else Err ValueError.

(** [df[c] = v], a scalar *)
Definition set_col_scalar (c : string) (v : pyval) (fr : frame) : frame :=
  Frame (with_column c fr) (map (series_set c v) (rows fr)).

(** [df.apply(f, axis=1, result_type="expand")] for an [f] returning four
    values.  On a frame without rows pandas does not call [f] and answers
    a copy of the frame; otherwise the result has one column per position. *)
Definition df_apply_expand (f : series -> result (list pyval)) (fr : frame)
    : result frame :=
  match rows fr with
  | [] => Ok fr
  | _ :: _ =>
      let labels := ["0"; "1"; "2"; "3"] in
      let? cells := rmapM f (rows fr) in
      Ok (Frame labels (map (combine labels) cells))
  end.

(** [pd.concat([a, b], axis=1)] for two frames over the same index *)
Definition pd_concat (a b : frame) : frame :=
  Frame (columns a ++ columns b)
        (map (fun xy : series * series => fst xy ++ snd xy) (combine (rows a) (rows b))).

(** [Series.isin(l)] and [Series.eq(s)], cell by cell *)
Definition isin (l : list string) (v : pyval) : pyval :=
  VBool (match v with VStr s => str_in s l | _ => false end).

Definition eq_str (s : string) (v : pyval) : pyval :=
  VBool (match v with VStr t => String.eqb t s | _ => false end).

(** *** [sort_values(by, ascending=[False, ...])]

    With several keys pandas sorts lexicographically and keeps the order
    of rows whose keys tie; missing values go last whatever the
    direction.  [desc_before a b] says that [a] goes strictly before [b]
    in one descending key; the keys of the engine are booleans and
    floats. *)
Definition desc_before (a b : pyval) : bool :=
  match a, b with
  | VBool x, VBool y => x && negb y
  | VFloat x, VFloat y =>
      if PrimFloat.is_nan x then false
      else if PrimFloat.is_nan y then true
      else PrimFloat.ltb y x
  | _, _ => false
  end.

Fixpoint lex_before (by_ : list string) (r1 r2 : series) : bool :=
  match by_ with
  | [] => false
  | c :: by' =>
      let a := _safe_get r1 c VNone in
      let b := _safe_get r2 c VNone in
      desc_before a b || (negb (desc_before b a) && lex_before by' r1 r2)
  end.

Fixpoint insert_row (by_ : list string) (x : series) (l : list series) : list series :=
  match l with
  | [] => [x]
  | y :: l' => if lex_before by_ y x then y :: insert_row by_ x l' else x :: l
  end.

Definition sort_rows (by_ : list string) (l : list series) : list series :=
  fold_right (insert_row by_) [] l.

Definition sort_values (by_ : list string) (fr : frame) : result frame :=
  if forallb (fun c => has_column c fr) by_
  then Ok (Frame (columns fr) (sort_rows by_ (rows fr)))
  else Err KeyError.

(** ** The store

    Frames are objects: a variable holds a reference, [df.copy()],
    [df.apply], [pd.concat] and [sort_values] allocate, and an assignment
    to [df.columns] or to [df[c]] updates the object in place.  A
    computation threads the store and either returns or raises. *)

Abbreviation ref := nat (only parsing).
Abbreviation store := (list frame) (only parsing).

Inductive outcome (A : Type) :=
| Return (a : A) (st : store)
| Raise (e : exn) (st : store).
Arguments Return {A} a st.
Arguments Raise {A} e st.

Definition Py (A : Type) : Type := store -> outcome A.

Definition ret {A} (a : A) : Py A := fun st => Return a st.

Definition bind {A B} (m : Py A) (k : A -> Py B) : Py B :=
  fun st => match m st with
            | Return a st' => k a st'
            | Raise e st' => Raise e st'
            end.

Notation "x <- m ;; k" := (bind m (fun x => k))
  (at level 100, m at next level, right associativity).
Notation "m ;;; k" := (bind m (fun _ => k))
  (at level 100, right associativity).

(** A fallible pure step: its exception propagates, the store stays. *)
Definition lift {A} (m : result A) : Py A :=
  fun st => match m with Ok a => Return a st | Err e => Raise e st end.

Definition alloc (fr : frame) : Py ref :=
  fun st => Return (length st) (st ++ [fr]).

Definition read (l : ref) : Py frame :=
  fun st => match st !! l with
            | Some fr => Return fr st
            | None => Raise ReferenceError st
            end.

Definition write (l : ref) (fr : frame) : Py unit :=
  fun st => Return tt (<[l := fr]> st).

(** An in-place update: the right-hand side is evaluated first, and the
    object changes only when it did not raise. *)
Definition update (l : ref) (f : frame -> result frame) : Py unit :=
  fr <- read l ;; fr' <- lift (f fr) ;; write l fr'.

Fixpoint for_ {A} (l : list A) (body : A -> Py unit) : Py unit :=
  match l with
  | [] => ret tt
  | a :: l' => body a ;;; for_ l' body
  end.

(** The cell of a column that went through [_to_num]. *)
Definition as_float (v : pyval) : result float :=
  match v with VFloat x => Ok x | _ => Err TypeError end.

Section Compute.

Context `{PyBuiltins}.

(** [astype(str).str.strip()] on a cell, as pandas 2 evaluates it:
    [astype(str)] applies [str] to every cell, a missing one included.
    pandas 3 keeps a missing cell of such a column missing; on a cell
    that is not missing the two agree. *)
Definition text_cell (v : pyval) : result pyval := Ok (VStr (Str.strip (py_str v))).
Definition num_cell (v : pyval) : result pyval := let? x := _to_num v in Ok (VFloat x).
Definition bool_cell (v : pyval) : result pyval := Ok (VBool (_to_bool v)).
Definition dd_cell (v : pyval) : result pyval :=
  let? x := as_float v in Ok (VFloat (_normalize_drawdown x)).

(** [if c in out.columns: out[c] = out[c].apply(f)] *)
Definition convert (out : ref) (f : pyval -> result pyval) (c : string) : Py unit :=
  fr <- read out ;;
  if has_column c fr then update out (col_apply c f) else ret tt.

Definition DECIDED_COLUMNS : list string :=
  ["ACTION"; "REASON_BUY"; "REASON_SELL"; "FAILED_CHECKS"].

Definition compute_actions (df : ref) (cfg : gmap string pyval) : Py ref :=
  src <- read df ;;
  out <- alloc src ;;
  update out (fun fr => set_columns (map Str.strip (columns fr)) fr) ;;;
  for_ TEXT_COLS (convert out text_cell) ;;;
  for_ NUM_COLS (convert out num_cell) ;;;
  for_ BOOL_COLS (convert out bool_cell) ;;;
  fr <- read out ;;
  (if has_column "drawdown_from_52w_high" fr
   then update out (fun fr =>
          let? dd := get_col "drawdown_from_52w_high" fr in
          let? dd := rmapM dd_cell dd in
          set_col "dd_norm" dd fr)
   else update out (fun fr => Ok (set_col_scalar "dd_norm" (VFloat np_nan) fr))) ;;;
  th <- lift (resolve_thresholds cfg) ;;
  fr <- read out ;;
  d <- lift (df_apply_expand
               (fun r => let? x := decide th cfg r in Ok (decision_cells x)) fr) ;;
  decided <- alloc d ;;
  update decided (set_columns DECIDED_COLUMNS) ;;;
  a <- read out ;;
  b <- read decided ;;
  out <- alloc (pd_concat a b) ;;
  update out (fun fr =>
    let? act := get_col "ACTION" fr in
    set_col "BUY_SIGNAL" (map (isin ["BUY"; "STRONG BUY"]) act) fr) ;;;
  update out (fun fr =>
    let? act := get_col "ACTION" fr in
    set_col "SELL_SIGNAL" (map (eq_str "REVIEW SELL") act) fr) ;;;
  fr <- read out ;;
  out <- (if has_column "score" fr
          then s <- lift (sort_values ["BUY_SIGNAL"; "SELL_SIGNAL"; "score"] fr) ;;
               alloc s
          else s <- lift (sort_values ["BUY_SIGNAL"; "SELL_SIGNAL"] fr) ;;
               alloc s) ;;
  ret out.

(** A call on a table held by the caller: the table it returns. *)
Definition call_compute_actions (df : frame) (cfg : gmap string pyval)
    : result frame :=
  match compute_actions 0%nat cfg [df] with
  | Return l st =>
      match st !! l with Some fr => Ok fr | None => Err ReferenceError end
  | Raise e _ => Err e
  end.

End Compute.

(** ** An executable instance of the built-ins

    Enough of [float], [str] and [format] to run the engine on closed
    tables: [float] reads plain decimal numerals of at most fifteen
    digits, where one division of two exact floats is correctly rounded;
    [str] prints the exact decimal expansion of a float, which is what
    Python prints for values such as [70.0] or [-0.25]. *)

Module Plain.

Definition digit (a : ascii) : option Z :=
  let n := nat_of_ascii a in
  if ((48 <=? n) && (n <=? 57))%nat then Some (Z.of_nat (n - 48)) else None.

Fixpoint all_digits (s : string) (acc : Z) : option Z :=
  match s with
  | EmptyString => Some acc
  | String a s' =>
      match digit a with
      | Some d => all_digits s' (10 * acc + d)
      | None => None
      end
  end.

Fixpoint split_dot (s : string) : string * option string :=
  match s with
  | EmptyString => (EmptyString, None)
  | String a s' =>
      if Ascii.eqb a "." then (EmptyString, Some s')
      else let (i, f) := split_dot s' in (String a i, f)
  end.

Definition unsigned (s : string) : option float :=
  let (i, f) := split_dot s in
  let fr := match f with Some t => t | None => EmptyString end in
  let n := (String.length i + String.length fr)%nat in
  if ((n =? 0) || (15 <? n))%nat then None
  else match all_digits (i +:+ fr) 0 with
       | Some m =>
           match Flt.of_Z m, Flt.of_Z (10 ^ Z.of_nat (String.length fr)) with
           | Ok a, Ok b => Some (PrimFloat.div a b)
           | _, _ => None
           end
       | None => None
       end.

Definition parse (s : string) : option float :=
  match s with
  | String "-" s' => option_map PrimFloat.opp (unsigned s')
  | String "+" s' => unsigned s'
  | _ => unsigned s
  end.

Fixpoint pad (n : nat) (d : string) : string :=
  match n with O => d | S k => pad k (String "0" d) end.

Fixpoint drop_zeros (s : string) : string :=
  match s with
  | EmptyString => EmptyString
  | String a s' =>
      match drop_zeros s' with
      | EmptyString => if Ascii.eqb a "0" then EmptyString else String a EmptyString
      | r => String a r
      end
  end.

Definition signed (neg : bool) (s : string) : string :=
  if neg then String "-" s else s.

Definition print (x : float) : string :=
  match Prim2SF x with
  | S754_nan => "nan"
  | S754_infinity s => signed s "inf"
  | S754_zero s => signed s "0.0"
  | S754_finite s m e =>
      if Z.leb 0 e then signed s (Str.of_Z (Z.pos m * 2 ^ e) +:+ ".0")
      else
        let k := Z.to_nat (- e) in
        let n := Z.pos m * 5 ^ (- e) in
        let p := 10 ^ (- e) in
        let frac := Str.of_Z (n mod p) in
        let frac := drop_zeros (pad (k - String.length frac) frac) in
        signed s (Str.of_Z (n / p) +:+ "." +:+
                  (match frac with EmptyString => "0" | _ => frac end))
  end.

(** The integer nearest to [n / d], ties to even. *)
Definition round_half_even (n d : Z) : Z :=
  let q := n / d in
  let r := n mod d in
  if Z.ltb (2 * r) d then q
  else if Z.ltb d (2 * r) then q + 1
  else if Z.even q then q else q + 1.

Definition percent (x : float) : string :=
  match Prim2SF x with
  | S754_nan => "nan%"
  | S754_infinity s => signed s "inf%"
  | S754_zero s => signed s "0%"
  | S754_finite s m e =>
      let n := if Z.leb 0 e then 100 * Z.pos m * 2 ^ e
               else round_half_even (100 * Z.pos m) (2 ^ (- e)) in
      signed s (Str.of_Z n +:+ "%")
  end.

Definition builtins : PyBuiltins :=
  {| float_of_str := parse; str_of_float := print; format_pct := percent |}.

End Plain.

(** ** The call as a function of the input table

    What [compute_actions] returns, stage by stage, without the store. *)

Fixpoint rfold {A B} (f : B -> A -> result B) (l : list A) (b : B) : result B :=
  match l with
  | [] => Ok b
  | a :: l' => let? b' := f b a in rfold f l' b'
  end.

Section Stages.

Context `{PyBuiltins}.

Definition converted (f : pyval -> result pyval) (fr : frame) (c : string)
    : result frame :=
  if has_column c fr then col_apply c f fr else Ok fr.

Definition with_dd_norm (fr : frame) : result frame :=
  if has_column "drawdown_from_52w_high" fr
  then let? dd := get_col "drawdown_from_52w_high" fr in
       let? dd := rmapM dd_cell dd in
       set_col "dd_norm" dd fr
  else Ok (set_col_scalar "dd_norm" (VFloat np_nan) fr).

Definition normalized (df : frame) : result frame :=
  let? fr := set_columns (map Str.strip (columns df)) df in
  let? fr := rfold (converted text_cell) TEXT_COLS fr in
  let? fr := rfold (converted num_cell) NUM_COLS fr in
  let? fr := rfold (converted bool_cell) BOOL_COLS fr in
  with_dd_norm fr.

Definition decided (th : thresholds) (cfg : gmap string pyval) (fr : frame)
    : result frame :=
  let? d := df_apply_expand
              (fun r => let? x := decide th cfg r in Ok (decision_cells x)) fr in
  set_columns DECIDED_COLUMNS d.

Definition signalled (fr : frame) : result frame :=
  let? fr := (let? act := get_col "ACTION" fr in
              set_col "BUY_SIGNAL" (map (isin ["BUY"; "STRONG BUY"]) act) fr) in
  let? act := get_col "ACTION" fr in
  set_col "SELL_SIGNAL" (map (eq_str "REVIEW SELL") act) fr.

Definition ordered (fr : frame) : result frame :=
  if has_column "score" fr
  then sort_values ["BUY_SIGNAL"; "SELL_SIGNAL"; "score"] fr
  else sort_values ["BUY_SIGNAL"; "SELL_SIGNAL"] fr.

Definition engine (df : frame) (cfg : gmap string pyval) : result frame :=
  let? out := normalized df in
  let? th := resolve_thresholds cfg in
  let? d := decided th cfg out in
  let? out := signalled (pd_concat out d) in
  ordered out.

End Stages.

(** ** Input tables of the embedding *)

Definition rectangular (df : frame) : bool :=
  forallb (fun r : series => Nat.eqb (length r) (length (columns df))) (rows df).

Fixpoint distinct (l : list string) : bool :=
  match l with
  | [] => true
  | a :: l' => negb (str_in a l') && distinct l'
  end.

(** A cell that [float(x)] accepts when it is an integer. *)
Definition int_in_range (v : pyval) : bool :=
  match v with
  | VInt z => match Flt.of_Z z with Ok _ => true | Err _ => false end
  | _ => true
  end.

Definition wf_input (df : frame) : bool :=
  let labels := map Str.strip (columns df) in
  rectangular df
  && distinct labels
  && forallb (fun c => negb (str_in c labels))
       ["ACTION"; "REASON_BUY"; "REASON_SELL"; "FAILED_CHECKS"]
  && forallb (fun r : series => forallb (fun kv => int_in_range (snd kv)) r) (rows df).


(** The fallbacks written in [cfg.get(key, fallback)]. *)
Definition DEFAULT_CFG : gmap string pyval :=
  {[ "SCORE_BUY_MIN" := VInt 70;
     "DD_BUY" := VFloat (-0.20)%float;
     "DD_STRONG" := VFloat (-0.30)%float;
     "ALLOW_SPECULATIVE" := VBool true;
     "REQUIRE_PASS_DEBT" := VBool true;
     "REQUIRE_PASS_INTEREST" := VBool true;
     "REQUIRE_PASS_FCF" := VBool true;
     "REQUIRE_PASS_ROIC" := VBool false;
     "REQUIRE_PASS_PAYOUT" := VBool false ]}.

(** The recognised columns of a table, for a second run on an output. *)
Definition restrict (keep : list string) (fr : frame) : frame :=
  Frame (List.filter (fun c => str_in c keep) (columns fr))
        (map (List.filter (fun kv : string * pyval => str_in (fst kv) keep)) (rows fr)).

(** The cells of a column of a returned table. *)
Definition column_of (c : string) (fr : frame) : list pyval :=
  map (fun r => _safe_get r c VNone) (rows fr).

Definition ACTIONS : list string :=
  ["STRONG BUY"; "BUY"; "SPECULATIVE / WATCH"; "WATCH"; "HOLD"; "REVIEW SELL"].

(** ** The risk slider of [app.py] *)

Module App.

(** The segment search and the interpolation formula of [np.interp] on
    increasing abscissas: an abscissa that is hit answers its ordinate,
    a point inside a segment answers [slope * (x - x0) + y0]. *)
Fixpoint interp_segments (x : float) (pts : list (float * float)) : float :=
  match pts with
  | [] => np_nan
  | (x0, y0) :: rest =>
      match rest with
      | [] => y0
      | (x1, y1) :: _ =>
          if PrimFloat.ltb x x1 then
            if PrimFloat.eqb x x0 then y0
            else
              let slope := PrimFloat.div (PrimFloat.sub y1 y0) (PrimFloat.sub x1 x0) in
              PrimFloat.add (PrimFloat.mul slope (PrimFloat.sub x x0)) y0
          else interp_segments x rest
      end
  end.

Definition np_interp (x : float) (xp fp : list float) : float :=
  if PrimFloat.is_nan x then x
  else
    let pts := combine xp fp in
    match pts with
    | [] => np_nan
    | (x0, y0) :: _ => if PrimFloat.ltb x x0 then y0 else interp_segments x pts
    end.

(** [int(x)] on a float: truncation toward zero. *)
Definition py_int (x : float) : result Z :=
  match Prim2SF x with
  | S754_nan => Err ValueError
  | S754_infinity _ => Err OverflowError
  | S754_zero _ => Ok 0
  | S754_finite s m e =>
      let n := if Z.leb 0 e then Z.pos m * 2 ^ e else Z.pos m / 2 ^ (- e) in
      Ok (if s then - n else n)
  end.

Definition RISK_ANCHORS : list float := [0; 50; 100]%float.

Definition score_min (risk : Z) : result Z :=
  let? r := Flt.of_Z risk in
  py_int (np_interp r RISK_ANCHORS [85; 70; 55]%float).

Definition dd_buy (risk : Z) : result float :=
  let? r := Flt.of_Z risk in
  Ok (np_interp r RISK_ANCHORS [-0.35; -0.20; -0.10]%float).

Definition dd_strong (risk : Z) : result float :=
  let? r := Flt.of_Z risk in
  Ok (np_interp r RISK_ANCHORS [-0.45; -0.30; -0.20]%float).

(** The rational number a finite float stands for. *)
Definition to_Q (x : float) : option Q :=
  match Prim2SF x with
  | S754_zero _ => Some 0%Q
  | S754_finite s m e =>
      let q := if Z.leb 0 e then inject_Z (Z.pos m * 2 ^ e)
               else Qmake (Z.pos m) (Z.to_pos (2 ^ (- e))) in
      Some (if s then Qopp q else q)
  | _ => None
  end.

(** The interpolant through three anchors at risk 0, 50 and 100, in
    exact arithmetic. *)
Definition through (y0 y50 y100 : Q) (risk : Z) : Q :=
  if Z.ltb risk 50
  then (y0 + (y50 - y0) * inject_Z risk / 50)%Q
  else (y50 + (y100 - y50) * inject_Z (risk - 50) / 50)%Q.

(** The interpolation as the specification words it: from [lo] at risk
    0 to [hi] at risk 100, with the midpoint of the two at risk 50. *)
Definition spec_default (lo hi : Q) (risk : Z) : Q :=
  through lo ((lo + hi) / 2)%Q hi risk.

(** The float answer is within [eps] of the rational [q]. *)
Definition near (eps : Q) (x : result float) (q : Q) : bool :=
  match x with
  | Ok f => match to_Q f with
            | Some v => Qle_bool (Qabs (v - q)) eps
            | None => false
            end
  | Err _ => false
  end.

End App.

(** ** The rules as the specification words them *)

(** The five required checks in their fixed order: toggle, fallback of
    the toggle, identifier of the flag. *)
Definition REQUIRED_CHECKS : list (string * bool * string) :=
  [("REQUIRE_PASS_DEBT", true, "pass_debt");
   ("REQUIRE_PASS_INTEREST", true, "pass_interest_cover");
   ("REQUIRE_PASS_FCF", true, "pass_fcf");
   ("REQUIRE_PASS_ROIC", false, "pass_roic");
   ("REQUIRE_PASS_PAYOUT", false, "pass_payout")].

(** The toggle of a check is enabled and the flag of the record is not
    true. *)
Definition check_fails (cfg : gmap string pyval) (r : series)
    (chk : string * bool * string) : bool :=
  match chk with
  | (toggle, dflt, flag) =>
      py_bool (cfg_get cfg toggle (VBool dflt))
      && negb (py_bool (_safe_get r flag (VBool false)))
  end.

Definition failed_checks (cfg : gmap string pyval) (r : series) : list string :=
  map snd (List.filter (check_fails cfg r) REQUIRED_CHECKS).

(** The record has a [QUALITY_PASS] cell and it is false. *)
Definition quality_false (r : series) : bool :=
  match series_get "QUALITY_PASS" r with
  | Some v => negb (py_bool v)
  | None => false
  end.

(** ** Sample records *)

Module Sample.

(** A record without a [QUALITY_PASS] cell whose required flags pass. *)
Definition no_quality : series :=
  [("pass_debt", VBool true); ("pass_interest_cover", VBool true);
   ("pass_fcf", VBool true); ("ENTRY_PERMITTED", VBool true)].

Definition defaults : thresholds :=
  Thresholds 70%float (-0.20)%float (-0.30)%float true.

(** Four records as a spreadsheet delivers them: text, with a padded
    header, a percentage and a decimal comma. *)
Definition header : list string :=
  [" ticker"; "QUALITY_PASS"; "pass_debt"; "pass_interest_cover"; "pass_fcf";
   "ENTRY_PERMITTED "; "BUY_CANDIDATE"; "drawdown_from_52w_high"; "score"].

Definition record (ticker quality debt candidate drawdown score : string) : series :=
  combine header
    [VStr ticker; VStr quality; VStr debt; VStr "yes"; VStr "1";
     VStr "Sim"; VStr candidate; VStr drawdown; VStr score].

Definition table : frame :=
  Frame header
    [record "AAA" "no" "true" "ok" "-35%" "x";
     record "BBB" "true" "true" "no" "-0.05" "90";
     record "CCC" "true" "true" "ok" "-0.22" "";
     record " DDD " "true" "true" "ok" "-35%" "71,5";
     record "EEE" "true" "false" "ok" "-40" "60"].

End Sample.

(** The checks behind the statements on the slider, as one boolean. *)
Module AppCheck.

Definition score_is (risk : Z) : bool :=
  match App.score_min risk with
  | Ok z => Z.eqb z (Qfloor (App.through 85 70 55 risk))
  | Err _ => false
  end.

Definition tolerance : Q := 1 # 1000000000000000.

Definition defaults_at (risk : Z) : bool :=
  score_is risk
  && App.near tolerance (App.dd_buy risk)
       (App.through (-35 # 100) (-20 # 100) (-10 # 100) risk)
  && App.near tolerance (App.dd_strong risk)
       (App.through (-45 # 100) (-30 # 100) (-20 # 100) risk).

End AppCheck.

(** The store an outcome leaves behind. *)
Definition final_store {A} (o : outcome A) : store :=
  match o with Return _ st => st | Raise _ st => st end.

(** ** The call, record by record

    Every stage of [compute_actions] treats the rows one by one; these are
    the stages on one row. *)

Definition relabel (labels : list string) (r : series) : series :=
  combine labels (map snd r).

Definition convert_row (f : pyval -> result pyval) (cs : list string) (r : series)
    : result series :=
  rfold (fun r c => series_apply_at c f r) cs r.

Definition add_label (c : string) (labels : list string) : list string :=
  if str_in c labels then labels else labels ++ [c].

Definition with_buy_signal (r : series) : series :=
  series_set "BUY_SIGNAL" (isin ["BUY"; "STRONG BUY"] (_safe_get r "ACTION" VNone)) r.

Definition with_sell_signal (r : series) : series :=
  series_set "SELL_SIGNAL" (eq_str "REVIEW SELL" (_safe_get r "ACTION" VNone)) r.

Section Rows.

Context `{PyBuiltins}.

Definition dd_row (has_dd : bool) (r : series) : result series :=
  if has_dd
  then let? v := dd_cell (_safe_get r "drawdown_from_52w_high" VNone) in
       Ok (series_set "dd_norm" v r)
  else Ok (series_set "dd_norm" (VFloat np_nan) r).

Definition normalize_row (labels : list string) (r : series) : result series :=
  let? r := convert_row text_cell TEXT_COLS (relabel labels r) in
  let? r := convert_row num_cell NUM_COLS r in
  let? r := convert_row bool_cell BOOL_COLS r in
  dd_row (str_in "drawdown_from_52w_high" labels) r.

(** The four decided cells of a row, labelled. *)
Definition decided_cells (th : thresholds) (cfg : gmap string pyval) (n : series)
    : result series :=
  let? d := decide th cfg n in
  Ok (combine DECIDED_COLUMNS (decision_cells d)).

Definition annotate_row (th : thresholds) (cfg : gmap string pyval) (n : series)
    : result series :=
  let? v := decided_cells th cfg n in
  Ok (with_sell_signal (with_buy_signal (n ++ v))).

End Rows.

Definition sort_keys (labels : list string) : list string :=
  if str_in "score" labels
  then ["BUY_SIGNAL"; "SELL_SIGNAL"; "score"]
  else ["BUY_SIGNAL"; "SELL_SIGNAL"].

Definition out_columns (labels : list string) : list string :=
  add_label "SELL_SIGNAL"
    (add_label "BUY_SIGNAL"
       (add_label "dd_norm" labels
          ++ ["ACTION"; "REASON_BUY"; "REASON_SELL"; "FAILED_CHECKS"])).

(** Every row carries the labels of the header. *)
Definition labelled (fr : frame) : Prop :=
  Forall (fun r : series => map fst r = columns fr) (rows fr).

(** The relation between a row and its image under a cell-wise step:
    same labels, cells related by [R] at their label. *)
Definition cellwise (R : string -> pyval -> pyval -> Prop) (r r' : series) : Prop :=
  Forall2 (fun kv kv' : string * pyval =>
             fst kv' = fst kv /\ R (fst kv) (snd kv) (snd kv')) r r'.

(** One conversion step on the cells of the listed columns. *)
Definition converts (f : pyval -> result pyval) (cs : list string)
    (k : string) (v v' : pyval) : Prop :=
  if str_in k cs then f v = Ok v' else v' = v.

Section NormalCell.

Context `{PyBuiltins}.

(** What the three conversion loops do to the cell under a label. *)
Definition normal_cell (k : string) (v v' : pyval) : Prop :=
  if str_in k TEXT_COLS then v' = VStr (Str.strip (py_str v))
  else if str_in k NUM_COLS then exists x, _to_num v = Ok x /\ v' = VFloat x
  else if str_in k BOOL_COLS then v' = VBool (_to_bool v)
  else v' = v.

(** The same, leaving open what a missing cell of a text column
    becomes, which depends on the version of pandas. *)
Definition converted_cell (k : string) (v v' : pyval) : Prop :=
  if str_in k TEXT_COLS then pd_isna v = false -> v' = VStr (Str.strip (py_str v))
  else if str_in k NUM_COLS then exists x, _to_num v = Ok x /\ v' = VFloat x
  else if str_in k BOOL_COLS then v' = VBool (_to_bool v)
  else v' = v.

End NormalCell.

(** The columns the rules read. *)
Definition RULE_COLS : list string :=
  ["QUALITY_PASS"; "pass_debt"; "pass_interest_cover"; "pass_fcf"; "pass_roic";
   "pass_payout"; "ENTRY_PERMITTED"; "BUY_CANDIDATE"; "score"; "dd_norm"].

(** The sample table, classified with an empty configuration. *)
Definition sample_result : frame :=
  Eval vm_compute in
    match call_compute_actions (H := Plain.builtins) Sample.table ∅ with
    | Ok out => out
    | Err _ => Frame [] []
    end.



(** ** The order of the output, in its own words *)

Definition buy_of (q : series) : bool := py_bool (_safe_get q "BUY_SIGNAL" VNone).
Definition sell_of (q : series) : bool := py_bool (_safe_get q "SELL_SIGNAL" VNone).

Definition score_of (q : series) : float :=
  match _safe_get q "score" (VFloat np_nan) with VFloat x => x | _ => np_nan end.

(** A score goes strictly before another in descending order, nulls
    last: it is a number, and the other is missing or smaller. *)
Definition score_before (x y : float) : bool :=
  negb (PrimFloat.is_nan x) && (PrimFloat.is_nan y || PrimFloat.ltb y x).

(** Row [a] goes strictly before row [b]: buy signal first, then sell
    signal, then, when the score column is there, the score. *)
Definition precedes (with_score : bool) (a b : series) : bool :=
  (buy_of a && negb (buy_of b))
  || (Bool.eqb (buy_of a) (buy_of b)
      && ((sell_of a && negb (sell_of b))
          || (Bool.eqb (sell_of a) (sell_of b)
              && with_score && score_before (score_of a) (score_of b)))).

(** The cells a sorted row holds under the sort keys. *)
Definition keyed (with_score : bool) (q : series) : Prop :=
  (exists b, series_get "BUY_SIGNAL" q = Some (VBool b))
  /\ (exists s, series_get "SELL_SIGNAL" q = Some (VBool s))
  /\ (with_score = true -> exists x, series_get "score" q = Some (VFloat x)).

Section Classified.

Context `{PyBuiltins}.

(** [q] is the classified row of the record [r]. *)
Definition classified (cfg : gmap string pyval) (labels : list string)
    (r q : series) : Prop :=
  exists th n, resolve_thresholds cfg = Ok th
               /\ normalize_row labels r = Ok n
               /\ annotate_row th cfg n = Ok q.

End Classified.

(** No row of the list has to go strictly before its predecessor. *)
Definition in_order (by_ : list string) (l : list series) : Prop :=
  Sorted (fun a b => lex_before by_ b a = false) l.

(** ** The decision table, read off the cells of a record *)

(** A boolean cell as the buy gate and the classifier read it. *)
Definition flag_of (c : string) (q : series) : bool :=
  py_bool (_safe_get q c (VBool false)).

Definition dd_of (q : series) : float :=
  match _safe_get q "dd_norm" (VFloat np_nan) with VFloat x => x | _ => np_nan end.

(** The quality flag is there and false, or a required check fails. *)
Definition sell_rule (cfg : gmap string pyval) (q : series) : bool :=
  quality_false q || match failed_checks cfg q with [] => false | _ :: _ => true end.

(** Entry permitted, quality passed, a candidate or a score that reaches
    the minimum, and a drawdown that is not above the buy threshold. *)
Definition buy_rule (th : thresholds) (q : series) : bool :=
  flag_of "ENTRY_PERMITTED" q && flag_of "QUALITY_PASS" q
  && (flag_of "BUY_CANDIDATE" q || PrimFloat.leb (SCORE_BUY_MIN th) (score_of q))
  && negb (PrimFloat.ltb (DD_BUY th) (dd_of q)).

(** The pass flags that are there and false, in the order of the watch list. *)
Definition watch_list (q : series) : list string :=
  List.filter (fun col => match series_get col q with
                          | Some v => negb (py_bool v)
                          | None => false
                          end)
              WATCH_COLS.

Definition verdict (th : thresholds) (cfg : gmap string pyval) (q : series)
    : string * string * string * string :=
  if sell_rule cfg q then
    let rs := if quality_false q then "QUALITY_PASS=FALSE"
              else Str.join " / " (failed_checks cfg q) in
    ("REVIEW SELL", "", rs, rs)
  else if buy_rule th q then
    (if PrimFloat.leb (dd_of q) (DD_STRONG th) then "STRONG BUY" else "BUY",
     "ENTRY_OK", "", "")
  else if flag_of "ENTRY_PERMITTED" q then
    match watch_list q with
    | [] => ("HOLD", "", "", "")
    | _ :: _ => ("WATCH", "", Str.join " / " (watch_list q), Str.join " / " (watch_list q))
    end
  else ("HOLD", "", "", "").

(** The labels the classifier reaches. *)
Definition REACHED_ACTIONS : list string :=
  ["REVIEW SELL"; "STRONG BUY"; "BUY"; "WATCH"; "HOLD"].

(** A candidate with entry permitted, a deep drawdown and a failed debt
    check: the buy gate on its own lets it in with flags. *)
Definition flagged_candidate : series :=
  [("QUALITY_PASS", VBool true); ("pass_debt", VBool false);
   ("pass_interest_cover", VBool true); ("pass_fcf", VBool true);
   ("ENTRY_PERMITTED", VBool true); ("BUY_CANDIDATE", VBool true);
   ("score", VFloat 80); ("dd_norm", VFloat (-0.35))].

(** The columns that the engine writes besides the decided ones. *)
Definition ENGINE_COLS : list string :=
  ["dd_norm"; "ACTION"; "REASON_BUY"; "REASON_SELL"; "FAILED_CHECKS";
   "BUY_SIGNAL"; "SELL_SIGNAL"].

(** The cell of an output row under a label, from the converted record
    [r3], its normalised drawdown [y] and its decision. *)
Definition output_cell (r3 : series) (y : float) (a rb rs fc : string) (c : string)
    : option pyval :=
  if String.eqb c "SELL_SIGNAL" then Some (VBool (String.eqb a "REVIEW SELL"))
  else if String.eqb c "BUY_SIGNAL" then Some (VBool (str_in a ["BUY"; "STRONG BUY"]))
  else if String.eqb c "ACTION" then Some (VStr a)
  else if String.eqb c "REASON_BUY" then Some (VStr rb)
  else if String.eqb c "REASON_SELL" then Some (VStr rs)
  else if String.eqb c "FAILED_CHECKS" then Some (VStr fc)
  else if String.eqb c "dd_norm" then Some (VFloat y)
  else series_get c r3.

(** A string that does not begin with whitespace. *)
Definition starts_clean (s : string) : bool :=
  match s with
  | EmptyString => true
  | String a _ => negb (Str.is_space a)
  end.

(** The block of the output a label belongs to: the buy labels, then
    [REVIEW SELL], then the others. *)
Definition action_rank (a : string) : nat :=
  if str_in a ["BUY"; "STRONG BUY"] then 0%nat
  else if String.eqb a "REVIEW SELL" then 1%nat
  else 2%nat.

Definition row_rank (q : series) : nat :=
  if buy_of q then 0%nat else if sell_of q then 1%nat else 2%nat.

(** A byte of a decimal numeral: a digit or the minus sign. *)
Definition numeral_char (a : ascii) : bool :=
  let n := nat_of_ascii a in
  ((48 <=? n) && (n <=? 57) || (n =? 45))%nat.

Fixpoint all_chars (p : ascii -> bool) (s : string) : bool :=
  match s with
  | EmptyString => true
  | String a s' => p a && all_chars p s'
  end.

(** A one-byte character of ASCII. *)
Definition is_ascii (a : ascii) : bool := (nat_of_ascii a <? 128)%nat.

Definition AFFIRMATIVE : list string := ["true"; "1"; "yes"; "y"; "sim"; "s"; "ok"].

(** ** The script of [app.py]

    The script builds the configuration from the profile and from the
    three numbers of the sidebar, stops on an empty sheet, trims the
    header and calls the engine.  The profile, the numbers that the
    widgets hand back and the table read from the sheet are its inputs. *)

Module Script.

Section Script.

Context `{PyBuiltins}.

Definition cfg (base_cfg : gmap string pyval) (SCORE_BUY_MIN DD_BUY DD_STRONG : pyval)
    : result (gmap string pyval) :=
  let? score_buy_min := py_float SCORE_BUY_MIN in
  let? dd_buy := py_float DD_BUY in
  let? dd_strong := py_float DD_STRONG in
  Ok {[ "SCORE_BUY_MIN" := VFloat score_buy_min;
        "DD_BUY" := VFloat dd_buy;
        "DD_STRONG" := VFloat dd_strong;
        "REQUIRE_PASS_DEBT" := cfg_get base_cfg "REQUIRE_PASS_DEBT" (VBool true);
        "REQUIRE_PASS_INTEREST" := cfg_get base_cfg "REQUIRE_PASS_INTEREST" (VBool true);
        "REQUIRE_PASS_FCF" := cfg_get base_cfg "REQUIRE_PASS_FCF" (VBool true);
        "REQUIRE_PASS_ROIC" := cfg_get base_cfg "REQUIRE_PASS_ROIC" (VBool false);
        "REQUIRE_PASS_PAYOUT" := cfg_get base_cfg "REQUIRE_PASS_PAYOUT" (VBool false);
        "ALLOW_SPECULATIVE" := cfg_get base_cfg "ALLOW_SPECULATIVE" (VBool true) ]}.



End Script.

End Script.

(** The defaults of the slider at one risk and at a pair of risks, as
    booleans. *)
Module SliderCheck.

Definition in_bounds (risk : Z) : bool :=
  match App.score_min risk, App.dd_buy risk, App.dd_strong risk with
  | Ok s, Ok b, Ok g =>
      Z.leb 55 s && Z.leb s 85 && PrimFloat.ltb g b && PrimFloat.ltb b 0
  | _, _, _ => false
  end.

Definition ordered_at (risk risk' : Z) : bool :=
  match App.score_min risk, App.dd_buy risk, App.dd_strong risk,
        App.score_min risk', App.dd_buy risk', App.dd_strong risk' with
  | Ok s, Ok b, Ok g, Ok s', Ok b', Ok g' =>
      Z.leb s' s && PrimFloat.leb b b' && PrimFloat.leb g g'
  | _, _, _, _, _, _ => false
  end.

Definition monotone_from (risk : Z) : bool :=
  forallb (fun risk' => negb (Z.leb risk risk') || ordered_at risk risk')
          (map Z.of_nat (seq 0 101)).

End SliderCheck.


(** Two rows hold the same cells in the recognised columns and in the
    columns that the engine writes. *)
Definition same_known_cells (q q' : series) : Prop :=
  forall c, str_in c (EXPECTED_COLUMNS ++ ENGINE_COLS) = true ->
            series_get c q' = series_get c q.


(** A table without records, with a column that is not recognised, and
    what the call answers on it. *)
Definition no_records : frame := Frame ["ticker"; "name"; "memo"] [].

Definition no_records_result : frame :=
  Eval vm_compute in
    match call_compute_actions (H := Plain.builtins) no_records ∅ with
    | Ok out => out
    | Err _ => Frame [] []
    end.

(** * Properties *)

(** ** Comparisons of binary64 numbers *)

Module FltFacts.

Lemma SFcompare_refl (a : spec_float) :
  a <> S754_nan -> SFcompare a a = Some Eq.
Proof.
  destruct a as [s|s| |s m e]; simpl; intros Hn; try congruence.
  - destruct s; reflexivity.
  - destruct s; rewrite Z.compare_refl, Pos.compare_cont_refl; reflexivity.
Qed.

Lemma SFcompare_antisym (a b : spec_float) (c : comparison) :
  SFcompare a b = Some c -> SFcompare b a = Some (CompOpp c).
Proof.
  destruct a as [sa|sa| |sa ma ea], b as [sb|sb| |sb mb eb]; simpl;
    intros Hc; inversion Hc; subst; clear Hc;
    try (destruct sa; reflexivity); try (destruct sb; reflexivity);
    try (destruct sa, sb; reflexivity).
  pose proof (Pos.compare_cont_antisym ma mb Eq) as Hm. simpl in Hm.
  destruct sa, sb; simpl; try reflexivity;
    rewrite (Z.compare_antisym ea eb);
    destruct (ea ?= eb)%Z; simpl; try reflexivity;
    rewrite <- Hm; destruct (Pos.compare_cont Eq ma mb); reflexivity.
Qed.

Lemma is_nan_false (x : float) :
  PrimFloat.is_nan x = false <-> Prim2SF x <> S754_nan.
Proof.
  unfold PrimFloat.is_nan. rewrite FloatAxioms.eqb_spec. unfold SFeqb. split.
  - intros Hx Hn. rewrite Hn in Hx. simpl in Hx. discriminate.
  - intros Hn. rewrite (SFcompare_refl _ Hn). reflexivity.
Qed.

Lemma compare_some_not_nan (a b : spec_float) (c : comparison) :
  SFcompare a b = Some c -> a <> S754_nan /\ b <> S754_nan.
Proof.
  destruct a, b; simpl; intros Hc; split; congruence.
Qed.

Lemma ltb_compare (x y : float) :
  PrimFloat.ltb x y = true <-> SFcompare (Prim2SF x) (Prim2SF y) = Some Lt.
Proof.
  rewrite FloatAxioms.ltb_spec. unfold SFltb.
  destruct (SFcompare (Prim2SF x) (Prim2SF y)) as [[]|]; split; congruence.
Qed.

Lemma ltb_not_nan (x y : float) :
  PrimFloat.ltb x y = true ->
  PrimFloat.is_nan x = false /\ PrimFloat.is_nan y = false.
Proof.
  rewrite ltb_compare. intros Hc.
  destruct (compare_some_not_nan _ _ _ Hc). rewrite !is_nan_false. auto.
Qed.

Lemma leb_not_nan (x y : float) :
  PrimFloat.leb x y = true ->
  PrimFloat.is_nan x = false /\ PrimFloat.is_nan y = false.
Proof.
  rewrite FloatAxioms.leb_spec. unfold SFleb.
  destruct (SFcompare (Prim2SF x) (Prim2SF y)) as [c|] eqn:Hc; try discriminate.
  intros _. destruct (compare_some_not_nan _ _ _ Hc). rewrite !is_nan_false. auto.
Qed.

Lemma ltb_asym (x y : float) :
  PrimFloat.ltb x y = true -> PrimFloat.ltb y x = false.
Proof.
  rewrite ltb_compare. intros Hc. apply SFcompare_antisym in Hc.
  rewrite FloatAxioms.ltb_spec. unfold SFltb. rewrite Hc. reflexivity.
Qed.

Lemma ltb_not_leb (x y : float) :
  PrimFloat.ltb x y = true -> PrimFloat.leb y x = false.
Proof.
  rewrite ltb_compare. intros Hc. apply SFcompare_antisym in Hc.
  rewrite FloatAxioms.leb_spec. unfold SFleb. rewrite Hc. reflexivity.
Qed.

End FltFacts.

(** ** Drawdown normalisation *)

(** C3: a number at or below -1 is divided by 100, a number strictly
    between -1 and 0 is returned as it is, and not-a-number is answered
    for not-a-number. *)
Theorem normalize_drawdown_cases (x : float) :
  (PrimFloat.is_nan x = false -> PrimFloat.leb x (-1)%float = true ->
   _normalize_drawdown x = PrimFloat.div x 100%float)
  /\ (PrimFloat.ltb (-1)%float x = true -> PrimFloat.ltb x 0%float = true ->
      _normalize_drawdown x = x)
  /\ (PrimFloat.is_nan x = true ->
      _normalize_drawdown x = np_nan
      /\ PrimFloat.is_nan (_normalize_drawdown x) = true).
Proof.
  unfold _normalize_drawdown. split; [|split].
  - intros Hn Hle. rewrite Hn, Hle. reflexivity.
  - intros Hlo _. destruct (FltFacts.ltb_not_nan _ _ Hlo) as [_ Hn].
    rewrite Hn, (FltFacts.ltb_not_leb _ _ Hlo). reflexivity.
  - intros Hn. rewrite Hn. split; reflexivity.
Qed.

Lemma normalize_drawdown_examples :
  _normalize_drawdown (-25)%float = (-0.25)%float
  /\ _normalize_drawdown (-1)%float = (-0.01)%float
  /\ _normalize_drawdown (-0.25)%float = (-0.25)%float
  /\ PrimFloat.is_nan (_normalize_drawdown np_nan) = true.
Proof.
  split; [|split; [|split]].
  - rewrite (proj1 (normalize_drawdown_cases (-25)%float)); reflexivity.
  - rewrite (proj1 (normalize_drawdown_cases (-1)%float)); reflexivity.
  - apply (proj1 (proj2 (normalize_drawdown_cases (-0.25)%float))); reflexivity.
  - apply (proj2 (proj2 (normalize_drawdown_cases np_nan))); reflexivity.
Defined.

(** ** The sell rule *)

Lemma require_pass_check (cfg : gmap string pyval) (r : series)
    (toggle : string) (dflt : bool) (flag : string) (failed : list string) :
  require_pass cfg toggle dflt r flag failed =
  failed ++ (if check_fails cfg r (toggle, dflt, flag) then [flag] else []).
Proof.
  unfold require_pass, check_fails.
  destruct (py_bool (cfg_get cfg toggle (VBool dflt))); simpl;
    [destruct (py_bool (_safe_get r flag (VBool false))); simpl|];
    rewrite ?app_nil_r; reflexivity.
Qed.

Lemma passes_required_failed_checks (cfg : gmap string pyval) (r : series) :
  _passes_required r cfg = failed_checks cfg r.
Proof.
  unfold _passes_required, failed_checks, REQUIRED_CHECKS.
  rewrite !require_pass_check. cbn [List.filter].
  repeat match goal with
         | |- context [check_fails cfg r ?c] => destruct (check_fails cfg r c)
         end; reflexivity.
Qed.

(** C2: the sell signal is raised exactly when [QUALITY_PASS] is false,
    with the reason [QUALITY_PASS=FALSE] whatever the required checks
    say, or when the list of failed required checks is not empty, with
    the identifiers joined by [" / "]; the list holds, in the fixed
    order, the flags whose toggle is enabled and that are not true. *)
Theorem sell_signal_spec (cfg : gmap string pyval) (r : series) :
  _passes_required r cfg = failed_checks cfg r
  /\ sell_signal cfg r =
       (if quality_false r then (true, "QUALITY_PASS=FALSE")
        else match failed_checks cfg r with
             | [] => (false, "")
             | _ :: _ => (true, Str.join " / " (failed_checks cfg r))
             end)
  /\ (fst (sell_signal cfg r) = true <->
      quality_false r = true \/ failed_checks cfg r <> []).
Proof.
  split; [apply passes_required_failed_checks|].
  assert (Hs : sell_signal cfg r =
       (if quality_false r then (true, "QUALITY_PASS=FALSE")
        else match failed_checks cfg r with
             | [] => (false, "")
             | _ :: _ => (true, Str.join " / " (failed_checks cfg r))
             end)).
  { unfold sell_signal, quality_false, _safe_get.
    rewrite passes_required_failed_checks.
    destruct (series_get "QUALITY_PASS" r) as [v|]; simpl.
    - destruct (py_bool v); simpl; [|reflexivity].
      destruct (failed_checks cfg r); reflexivity.
    - destruct (failed_checks cfg r); reflexivity. }
  split; [exact Hs|]. rewrite Hs.
  destruct (quality_false r); simpl.
  - split; auto.
  - destruct (failed_checks cfg r); simpl; split; intros Hx;
      try discriminate; auto.
    destruct Hx as [Hx|Hx]; [discriminate|congruence].
Qed.
(** ** Absent columns *)

Lemma series_get_app (c : string) (r1 r2 : series) :
  series_get c (r1 ++ r2) =
  match series_get c r1 with Some v => Some v | None => series_get c r2 end.
Proof.
  induction r1 as [|[k v] r1 IH]; simpl; [reflexivity|].
  destruct (String.eqb k c); [reflexivity|exact IH].
Qed.

Lemma safe_get_absent (r : series) (c : string) (d : pyval) (k : string) (dk : pyval) :
  in_index c r = false -> k <> c \/ dk = d ->
  _safe_get (r ++ [(c, d)]) k dk = _safe_get r k dk.
Proof.
  unfold in_index, _safe_get. intros Habs Hk. rewrite series_get_app. simpl.
  destruct (String.eqb c k) eqn:Hck.
  - apply String.eqb_eq in Hck. subst k.
    destruct (series_get c r); [discriminate|].
    destruct Hk as [Hk|Hk]; congruence.
  - destruct (series_get k r); reflexivity.
Qed.

Lemma series_get_absent (r : series) (c : string) (d : pyval) (k : string) :
  k <> c -> series_get k (r ++ [(c, d)]) = series_get k r.
Proof.
  intros Hk. rewrite series_get_app. simpl.
  destruct (String.eqb c k) eqn:Hck.
  - apply String.eqb_eq in Hck. congruence.
  - destruct (series_get k r); reflexivity.
Qed.

Ltac absent_cell Habs :=
  repeat (rewrite (safe_get_absent _ _ _ _ _ Habs)
            by (first [left; discriminate | right; reflexivity]));
  repeat (rewrite series_get_absent by discriminate).

Lemma passes_required_absent (cfg : gmap string pyval) (r : series) (c : string) (d : pyval) :
  in_index c r = false ->
  In c WATCH_COLS /\ d = VBool false \/ ~ In c WATCH_COLS ->
  _passes_required (r ++ [(c, d)]) cfg = _passes_required r cfg.
Proof.
  intros Habs Hc. unfold _passes_required, require_pass.
  destruct Hc as [[Hc ->]|Hc].
  - simpl in Hc. repeat (destruct Hc as [<-|Hc]; [absent_cell Habs; reflexivity|]).
    destruct Hc.
  - assert (Hne : forall k, In k WATCH_COLS -> k <> c) by (intros k Hk ->; auto).
    rewrite !(safe_get_absent _ _ _ _ _ Habs)
      by (left; apply Hne; simpl; tauto).
    reflexivity.
Qed.

(** C4, as stated, fails: the sell rule does not read an absent
    [QUALITY_PASS] as [False], and the classifier does not read an absent
    [pass_payout] as [False]. *)
Lemma absent_column_not_false :
  in_index "QUALITY_PASS" Sample.no_quality = false
  /\ sell_signal ∅ Sample.no_quality = (false, "")
  /\ sell_signal ∅ (Sample.no_quality ++ [("QUALITY_PASS", VBool false)])
     = (true, "QUALITY_PASS=FALSE")
  /\ in_index "pass_payout" Sample.no_quality = false
  /\ decide (H := Plain.builtins) Sample.defaults ∅ Sample.no_quality
     = Ok ("HOLD", "", "", "")
  /\ decide (H := Plain.builtins) Sample.defaults ∅
       (Sample.no_quality ++ [("pass_payout", VBool false)])
     = Ok ("WATCH", "", "pass_payout", "pass_payout").
Proof. repeat split; vm_compute; reflexivity. Qed.

(** ** The risk slider *)

Lemma forall_risk (P : Z -> bool) :
  forallb P (map Z.of_nat (seq 0 101)) = true ->
  forall risk, 0 <= risk <= 100 -> P risk = true.
Proof.
  intros Hall risk Hr. rewrite forallb_forall in Hall. apply Hall.
  apply in_map_iff. exists (Z.to_nat risk). split; [lia|].
  apply in_seq. lia.
Qed.

(** C7, as the code has it: for every risk from 0 to 100 the minimum
    score is the interpolant through 85, 70 and 55 at risk 0, 50 and 100,
    truncated to an integer, and the two drawdown defaults are, up to
    rounding, the interpolants through -0.35, -0.20, -0.10 and through
    -0.45, -0.30, -0.20; at the three anchors the defaults are the anchor
    values themselves. *)
Theorem slider_defaults (risk : Z) :
  0 <= risk <= 100 ->
  App.score_min risk = Ok (Qfloor (App.through 85 70 55 risk))
  /\ App.near AppCheck.tolerance (App.dd_buy risk)
       (App.through (-35 # 100) (-20 # 100) (-10 # 100) risk) = true
  /\ App.near AppCheck.tolerance (App.dd_strong risk)
       (App.through (-45 # 100) (-30 # 100) (-20 # 100) risk) = true
  /\ (App.score_min 0 = Ok 85 /\ App.score_min 50 = Ok 70 /\ App.score_min 100 = Ok 55)
  /\ (App.dd_buy 0 = Ok (-0.35)%float /\ App.dd_buy 50 = Ok (-0.20)%float
      /\ App.dd_buy 100 = Ok (-0.10)%float)
  /\ (App.dd_strong 0 = Ok (-0.45)%float /\ App.dd_strong 50 = Ok (-0.30)%float
      /\ App.dd_strong 100 = Ok (-0.20)%float).
Proof.
  intros Hr.
  assert (Hall : AppCheck.defaults_at risk = true).
  { apply forall_risk; [vm_compute; reflexivity|exact Hr]. }
  unfold AppCheck.defaults_at in Hall.
  apply andb_true_iff in Hall. destruct Hall as [Hall Hs].
  apply andb_true_iff in Hall. destruct Hall as [Hm Hb].
  split; [|split; [exact Hb|split; [exact Hs|]]].
  - unfold AppCheck.score_is in Hm.
    destruct (App.score_min risk) as [z|e]; [|discriminate].
    apply Z.eqb_eq in Hm. congruence.
  - repeat split; vm_compute; reflexivity.
Qed.

Lemma slider_defaults_at_25 :
  0 <= 25 <= 100 /\ App.score_min 25 = Ok 77.
Proof.
  split; [lia|].
  rewrite (proj1 (slider_defaults 25 ltac:(lia))). reflexivity.
Defined.

(** C7, as stated, fails at risk 50: the buy-drawdown default is -0.20
    and the strong-buy default -0.30, while the midpoints of the end
    values are -0.225 and -0.325. *)
Lemma slider_midpoint_fails :
  App.dd_buy 50 = Ok (-0.20)%float
  /\ (App.spec_default (-35 # 100) (-10 # 100) 50 == -225 # 1000)%Q
  /\ App.near (1 # 50) (App.dd_buy 50) (App.spec_default (-35 # 100) (-10 # 100) 50) = false
  /\ App.dd_strong 50 = Ok (-0.30)%float
  /\ (App.spec_default (-45 # 100) (-20 # 100) 50 == -325 # 1000)%Q
  /\ App.near (1 # 50) (App.dd_strong 50) (App.spec_default (-45 # 100) (-20 # 100) 50) = false.
Proof. repeat split; vm_compute; reflexivity. Qed.
(** ** The store: [compute_actions] works on objects of its own *)

Section Store.

Context `{PyBuiltins}.

Lemma lookup_last (st : store) (fr : frame) : (st ++ [fr]) !! length st = Some fr.
Proof. apply list_lookup_middle. reflexivity. Qed.

Lemma read_last (st : store) (fr : frame) :
  read (length st) (st ++ [fr]) = Return fr (st ++ [fr]).
Proof. unfold read. rewrite lookup_last. reflexivity. Qed.

Lemma read_before_last (st : store) (a b : frame) :
  read (length st) ((st ++ [a]) ++ [b]) = Return a ((st ++ [a]) ++ [b]).
Proof.
  unfold read. rewrite lookup_app_l, lookup_last; [reflexivity|].
  rewrite length_app. simpl. lia.
Qed.

Lemma write_last (st : store) (fr fr' : frame) :
  write (length st) fr' (st ++ [fr]) = Return tt (st ++ [fr']).
Proof.
  unfold write. f_equal.
  replace (length st) with (length st + 0)%nat by lia.
  rewrite insert_app_r. reflexivity.
Qed.

Lemma update_last (st : store) (f : frame -> result frame) (fr : frame) :
  update (length st) f (st ++ [fr]) =
  match f fr with
  | Ok fr' => Return tt (st ++ [fr'])
  | Err e => Raise e (st ++ [fr])
  end.
Proof.
  unfold update, bind. rewrite read_last. unfold lift.
  destruct (f fr); [apply write_last|reflexivity].
Qed.

Lemma convert_last (st : store) (f : pyval -> result pyval) (c : string) (fr : frame) :
  convert (length st) f c (st ++ [fr]) =
  match converted f fr c with
  | Ok fr' => Return tt (st ++ [fr'])
  | Err e => Raise e (st ++ [fr])
  end.
Proof.
  unfold convert, converted, bind. rewrite read_last.
  destruct (has_column c fr); [apply update_last|reflexivity].
Qed.

Lemma for_convert_last (f : pyval -> result pyval) (cs : list string) :
  forall (st : store) (fr : frame),
    match for_ cs (convert (length st) f) (st ++ [fr]) with
    | Return _ st' =>
        exists fr', rfold (converted f) cs fr = Ok fr' /\ st' = st ++ [fr']
    | Raise e st' =>
        rfold (converted f) cs fr = Err e /\ exists fr', st' = st ++ [fr']
    end.
Proof.
  induction cs as [|c cs IH]; intros st fr; simpl.
  - eauto.
  - unfold bind. rewrite convert_last.
    destruct (converted f fr c) as [fr1|e]; simpl; [apply IH|eauto].
Qed.

Ltac raised :=
  cbn [rbind]; split; [reflexivity|];
  rewrite <- ?app_assoc; eexists; reflexivity.

(** What a call leaves in the store and what it answers: the objects
    that were there are there unchanged, and the answer is a new object
    holding [engine] of the argument, or the exception of [engine]. *)
Lemma compute_actions_store (st : store) (df : ref) (src : frame)
    (cfg : gmap string pyval) :
  st !! df = Some src ->
  match compute_actions df cfg st with
  | Return l st' =>
      exists out new, engine src cfg = Ok out /\ st' = st ++ new
                      /\ (length st <= l)%nat /\ st' !! l = Some out
  | Raise e st' => engine src cfg = Err e /\ exists new, st' = st ++ new
  end.
Proof.
  intros Hdf. unfold compute_actions, engine, normalized.
  unfold bind at 1. unfold read at 1. rewrite Hdf.
  unfold bind at 1. unfold alloc at 1.
  unfold bind at 1. rewrite update_last. cbv beta.
  destruct (set_columns _ src) as [f1|e]; cbn [rbind]; [|solve [raised]].
  unfold bind at 1.
  pose proof (for_convert_last text_cell TEXT_COLS st f1) as Ht.
  destruct (for_ TEXT_COLS _ _) as [[] st1|e st1];
    [destruct Ht as (f2 & -> & ->)
    |destruct Ht as (-> & f2 & ->); solve [raised]].
  cbn [rbind]. unfold bind at 1.
  pose proof (for_convert_last num_cell NUM_COLS st f2) as Hn.
  destruct (for_ NUM_COLS _ _) as [[] st1|e st1];
    [destruct Hn as (f3 & -> & ->)
    |destruct Hn as (-> & f3 & ->); solve [raised]].
  cbn [rbind]. unfold bind at 1.
  pose proof (for_convert_last bool_cell BOOL_COLS st f3) as Hb.
  destruct (for_ BOOL_COLS _ _) as [[] st1|e st1];
    [destruct Hb as (f4 & -> & ->)
    |destruct Hb as (-> & f4 & ->); solve [raised]].
  cbn [rbind]. unfold bind at 1. rewrite read_last.
  unfold bind at 1.
  assert (Hdd : (if has_column "drawdown_from_52w_high" f4
                 then update (length st)
                        (fun fr => let? dd := get_col "drawdown_from_52w_high" fr in
                                   let? dd0 := rmapM dd_cell dd in
                                   set_col "dd_norm" dd0 fr)
                 else update (length st)
                        (fun fr => Ok (set_col_scalar "dd_norm" (VFloat np_nan) fr)))
                  (st ++ [f4])
                = match with_dd_norm f4 with
                  | Ok fr' => Return tt (st ++ [fr'])
                  | Err e => Raise e (st ++ [f4])
                  end).
  { unfold with_dd_norm.
    destruct (has_column "drawdown_from_52w_high" f4); apply update_last. }
  rewrite Hdd. clear Hdd.
  destruct (with_dd_norm f4) as [f5|e]; cbn [rbind]; [|solve [raised]].
  unfold bind at 1. unfold lift at 1.
  destruct (resolve_thresholds cfg) as [th|e]; cbn [rbind]; [|solve [raised]].
  unfold bind at 1. rewrite read_last.
  unfold bind at 1. unfold lift at 1. unfold decided.
  destruct (df_apply_expand _ f5) as [d|e]; cbn [rbind]; [|solve [raised]].
  unfold bind at 1. unfold alloc at 1.
  unfold bind at 1. rewrite update_last. cbv beta.
  destruct (set_columns DECIDED_COLUMNS d) as [d'|e]; cbn [rbind];
    [|solve [raised]].
  unfold bind at 1. rewrite read_before_last.
  unfold bind at 1. rewrite read_last.
  unfold bind at 1. unfold alloc at 1.
  unfold signalled.
  unfold bind at 1. rewrite update_last. cbv beta.
  destruct (rbind (get_col "ACTION" (pd_concat f5 d')) _) as [o1|e];
    cbn [rbind]; [|solve [raised]].
  unfold bind at 1. rewrite update_last. cbv beta.
  destruct (rbind (get_col "ACTION" o1) _) as [o2|e];
    cbn [rbind]; [|solve [raised]].
  unfold bind at 1. rewrite read_last.
  unfold bind at 1. unfold ordered.
  destruct (has_column "score" o2).
  - unfold bind at 1. unfold lift at 1.
    destruct (sort_values _ o2) as [s|e]; [|solve [raised]].
    unfold alloc, ret. exists s. eexists.
    split; [reflexivity|]. split; [rewrite <- !app_assoc; reflexivity|].
    split; [rewrite !length_app; lia|apply lookup_last].
  - unfold bind at 1. unfold lift at 1.
    destruct (sort_values _ o2) as [s|e]; [|solve [raised]].
    unfold alloc, ret. exists s. eexists.
    split; [reflexivity|]. split; [rewrite <- !app_assoc; reflexivity|].
    split; [rewrite !length_app; lia|apply lookup_last].
Qed.

Lemma call_compute_actions_engine (df : frame) (cfg : gmap string pyval) :
  call_compute_actions df cfg = engine df cfg.
Proof.
  unfold call_compute_actions.
  pose proof (compute_actions_store [df] 0%nat df cfg eq_refl) as Hc.
  destruct (compute_actions 0%nat cfg [df]) as [l st'|e st'].
  - destruct Hc as (out & new & -> & _ & _ & ->). reflexivity.
  - destruct Hc as [-> _]. reflexivity.
Qed.

(** C9: whatever the call does, returning or raising, every object
    that was in the store before it, the source table among them, is
    there unchanged after it; the table it returns is a new object. *)
Theorem compute_actions_keeps_input (st : list frame) (df : nat)
    (cfg : gmap string pyval) (l : nat) (fr : frame) :
  st !! l = Some fr ->
  final_store (compute_actions df cfg st) !! l = Some fr
  /\ (forall out st', compute_actions df cfg st = Return out st' ->
       (length st <= out)%nat /\ out <> l).
Proof.
  intros Hl.
  assert (Hlt : (l < length st)%nat) by (apply lookup_lt_is_Some; eauto).
  destruct (st !! df) as [src|] eqn:Hdf.
  - pose proof (compute_actions_store st df src cfg Hdf) as Hc.
    destruct (compute_actions df cfg st) as [o st1|e st1]; simpl.
    + destruct Hc as (out & new & _ & -> & Hfresh & _). split.
      * rewrite lookup_app_l; assumption.
      * intros o' st' Heq. inversion Heq; subst. split; lia.
    + destruct Hc as (_ & new & ->). split.
      * rewrite lookup_app_l; assumption.
      * intros o' st' Heq. discriminate.
  - assert (Hr : compute_actions df cfg st = Raise ReferenceError st).
    { unfold compute_actions. unfold bind at 1. unfold read at 1.
      rewrite Hdf. reflexivity. }
    rewrite Hr. simpl. split; [exact Hl|]. intros o' st' Heq. discriminate.
Qed.

End Store.

Lemma compute_actions_keeps_sample :
  final_store (compute_actions (H := Plain.builtins) 0%nat ∅ [Sample.table]) !! 0%nat
  = Some Sample.table.
Proof.
  apply (compute_actions_keeps_input (H := Plain.builtins)
           [Sample.table] 0%nat ∅ 0%nat Sample.table eq_refl).
Defined.
(** ** Fallible maps and folds *)

Lemma rmapM_Forall2 {A B} (f : A -> result B) (l : list A) (l' : list B) :
  rmapM f l = Ok l' <-> Forall2 (fun a b => f a = Ok b) l l'.
Proof.
  revert l'. induction l as [|a l IH]; intros l'; simpl.
  - split.
    + intros Heq. inversion Heq. constructor.
    + intros Hf. inversion Hf. reflexivity.
  - split.
    + destruct (f a) as [b|e] eqn:Hb; simpl; [|discriminate].
      destruct (rmapM f l) as [bs|e] eqn:Hbs; simpl; [|discriminate].
      intros Heq. inversion Heq; subst. constructor; [exact Hb|].
      apply IH. reflexivity.
    + intros Hf. inversion Hf as [|a0 b l0 bs Hb Hbs]; subst.
      rewrite Hb. simpl. apply IH in Hbs. rewrite Hbs. reflexivity.
Qed.

Lemma rmapM_length {A B} (f : A -> result B) (l : list A) (l' : list B) :
  rmapM f l = Ok l' -> length l' = length l.
Proof.
  rewrite rmapM_Forall2. intros Hf. symmetry. eapply Forall2_length. exact Hf.
Qed.

Lemma rmapM_ext {A B} (f g : A -> result B) (l : list A) :
  (forall a, In a l -> f a = g a) -> rmapM f l = rmapM g l.
Proof.
  induction l as [|a l IH]; intros Hfg; simpl; [reflexivity|].
  rewrite (Hfg a) by (left; reflexivity).
  rewrite IH; [reflexivity|]. intros b Hb. apply Hfg. right. exact Hb.
Qed.


Lemma rmapM_In {A B} (f : A -> result B) (l : list A) (l' : list B) (b : B) :
  rmapM f l = Ok l' -> In b l' -> exists a, In a l /\ f a = Ok b.
Proof.
  rewrite rmapM_Forall2. intros Hf. induction Hf as [|a b' l l' Hab Hf IH]; simpl.
  - intros [].
  - intros [<-|Hb]; [eauto|]. destruct (IH Hb) as (a' & Ha & Hfa). eauto.
Qed.

(** Two maps in a row succeed exactly when the map of the two steps
    does, with the same result. *)
Lemma rmapM_bind {A B C} (g : A -> result B) (h : B -> result C)
    (l : list A) (l2 : list C) :
  (exists l1, rmapM g l = Ok l1 /\ rmapM h l1 = Ok l2)
  <-> rmapM (fun a => let? b := g a in h b) l = Ok l2.
Proof.
  revert l2. induction l as [|a l IH]; intros l2; simpl.
  - split.
    + intros (l1 & Hl1 & Hl2). inversion Hl1; subst. exact Hl2.
    + intros Hl2. exists []. auto.
  - split.
    + intros (l1 & Hl1 & Hl2).
      destruct (g a) as [b|e]; simpl in *; [|discriminate].
      destruct (rmapM g l) as [bs|e] eqn:Hbs; simpl in *; [|discriminate].
      inversion Hl1; subst. simpl in Hl2.
      destruct (h b) as [c|e]; simpl in *; [|discriminate].
      destruct (rmapM h bs) as [cs|e] eqn:Hcs; simpl in *; [|discriminate].
      inversion Hl2; subst.
      rewrite (proj1 (IH cs)); [reflexivity|eauto].
    + destruct (g a) as [b|e]; simpl; [|discriminate].
      destruct (h b) as [c|e] eqn:Hc; simpl; [|discriminate].
      destruct (rmapM (fun a => let? b := g a in h b) l) as [cs|e] eqn:Hcs;
        simpl; [|discriminate].
      intros Heq. inversion Heq; subst.
      destruct (proj2 (IH cs) eq_refl) as (bs & Hbs & Hcs').
      rewrite Hbs. simpl. exists (b :: bs). split; [reflexivity|].
      simpl. rewrite Hc, Hcs'. reflexivity.
Qed.

Lemma str_in_In (s : string) (l : list string) : str_in s l = true <-> In s l.
Proof.
  unfold str_in. rewrite existsb_exists. split.
  - intros (x & Hx & Heq). apply String.eqb_eq in Heq. subst. exact Hx.
  - intros Hs. exists s. split; [exact Hs|apply String.eqb_refl].
Qed.

Lemma str_in_false (s : string) (l : list string) : str_in s l = false <-> ~ In s l.
Proof.
  rewrite <- str_in_In. destruct (str_in s l); split; intros; congruence.
Qed.

(** ** Cells of a row *)

Lemma series_get_None (c : string) (r : series) :
  series_get c r = None <-> ~ In c (map fst r).
Proof.
  induction r as [|[k v] r IH]; simpl; [tauto|].
  destruct (String.eqb k c) eqn:Hk.
  - apply String.eqb_eq in Hk. split; [discriminate|tauto].
  - apply String.eqb_neq in Hk. rewrite IH. tauto.
Qed.

Lemma in_index_In (c : string) (r : series) :
  in_index c r = true <-> In c (map fst r).
Proof.
  unfold in_index. pose proof (series_get_None c r) as Hn.
  destruct (series_get c r).
  - split; [|reflexivity]. intros _.
    destruct (in_dec string_dec c (map fst r)) as [Hi|Hi]; [exact Hi|].
    apply Hn in Hi. discriminate.
  - split; [discriminate|]. intros Hi. exfalso. apply (proj1 Hn); auto.
Qed.

Lemma series_apply_at_labels (c : string) (f : pyval -> result pyval) (r r' : series) :
  series_apply_at c f r = Ok r' -> map fst r' = map fst r.
Proof.
  unfold series_apply_at. revert r'.
  induction r as [|[k v] r IH]; intros r'; simpl.
  - intros Heq. inversion Heq. reflexivity.
  - destruct (String.eqb k c).
    + destruct (f v) as [v'|e]; simpl; [|discriminate].
      destruct (rmapM _ r) as [rs|e]; simpl; [|discriminate].
      intros Heq. inversion Heq; subst. simpl. f_equal. apply IH. reflexivity.
    + simpl. destruct (rmapM _ r) as [rs|e]; simpl; [|discriminate].
      intros Heq. inversion Heq; subst. simpl. f_equal. apply IH. reflexivity.
Qed.

Lemma series_apply_at_absent (c : string) (f : pyval -> result pyval) (r : series) :
  ~ In c (map fst r) -> series_apply_at c f r = Ok r.
Proof.
  unfold series_apply_at. induction r as [|[k v] r IH]; simpl; [reflexivity|].
  intros Hc. destruct (String.eqb k c) eqn:Hk.
  - apply String.eqb_eq in Hk. tauto.
  - simpl. rewrite IH by tauto. reflexivity.
Qed.

(** The cell under [k] after [f] was applied to the cells under [c]. *)
Lemma series_apply_at_get (c : string) (f : pyval -> result pyval) (r r' : series)
    (k : string) :
  series_apply_at c f r = Ok r' ->
  match series_get k r with
  | Some v => exists v', series_get k r' = Some v'
                         /\ (if String.eqb k c then f v = Ok v' else v' = v)
  | None => series_get k r' = None
  end.
Proof.
  unfold series_apply_at. revert r'.
  induction r as [|[k0 v0] r IH]; intros r'; simpl.
  - intros Heq. inversion Heq. reflexivity.
  - destruct (String.eqb k0 c) eqn:Hc.
    + destruct (f v0) as [v'|e] eqn:Hv; simpl; [|discriminate].
      destruct (rmapM _ r) as [rs|e] eqn:Hrs; simpl; [|discriminate].
      intros Heq. inversion Heq; subst. simpl.
      destruct (String.eqb k0 k) eqn:Hk.
      * apply String.eqb_eq in Hk. subst k0. rewrite Hc. eauto.
      * apply IH. reflexivity.
    + simpl. destruct (rmapM _ r) as [rs|e] eqn:Hrs; simpl; [|discriminate].
      intros Heq. inversion Heq; subst. simpl.
      destruct (String.eqb k0 k) eqn:Hk.
      * apply String.eqb_eq in Hk. subst k0. rewrite Hc. eauto.
      * apply IH. reflexivity.
Qed.
Lemma rmapM_id {A} (f : A -> result A) (l : list A) :
  (forall a, In a l -> f a = Ok a) -> rmapM f l = Ok l.
Proof.
  induction l as [|a l IH]; intros Hf; simpl; [reflexivity|].
  rewrite (Hf a) by (left; reflexivity). simpl.
  rewrite IH; [reflexivity|]. intros b Hb. apply Hf. right. exact Hb.
Qed.

Lemma rmapM_pure {A B} (g : A -> B) (l : list A) :
  rmapM (fun a => Ok (g a)) l = Ok (map g l).
Proof.
  induction l as [|a l IH]; simpl; [reflexivity|]. rewrite IH. reflexivity.
Qed.

Lemma rmapM_map {A B C} (g : A -> B) (k : B -> result C) (l : list A) :
  rmapM k (map g l) = rmapM (fun a => k (g a)) l.
Proof.
  induction l as [|a l IH]; simpl; [reflexivity|]. rewrite IH. reflexivity.
Qed.

(** A column computed cell by cell and then assigned is a map over the
    rows. *)
Lemma rmapM_assign {A V B} (k : A -> result V) (S : V -> A -> B)
    (l : list A) (rs : list B) :
  rmapM (fun a => let? v := k a in Ok (S v a)) l = Ok rs
  <-> exists vs, rmapM k l = Ok vs
                 /\ rs = map (fun av : A * V => S (snd av) (fst av)) (combine l vs).
Proof.
  revert rs. induction l as [|a l IH]; intros rs; simpl.
  - split.
    + intros Heq. inversion Heq. exists []. auto.
    + intros (vs & Hvs & ->). inversion Hvs. reflexivity.
  - destruct (k a) as [v|e]; simpl.
    + destruct (rmapM (fun a0 => let? v0 := k a0 in Ok (S v0 a0)) l) as [bs|e] eqn:Hbs;
        simpl.
      * destruct (proj1 (IH bs) eq_refl) as (vs & Hvs & ->). rewrite Hvs. simpl.
        split.
        -- intros Heq. inversion Heq; subst. exists (v :: vs). auto.
        -- intros (ws & Hws & ->). inversion Hws; subst. reflexivity.
      * split; [discriminate|]. intros (ws & Hws & ->).
        destruct (rmapM k l) as [vs|e'] eqn:Hvs; simpl in Hws; [|discriminate].
        assert (Hbad : Err e = Ok (map (fun av : A * V => S (snd av) (fst av))
                                       (combine l vs))).
        { apply IH. eauto. }
        discriminate.
    + split; [discriminate|]. intros (ws & Hws & _). discriminate.
Qed.

Lemma combine_map_self {A B} (h : A -> B) (l : list A) :
  combine l (map h l) = map (fun a => (a, h a)) l.
Proof. induction l as [|a l IH]; simpl; [reflexivity|]. rewrite IH. reflexivity. Qed.

(** ** Stages of the call, row by row *)

Lemma relabel_labels (new : list string) (r : series) :
  length r = length new -> map fst (relabel new r) = new.
Proof.
  unfold relabel. revert r. induction new as [|c new IH]; intros r Hl; simpl.
  - reflexivity.
  - destruct r as [|kv r]; simpl in *; [discriminate|].
    f_equal. apply IH. lia.
Qed.

Lemma set_columns_same_length (new : list string) (fr : frame) :
  length new = length (columns fr) ->
  set_columns new fr = Ok (Frame new (map (relabel new) (rows fr))).
Proof.
  intros Hl. unfold set_columns. rewrite Hl, Nat.eqb_refl. reflexivity.
Qed.

Lemma rectangular_labelled (new : list string) (fr : frame) :
  rectangular fr = true -> length new = length (columns fr) ->
  labelled (Frame new (map (relabel new) (rows fr))).
Proof.
  unfold rectangular, labelled. simpl. intros Hr Hl.
  rewrite forallb_forall in Hr. apply Forall_forall. intros r' Hr'.
  apply list_elem_of_In in Hr'.
  apply in_map_iff in Hr'. destruct Hr' as (r & <- & Hin).
  apply relabel_labels. apply Hr in Hin. apply Nat.eqb_eq in Hin. lia.
Qed.

Lemma convert_row_labels (f : pyval -> result pyval) (cs : list string) :
  forall r r', convert_row f cs r = Ok r' -> map fst r' = map fst r.
Proof.
  unfold convert_row. induction cs as [|c cs IH]; intros r r'; simpl.
  - intros Heq. inversion Heq. reflexivity.
  - destruct (series_apply_at c f r) as [r1|e] eqn:H1; simpl; [|discriminate].
    intros H2. rewrite (IH _ _ H2). eapply series_apply_at_labels. exact H1.
Qed.

Lemma labelled_rows (cols : list string) (rs rs' : list series)
    (g : series -> result series) :
  (forall r r', g r = Ok r' -> map fst r' = map fst r) ->
  labelled (Frame cols rs) -> rmapM g rs = Ok rs' -> labelled (Frame cols rs').
Proof.
  unfold labelled. simpl. intros Hg Hl Hm.
  apply Forall_forall. intros r' Hr'. apply list_elem_of_In in Hr'.
  destruct (rmapM_In _ _ _ _ Hm Hr') as (r & Hr & Hgr).
  rewrite (Hg _ _ Hgr). rewrite Forall_forall in Hl. apply Hl.
  apply list_elem_of_In. exact Hr.
Qed.

Lemma converted_rows (f : pyval -> result pyval) (fr fr' : frame) (c : string) :
  labelled fr ->
  converted f fr c = Ok fr'
  <-> exists rs, rmapM (series_apply_at c f) (rows fr) = Ok rs
                 /\ fr' = Frame (columns fr) rs.
Proof.
  intros Hl. unfold converted, col_apply.
  destruct (has_column c fr) eqn:Hc.
  - destruct (rmapM (series_apply_at c f) (rows fr)) as [rs|e]; simpl.
    + split.
      * intros Heq. inversion Heq. eauto.
      * intros (rs' & Heq & ->). inversion Heq. reflexivity.
    + split; [discriminate|]. intros (rs' & Heq & _). discriminate.
  - assert (Hid : rmapM (series_apply_at c f) (rows fr) = Ok (rows fr)).
    { apply rmapM_id. intros r Hr. apply series_apply_at_absent.
      unfold labelled in Hl. rewrite Forall_forall in Hl.
      rewrite (Hl r) by (apply list_elem_of_In; exact Hr).
      apply str_in_false. exact Hc. }
    rewrite Hid. destruct fr as [cols rs]. simpl. split.
    + intros Heq. inversion Heq. eauto.
    + intros (rs' & Heq & ->). inversion Heq. reflexivity.
Qed.

Lemma rfold_converted_rows (f : pyval -> result pyval) (cs : list string) :
  forall fr fr', labelled fr ->
    rfold (converted f) cs fr = Ok fr'
    <-> exists rs, rmapM (convert_row f cs) (rows fr) = Ok rs
                   /\ fr' = Frame (columns fr) rs.
Proof.
  induction cs as [|c cs IH]; intros fr fr' Hl.
  - simpl. unfold convert_row. simpl. rewrite rmapM_pure, map_id.
    destruct fr as [cols rs]. simpl. split.
    + intros Heq. inversion Heq. eauto.
    + intros (rs' & Heq & ->). inversion Heq. reflexivity.
  - simpl. split.
    + destruct (converted f fr c) as [fr1|e] eqn:H1; simpl; [|discriminate].
      apply (converted_rows _ _ _ _ Hl) in H1. destruct H1 as (rs1 & H1 & ->).
      intros H2. apply IH in H2.
      * simpl in H2. destruct H2 as (rs & H2 & ->). exists rs. split; [|reflexivity].
        apply (rmapM_bind (series_apply_at c f) (convert_row f cs)). eauto.
      * destruct fr as [cols rs0]. simpl in *.
        eapply labelled_rows; [|exact Hl|exact H1].
        intros r r'. apply series_apply_at_labels.
    + intros (rs & Hrs & ->).
      apply (rmapM_bind (series_apply_at c f) (convert_row f cs)) in Hrs.
      destruct Hrs as (rs1 & H1 & H2).
      assert (Hc : converted f fr c = Ok (Frame (columns fr) rs1)).
      { apply converted_rows; eauto. }
      rewrite Hc. simpl. apply IH.
      * destruct fr as [cols rs0]. simpl in *.
        eapply labelled_rows; [|exact Hl|exact H1].
        intros r r'. apply series_apply_at_labels.
      * simpl. eauto.
Qed.
Lemma str_in_app (k : string) (l1 l2 : list string) :
  str_in k (l1 ++ l2) = str_in k l1 || str_in k l2.
Proof. unfold str_in. apply existsb_app. Qed.

Lemma str_in_add_label (k c : string) (l : list string) :
  str_in k (add_label c l) = String.eqb k c || str_in k l.
Proof.
  unfold add_label. destruct (str_in c l) eqn:Hc.
  - destruct (String.eqb k c) eqn:Hk; [|reflexivity].
    apply String.eqb_eq in Hk. subst. rewrite Hc. reflexivity.
  - rewrite str_in_app. simpl. rewrite orb_false_r. apply orb_comm.
Qed.

Lemma rmapM_post {A B C} (k : A -> result B) (T : B -> C) (l : list A) (l2 : list C) :
  rmapM (fun a => let? b := k a in Ok (T b)) l = Ok l2
  <-> exists l1, rmapM k l = Ok l1 /\ l2 = map T l1.
Proof.
  rewrite <- (rmapM_bind k (fun b => Ok (T b))). split.
  - intros (l1 & H1 & H2). rewrite rmapM_pure in H2. inversion H2. eauto.
  - intros (l1 & H1 & ->). exists l1. rewrite rmapM_pure. auto.
Qed.

Section StagesByRow.

Context `{PyBuiltins}.

Lemma with_dd_norm_rows (fr fr' : frame) :
  with_dd_norm fr = Ok fr'
  <-> exists rs,
        rmapM (dd_row (str_in "drawdown_from_52w_high" (columns fr))) (rows fr) = Ok rs
        /\ fr' = Frame (add_label "dd_norm" (columns fr)) rs.
Proof.
  unfold with_dd_norm, get_col, has_column.
  destruct (str_in "drawdown_from_52w_high" (columns fr)) eqn:Hc.
  - cbn [rbind]. rewrite rmapM_map.
    change (rmapM (dd_row true) (rows fr))
      with (rmapM (fun r => let? v := (fun a => dd_cell
                       (_safe_get a "drawdown_from_52w_high" VNone)) r in
                            Ok (series_set "dd_norm" v r)) (rows fr)).
    setoid_rewrite rmapM_assign.
    destruct (rmapM _ (rows fr)) as [vs|e] eqn:Hvs; cbn [rbind].
    + unfold set_col. rewrite (rmapM_length _ _ _ Hvs), Nat.eqb_refl. split.
      * intros Heq. inversion Heq. eauto.
      * intros (rs & (ws & Hws & ->) & ->). inversion Hws. reflexivity.
    + split; [discriminate|]. intros (rs & (ws & Hws & _) & _). discriminate.
  - unfold dd_row, set_col_scalar. rewrite rmapM_pure. split.
    + intros Heq. inversion Heq. eauto.
    + intros (rs & Hrs & ->). inversion Hrs. reflexivity.
Qed.

Lemma dd_row_labels (b : bool) (r r' : series) :
  dd_row b r = Ok r' -> map fst r' = map fst (series_set "dd_norm" VNone r).
Proof.
  assert (Hs : forall v, map fst (series_set "dd_norm" v r)
                         = map fst (series_set "dd_norm" VNone r)).
  { intros v. unfold series_set. destruct (in_index "dd_norm" r).
    - rewrite !map_map. apply map_ext. intros [k x]. simpl.
      destruct (String.eqb k "dd_norm"); reflexivity.
    - rewrite !map_app. reflexivity. }
  unfold dd_row. destruct b.
  - destruct (dd_cell _) as [v|e]; simpl; [|discriminate].
    intros Heq. inversion Heq. apply Hs.
  - intros Heq. inversion Heq. apply Hs.
Qed.

Lemma normalized_rows (df fr : frame) :
  rectangular df = true ->
  normalized df = Ok fr
  <-> exists ns,
        rmapM (normalize_row (map Str.strip (columns df))) (rows df) = Ok ns
        /\ fr = Frame (add_label "dd_norm" (map Str.strip (columns df))) ns.
Proof.
  intros Hrect. set (labels := map Str.strip (columns df)).
  assert (Hlen : length labels = length (columns df)) by apply length_map.
  unfold normalized. fold labels.
  rewrite (set_columns_same_length labels df Hlen). cbn [rbind].
  pose proof (rectangular_labelled labels df Hrect Hlen) as Hl1.
  set (f1 := Frame labels (map (relabel labels) (rows df))) in *.
  assert (Hstep : forall f cs (cols : list string) (rs rs' : list series),
             labelled (Frame cols rs) -> rmapM (convert_row f cs) rs = Ok rs' ->
             labelled (Frame cols rs')).
  { intros f cs cols rs rs' Hl Hm. eapply labelled_rows; [|exact Hl|exact Hm].
    apply convert_row_labels. }
  unfold normalize_row. split.
  - destruct (rfold (converted text_cell) TEXT_COLS f1) as [f2|e] eqn:H2;
      cbn [rbind]; [|discriminate].
    apply (rfold_converted_rows _ _ _ _ Hl1) in H2. destruct H2 as (r2 & H2 & ->).
    pose proof (Hstep _ _ _ _ _ Hl1 H2) as Hl2. simpl in H2, Hl2.
    destruct (rfold (converted num_cell) NUM_COLS _) as [f3|e] eqn:H3;
      cbn [rbind]; [|discriminate].
    apply (rfold_converted_rows _ _ _ _ Hl2) in H3. destruct H3 as (r3 & H3 & ->).
    pose proof (Hstep _ _ _ _ _ Hl2 H3) as Hl3. simpl in H3, Hl3.
    destruct (rfold (converted bool_cell) BOOL_COLS _) as [f4|e] eqn:H4;
      cbn [rbind]; [|discriminate].
    apply (rfold_converted_rows _ _ _ _ Hl3) in H4. destruct H4 as (r4 & H4 & ->).
    simpl in H4.
    intros H5. apply with_dd_norm_rows in H5. simpl in H5.
    destruct H5 as (r5 & H5 & ->). exists r5. split; [|reflexivity].
    rewrite rmapM_map in H2.
    apply (rmapM_bind _ (fun r => let? r0 := convert_row num_cell NUM_COLS r in
                                  let? r1 := convert_row bool_cell BOOL_COLS r0 in
                                  dd_row (str_in "drawdown_from_52w_high" labels) r1)).
    exists r2. split; [exact H2|].
    apply (rmapM_bind _ (fun r0 => let? r1 := convert_row bool_cell BOOL_COLS r0 in
                                   dd_row (str_in "drawdown_from_52w_high" labels) r1)).
    exists r3. split; [exact H3|].
    apply (rmapM_bind _ (dd_row (str_in "drawdown_from_52w_high" labels))).
    exists r4. split; [exact H4|exact H5].
  - intros (ns & Hns & ->).
    apply (rmapM_bind (fun r => convert_row text_cell TEXT_COLS (relabel labels r))
             (fun r => let? r0 := convert_row num_cell NUM_COLS r in
                       let? r1 := convert_row bool_cell BOOL_COLS r0 in
                       dd_row (str_in "drawdown_from_52w_high" labels) r1)) in Hns.
    destruct Hns as (r2 & H2 & Hns).
    apply (rmapM_bind _ (fun r0 => let? r1 := convert_row bool_cell BOOL_COLS r0 in
                                   dd_row (str_in "drawdown_from_52w_high" labels) r1))
      in Hns.
    destruct Hns as (r3 & H3 & Hns).
    apply (rmapM_bind _ (dd_row (str_in "drawdown_from_52w_high" labels))) in Hns.
    destruct Hns as (r4 & H4 & H5).
    rewrite <- (rmapM_map (relabel labels)) in H2.
    assert (E2 : rfold (converted text_cell) TEXT_COLS f1 = Ok (Frame labels r2)).
    { apply (rfold_converted_rows _ _ _ _ Hl1). eauto. }
    rewrite E2. cbn [rbind].
    pose proof (Hstep _ _ _ _ _ Hl1 H2) as Hl2.
    assert (E3 : rfold (converted num_cell) NUM_COLS (Frame labels r2)
                 = Ok (Frame labels r3)).
    { apply (rfold_converted_rows _ _ _ _ Hl2). eauto. }
    rewrite E3. cbn [rbind].
    pose proof (Hstep _ _ _ _ _ Hl2 H3) as Hl3.
    assert (E4 : rfold (converted bool_cell) BOOL_COLS (Frame labels r3)
                 = Ok (Frame labels r4)).
    { apply (rfold_converted_rows _ _ _ _ Hl3). eauto. }
    rewrite E4. cbn [rbind].
    apply with_dd_norm_rows. simpl. eauto.
Qed.

End StagesByRow.
Lemma signalled_rows (o : frame) :
  str_in "ACTION" (columns o) = true ->
  signalled o
  = Ok (Frame (add_label "SELL_SIGNAL" (add_label "BUY_SIGNAL" (columns o)))
          (map (fun r => with_sell_signal (with_buy_signal r)) (rows o))).
Proof.
  intros Ha. unfold signalled, get_col, has_column. rewrite Ha. cbn [rbind].
  unfold set_col at 1. rewrite !length_map, Nat.eqb_refl. cbn [rbind].
  cbn [columns rows]. unfold with_column at 1. unfold has_column. cbn [columns].
  fold (add_label "BUY_SIGNAL" (columns o)).
  rewrite str_in_add_label, Ha, orb_true_r. cbn [rbind].
  unfold set_col. cbn [rows columns]. rewrite !length_map, Nat.eqb_refl.
  unfold with_column, has_column. cbn [columns].
  fold (add_label "SELL_SIGNAL" (add_label "BUY_SIGNAL" (columns o))).
  f_equal. f_equal.
  assert (E1 : map (fun rv : series * pyval => series_set "BUY_SIGNAL" (snd rv) (fst rv))
                 (combine (rows o)
                    (map (isin ["BUY"; "STRONG BUY"])
                       (map (fun r => _safe_get r "ACTION" VNone) (rows o))))
               = map with_buy_signal (rows o)).
  { rewrite (map_map (fun r => _safe_get r "ACTION" VNone)), combine_map_self, map_map.
    reflexivity. }
  rewrite E1.
  rewrite (map_map (fun r => _safe_get r "ACTION" VNone)), combine_map_self, !map_map.
  reflexivity.
Qed.

Lemma ordered_rows (o : frame) :
  str_in "BUY_SIGNAL" (columns o) = true ->
  str_in "SELL_SIGNAL" (columns o) = true ->
  ordered o = Ok (Frame (columns o) (sort_rows (sort_keys (columns o)) (rows o))).
Proof.
  intros Hb Hs. unfold ordered, sort_values, sort_keys, has_column.
  destruct (str_in "score" (columns o)) eqn:Hsc; cbn [forallb];
    unfold has_column; rewrite Hb, Hs, ?Hsc; reflexivity.
Qed.

Lemma out_columns_keys (labels : list string) :
  str_in "BUY_SIGNAL" (out_columns labels) = true
  /\ str_in "SELL_SIGNAL" (out_columns labels) = true
  /\ sort_keys (out_columns labels) = sort_keys labels.
Proof.
  unfold out_columns, sort_keys.
  rewrite !str_in_add_label, !str_in_app, !str_in_add_label. cbn.
  rewrite ?orb_false_r, ?orb_true_r. repeat split; reflexivity.
Qed.

Section AnnotatedByRow.

Context `{PyBuiltins}.

Lemma decided_cells_expand (th : thresholds) (cfg : gmap string pyval) (r : series) :
  (let? b := (let? x := decide th cfg r in Ok (decision_cells x)) in
   Ok (relabel DECIDED_COLUMNS (combine ["0"; "1"; "2"; "3"] b)))
  = decided_cells th cfg r.
Proof.
  unfold decided_cells. destruct (decide th cfg r) as [[[[a rb] rs] fc]|e];
    reflexivity.
Qed.

Lemma decided_rows (th : thresholds) (cfg : gmap string pyval) (fr d : frame) :
  rows fr <> [] ->
  decided th cfg fr = Ok d
  <-> exists ds, rmapM (decided_cells th cfg) (rows fr) = Ok ds
                 /\ d = Frame DECIDED_COLUMNS ds.
Proof.
  intros Hne. unfold decided, df_apply_expand.
  destruct (rows fr) as [|r0 rest] eqn:Hrows; [congruence|].
  remember (r0 :: rest) as l eqn:Hl. clear Hl Hrows Hne.
  rewrite <- (rmapM_ext _ _ l (fun r _ => decided_cells_expand th cfg r)).
  setoid_rewrite rmapM_post.
  destruct (rmapM _ l) as [cells|e]; cbn [rbind].
  - unfold set_columns. cbn [columns rows length Nat.eqb]. split.
    + intros Heq. inversion Heq. exists (map (fun b => relabel DECIDED_COLUMNS
                                 (combine ["0"; "1"; "2"; "3"] b)) cells).
      split; [eauto|]. rewrite map_map. reflexivity.
    + intros (ds & (l1 & Hl1 & ->) & ->). inversion Hl1; subst.
      rewrite map_map. reflexivity.
  - split; [discriminate|]. intros (ds & (l1 & Hl1 & _) & _). discriminate.
Qed.

Lemma annotated_rows (th : thresholds) (cfg : gmap string pyval) (fr out : frame) :
  rows fr <> [] ->
  (exists d, decided th cfg fr = Ok d /\ signalled (pd_concat fr d) = Ok out)
  <-> exists pre,
        rmapM (annotate_row th cfg) (rows fr) = Ok pre
        /\ out = Frame (add_label "SELL_SIGNAL"
                          (add_label "BUY_SIGNAL" (columns fr ++ DECIDED_COLUMNS)))
                       pre.
Proof.
  intros Hne.
  assert (Ha : forall d, columns d = DECIDED_COLUMNS ->
                         str_in "ACTION" (columns (pd_concat fr d)) = true).
  { intros d Hd. unfold pd_concat. cbn [columns]. rewrite Hd, str_in_app.
    apply orb_true_r. }
  unfold annotate_row. split.
  - intros (d & Hd & Hs). apply (decided_rows _ _ _ _ Hne) in Hd.
    destruct Hd as (ds & Hds & ->).
    rewrite signalled_rows in Hs by (apply Ha; reflexivity).
    inversion Hs; subst out; clear Hs. cbn [columns rows pd_concat].
    eexists. split; [|reflexivity].
    apply (rmapM_assign (decided_cells th cfg)
             (fun v n => with_sell_signal (with_buy_signal (n ++ v)))).
    exists ds. split; [exact Hds|]. rewrite map_map. reflexivity.
  - intros (pre & Hpre & ->).
    apply (rmapM_assign (decided_cells th cfg)
             (fun v n => with_sell_signal (with_buy_signal (n ++ v)))) in Hpre.
    destruct Hpre as (ds & Hds & ->).
    exists (Frame DECIDED_COLUMNS ds). split.
    + apply (decided_rows _ _ _ _ Hne). eauto.
    + rewrite signalled_rows by (apply Ha; reflexivity).
      cbn [columns rows pd_concat]. rewrite map_map. reflexivity.
Qed.

(** The call succeeds exactly when every record can be normalised and
    classified, and then answers the classified records, sorted. *)
Lemma engine_by_rows (df : frame) (cfg : gmap string pyval) (out : frame) :
  rectangular df = true -> rows df <> [] ->
  engine df cfg = Ok out
  <-> exists th ns pre,
        resolve_thresholds cfg = Ok th
        /\ rmapM (normalize_row (map Str.strip (columns df))) (rows df) = Ok ns
        /\ rmapM (annotate_row th cfg) ns = Ok pre
        /\ out = Frame (out_columns (map Str.strip (columns df)))
                   (sort_rows (sort_keys (map Str.strip (columns df))) pre).
Proof.
  intros Hrect Hne. set (labels := map Str.strip (columns df)).
  destruct (out_columns_keys labels) as (Hb & Hs & Hk).
  assert (Hns_ne : forall ns, rmapM (normalize_row labels) (rows df) = Ok ns ->
                              ns <> []).
  { intros ns Hns ->. apply rmapM_length in Hns.
    destruct (rows df); [congruence|discriminate]. }
  unfold engine. split.
  - destruct (normalized df) as [fr|e] eqn:Hn; cbn [rbind]; [|discriminate].
    apply (normalized_rows _ _ Hrect) in Hn. fold labels in Hn.
    destruct Hn as (ns & Hns & ->).
    destruct (resolve_thresholds cfg) as [th|e]; cbn [rbind]; [|discriminate].
    destruct (decided th cfg _) as [d|e] eqn:Hd; cbn [rbind]; [|discriminate].
    destruct (signalled _) as [o|e] eqn:Hsig; cbn [rbind]; [|discriminate].
    assert (Hex : exists d0, decided th cfg (Frame (add_label "dd_norm" labels) ns)
                             = Ok d0
                             /\ signalled (pd_concat
                                  (Frame (add_label "dd_norm" labels) ns) d0) = Ok o)
      by eauto.
    apply annotated_rows in Hex; [|exact (Hns_ne ns Hns)].
    destruct Hex as (pre & Hpre & ->). cbn [columns rows] in *.
    change (add_label "SELL_SIGNAL"
              (add_label "BUY_SIGNAL" (add_label "dd_norm" labels ++ DECIDED_COLUMNS)))
      with (out_columns labels).
    rewrite ordered_rows by assumption. cbn [columns rows]. rewrite Hk.
    intros Heq. inversion Heq. exists th, ns, pre. auto.
  - intros (th & ns & pre & Hth & Hns & Hpre & ->).
    assert (Hn : normalized df = Ok (Frame (add_label "dd_norm" labels) ns)).
    { apply (normalized_rows _ _ Hrect). eauto. }
    rewrite Hn, Hth. cbn [rbind].
    assert (Hex : exists d0, decided th cfg (Frame (add_label "dd_norm" labels) ns)
                             = Ok d0
                             /\ signalled (pd_concat
                                  (Frame (add_label "dd_norm" labels) ns) d0)
                                = Ok (Frame (out_columns labels) pre)).
    { apply annotated_rows; [exact (Hns_ne ns Hns)|]. eauto. }
    destruct Hex as (d & Hd & Hsig). rewrite Hd. cbn [rbind].
    rewrite Hsig. cbn [rbind].
    rewrite ordered_rows by assumption. cbn [columns rows]. rewrite Hk.
    reflexivity.
Qed.

End AnnotatedByRow.

(** ** Cells after an assignment and after the conversions *)

Lemma series_get_replace (k c : string) (v : pyval) (r : series) :
  series_get k
    (map (fun kv : string * pyval => if String.eqb (fst kv) c then (fst kv, v) else kv) r)
  = if String.eqb k c
    then match series_get c r with Some _ => Some v | None => None end
    else series_get k r.
Proof.
  induction r as [|[k0 v0] r IH]; simpl.
  - destruct (String.eqb k c); reflexivity.
  - destruct (String.eqb k0 c) eqn:H0; simpl.
    + apply String.eqb_eq in H0. subst k0.
      rewrite (String.eqb_sym c k). destruct (String.eqb k c); [reflexivity|exact IH].
    + destruct (String.eqb k0 k) eqn:Hk.
      * apply String.eqb_eq in Hk. subst k0. rewrite H0. reflexivity.
      * exact IH.
Qed.

Lemma series_get_set (k c : string) (v : pyval) (r : series) :
  series_get k (series_set c v r)
  = if String.eqb k c then Some v else series_get k r.
Proof.
  unfold series_set, in_index.
  destruct (series_get c r) as [w|] eqn:Hc.
  - rewrite series_get_replace, Hc. reflexivity.
  - rewrite series_get_app. simpl. rewrite String.eqb_sym.
    destruct (String.eqb k c) eqn:Hk.
    + apply String.eqb_eq in Hk. subst. rewrite Hc. reflexivity.
    + destruct (series_get k r); reflexivity.
Qed.

Lemma series_set_labels (c : string) (v : pyval) (r : series) :
  map fst (series_set c v r) = add_label c (map fst r).
Proof.
  unfold series_set, add_label.
  assert (Hi : in_index c r = str_in c (map fst r)).
  { destruct (str_in c (map fst r)) eqn:Hs.
    - apply in_index_In. apply str_in_In. exact Hs.
    - destruct (in_index c r) eqn:Hi; [|reflexivity].
      apply in_index_In in Hi. apply str_in_In in Hi. congruence. }
  rewrite Hi. destruct (str_in c (map fst r)).
  - rewrite map_map. apply map_ext_in. intros [k x] _. simpl.
    destruct (String.eqb k c); reflexivity.
  - rewrite map_app. reflexivity.
Qed.

Lemma cellwise_labels R (r r' : series) : cellwise R r r' -> map fst r' = map fst r.
Proof.
  unfold cellwise. induction 1 as [|kv kv' r r' [Hk _] _ IH]; simpl; [reflexivity|].
  rewrite Hk, IH. reflexivity.
Qed.

Lemma cellwise_get R (r r' : series) (k : string) :
  cellwise R r r' ->
  match series_get k r with
  | Some v => exists v', series_get k r' = Some v' /\ R k v v'
  | None => series_get k r' = None
  end.
Proof.
  unfold cellwise.
  induction 1 as [|[k0 v0] [k1 v1] r r' [Hk HR] _ IH]; simpl; [reflexivity|].
  simpl in Hk, HR. subst k1.
  destruct (String.eqb k0 k) eqn:Hk.
  - apply String.eqb_eq in Hk. subst k0. eauto.
  - exact IH.
Qed.

Lemma cellwise_cells R (P : pyval -> Prop) (r r' : series) :
  cellwise R r r' -> (forall k v v', R k v v' -> P v') ->
  Forall (fun kv : string * pyval => P (snd kv)) r'.
Proof.
  unfold cellwise. intros Hc HP.
  induction Hc as [|kv kv' r r' [_ HR] _ IH]; constructor; eauto.
Qed.

Lemma cellwise_trans R1 R2 R (r r1 r2 : series) :
  (forall k v v1 v2, R1 k v v1 -> R2 k v1 v2 -> R k v v2) ->
  cellwise R1 r r1 -> cellwise R2 r1 r2 -> cellwise R r r2.
Proof.
  unfold cellwise. intros HR H1. revert r2.
  induction H1 as [|kv kv1 r r1 [Hk Hv] _ IH]; intros r2 H2.
  - inversion H2. constructor.
  - inversion H2 as [|? kv2 ? r2' [Hk2 Hv2] H2']; subst.
    constructor.
    + split; [congruence|]. rewrite Hk in Hv2. eauto.
    + apply IH. exact H2'.
Qed.

Lemma Forall2_equiv {A B} (P Q : A -> B -> Prop) (l : list A) (l' : list B) :
  (forall a b, P a b <-> Q a b) -> Forall2 P l l' <-> Forall2 Q l l'.
Proof.
  intros HPQ. split; intros Hf; (eapply Forall2_impl; [exact Hf|]);
    intros a b; apply HPQ.
Qed.

Lemma series_apply_at_cellwise (c : string) (f : pyval -> result pyval) (r r' : series) :
  series_apply_at c f r = Ok r' <-> cellwise (converts f [c]) r r'.
Proof.
  unfold series_apply_at, cellwise. rewrite rmapM_Forall2.
  apply Forall2_equiv. intros [k v] [k' v']. unfold converts, str_in. simpl.
  rewrite orb_false_r. destruct (String.eqb k c); simpl.
  - destruct (f v) as [w|e]; simpl; split.
    + intros Heq. inversion Heq. auto.
    + intros [-> Heq]. inversion Heq. reflexivity.
    + discriminate.
    + intros [_ Heq]. discriminate.
  - split.
    + intros Heq. inversion Heq. auto.
    + intros [-> ->]. reflexivity.
Qed.
Lemma cellwise_refl R (r : series) :
  (forall k v, R k v v) -> cellwise R r r.
Proof.
  intros HR. unfold cellwise. induction r as [|kv r IH]; constructor; auto.
Qed.

Lemma distinct_cons (c : string) (cs : list string) :
  distinct (c :: cs) = true -> str_in c cs = false /\ distinct cs = true.
Proof.
  simpl. intros Hd. apply andb_true_iff in Hd. destruct Hd as [Hc Hd].
  apply negb_true_iff in Hc. auto.
Qed.

Lemma convert_row_cellwise (f : pyval -> result pyval) (cs : list string) :
  distinct cs = true ->
  forall r r', convert_row f cs r = Ok r' -> cellwise (converts f cs) r r'.
Proof.
  unfold convert_row. induction cs as [|c cs IH]; intros Hd r r'; simpl.
  - intros Heq. inversion Heq. apply cellwise_refl. intros k v. reflexivity.
  - destruct (distinct_cons _ _ Hd) as [Hc Hd'].
    destruct (series_apply_at c f r) as [r1|e] eqn:H1; simpl; [|discriminate].
    intros H2. apply series_apply_at_cellwise in H1. apply (IH Hd') in H2.
    eapply cellwise_trans; [|exact H1|exact H2].
    intros k v v1 v2. unfold converts, str_in. simpl. rewrite orb_false_r.
    destruct (String.eqb k c) eqn:Hk; simpl.
    + apply String.eqb_eq in Hk. subst k. fold (str_in c cs). rewrite Hc.
      intros Hv ->. exact Hv.
    + intros ->. auto.
Qed.

Lemma series_apply_at_total (P : pyval -> Prop) (c : string)
    (f : pyval -> result pyval) (r : series) :
  (forall v, P v -> exists v', f v = Ok v' /\ P v') ->
  Forall (fun kv : string * pyval => P (snd kv)) r ->
  exists r', series_apply_at c f r = Ok r'
             /\ Forall (fun kv : string * pyval => P (snd kv)) r'.
Proof.
  intros Hf. unfold series_apply_at.
  induction 1 as [|[k v] r Hv _ (r' & Hr' & HP)]; simpl.
  - exists []. split; [reflexivity|constructor].
  - destruct (String.eqb k c).
    + destruct (Hf v Hv) as (v' & Hv' & HPv'). rewrite Hv'. simpl. rewrite Hr'. simpl.
      eexists. split; [reflexivity|]. constructor; assumption.
    + simpl. rewrite Hr'. simpl. eexists. split; [reflexivity|].
      constructor; assumption.
Qed.

Lemma convert_row_total (P : pyval -> Prop) (f : pyval -> result pyval)
    (cs : list string) :
  (forall v, P v -> exists v', f v = Ok v' /\ P v') ->
  forall r, Forall (fun kv : string * pyval => P (snd kv)) r ->
            exists r', convert_row f cs r = Ok r'
                       /\ Forall (fun kv : string * pyval => P (snd kv)) r'.
Proof.
  intros Hf. unfold convert_row. induction cs as [|c cs IH]; intros r Hr; simpl.
  - eauto.
  - destruct (series_apply_at_total P c f r Hf Hr) as (r1 & H1 & HP1).
    rewrite H1. simpl. apply IH. exact HP1.
Qed.

Lemma columns_disjoint (k : string) :
  (str_in k TEXT_COLS = true -> str_in k NUM_COLS = false /\ str_in k BOOL_COLS = false)
  /\ (str_in k NUM_COLS = true -> str_in k BOOL_COLS = false).
Proof.
  split; intros Hk; apply str_in_In in Hk; simpl in Hk;
    repeat (destruct Hk as [<-|Hk]; [repeat split; reflexivity|]); destruct Hk.
Qed.

Section NormalRows.

Context `{PyBuiltins}.

Lemma normal_cells (r0 r1 r2 r3 : series) :
  convert_row text_cell TEXT_COLS r0 = Ok r1 ->
  convert_row num_cell NUM_COLS r1 = Ok r2 ->
  convert_row bool_cell BOOL_COLS r2 = Ok r3 ->
  cellwise normal_cell r0 r3.
Proof.
  intros H1 H2 H3.
  apply convert_row_cellwise in H1; [|reflexivity].
  apply convert_row_cellwise in H2; [|reflexivity].
  apply convert_row_cellwise in H3; [|reflexivity].
  assert (H23 : cellwise (fun k v v2 =>
                  exists v1, converts num_cell NUM_COLS k v v1
                             /\ converts bool_cell BOOL_COLS k v1 v2) r1 r3).
  { eapply cellwise_trans; [|exact H2|exact H3]. intros k v v1 v2 Ha Hb. eauto. }
  eapply cellwise_trans; [|exact H1|exact H23].
  intros k v v1 v3 Ht (v2 & Hn & Hb). revert Ht Hn Hb.
  unfold converts, normal_cell.
  destruct (columns_disjoint k) as [Dt Dn].
  destruct (str_in k TEXT_COLS).
  - destruct (Dt eq_refl) as [-> ->]. unfold text_cell.
    intros Ht -> ->. inversion Ht. reflexivity.
  - intros ->. destruct (str_in k NUM_COLS).
    + rewrite (Dn eq_refl). unfold num_cell. intros Hn ->.
      destruct (_to_num v) as [x|e]; simpl in Hn; [|discriminate].
      inversion Hn. eauto.
    + intros ->. destruct (str_in k BOOL_COLS).
      * unfold bool_cell. intros Hb. inversion Hb. reflexivity.
      * auto.
Qed.

Lemma dd_row_inv (b : bool) (r3 n : series) :
  dd_row b r3 = Ok n ->
  exists y, n = series_set "dd_norm" (VFloat y) r3
            /\ (if b then exists x,
                            _safe_get r3 "drawdown_from_52w_high" VNone = VFloat x
                            /\ y = _normalize_drawdown x
                else y = np_nan).
Proof.
  unfold dd_row, dd_cell, as_float. destruct b.
  - destruct (_safe_get r3 "drawdown_from_52w_high" VNone) as [| | |x|];
      simpl; try discriminate.
    intros Heq. inversion Heq. eauto.
  - intros Heq. inversion Heq. eauto.
Qed.

(** A normalised row: the cells of the relabelled row, converted by
    their label, with the normalised drawdown assigned. *)
Lemma normalize_row_inv (labels : list string) (r n : series) :
  normalize_row labels r = Ok n ->
  exists r3 y,
    cellwise normal_cell (relabel labels r) r3
    /\ n = series_set "dd_norm" (VFloat y) r3
    /\ (if str_in "drawdown_from_52w_high" labels
        then exists x, _safe_get r3 "drawdown_from_52w_high" VNone = VFloat x
                       /\ y = _normalize_drawdown x
        else y = np_nan).
Proof.
  unfold normalize_row.
  destruct (convert_row text_cell TEXT_COLS _) as [r1|e] eqn:H1;
    cbn [rbind]; [|discriminate].
  destruct (convert_row num_cell NUM_COLS r1) as [r2|e] eqn:H2;
    cbn [rbind]; [|discriminate].
  destruct (convert_row bool_cell BOOL_COLS r2) as [r3|e] eqn:H3;
    cbn [rbind]; [|discriminate].
  intros Hd. apply dd_row_inv in Hd. destruct Hd as (y & -> & Hy).
  exists r3, y. split; [|auto]. eapply normal_cells; eassumption.
Qed.

Lemma to_num_in_range (v : pyval) :
  int_in_range v = true -> exists x, _to_num v = Ok x.
Proof.
  unfold _to_num, int_in_range. destruct v as [|b|z|x|s]; simpl.
  - eauto.
  - eauto.
  - destruct (Flt.of_Z z); [eauto|discriminate].
  - destruct (PrimFloat.is_nan x); eauto.
  - destruct (float_of_str _); eauto.
Qed.

Lemma normalize_row_total (labels : list string) (r : series) :
  length r = length labels ->
  Forall (fun kv : string * pyval => int_in_range (snd kv) = true) r ->
  exists n, normalize_row labels r = Ok n.
Proof.
  intros Hlen Hr. set (P := fun v => int_in_range v = true).
  assert (H0 : Forall (fun kv : string * pyval => P (snd kv)) (relabel labels r)).
  { unfold relabel. clear Hlen. revert labels.
    induction Hr as [|kv r Hv _ IH]; intros labels; destruct labels; simpl;
      constructor; auto. }
  destruct (convert_row_total P text_cell TEXT_COLS) with (r := relabel labels r)
    as (r1 & H1 & P1); [|exact H0|].
  { intros v _. eexists. split; reflexivity. }
  destruct (convert_row_total P num_cell NUM_COLS) with (r := r1)
    as (r2 & H2 & P2); [|exact P1|].
  { intros v Hv. destruct (to_num_in_range v Hv) as [x Hx].
    unfold num_cell. rewrite Hx. simpl. eexists. split; reflexivity. }
  destruct (convert_row_total P bool_cell BOOL_COLS) with (r := r2)
    as (r3 & H3 & P3); [|exact P2|].
  { intros v _. eexists. split; reflexivity. }
  unfold normalize_row. rewrite H1. cbn [rbind]. rewrite H2. cbn [rbind].
  rewrite H3. cbn [rbind]. unfold dd_row.
  destruct (str_in "drawdown_from_52w_high" labels) eqn:Hdd; [|eauto].
  pose proof (normal_cells _ _ _ _ H1 H2 H3) as Hc.
  pose proof (cellwise_get _ _ _ "drawdown_from_52w_high" Hc) as Hg.
  destruct (series_get "drawdown_from_52w_high" (relabel labels r)) as [v|] eqn:Hv.
  - destruct Hg as (v' & Hv' & Hn). unfold normal_cell in Hn. simpl in Hn.
    destruct Hn as (x & _ & ->). unfold _safe_get. rewrite Hv'. simpl. eauto.
  - exfalso. apply series_get_None in Hv. apply Hv.
    rewrite relabel_labels by exact Hlen. apply str_in_In. exact Hdd.
Qed.

End NormalRows.
(** ** The classifier *)

Ltac in_list := simpl; repeat (first [left; reflexivity | right]).

Section Classifier.

Context `{PyBuiltins}.

Lemma decide_actions (th : thresholds) (cfg : gmap string pyval) (r : series)
    (a rb rs fc : string) :
  decide th cfg r = Ok (a, rb, rs, fc) -> In a ACTIONS.
Proof.
  unfold decide, ACTIONS.
  destruct (sell_signal cfg r) as [[|] rs0].
  { intros Heq. inversion Heq. in_list. }
  destruct (buy_gate th cfg r) as [[[|] rb0]|e]; cbn [rbind]; [| |discriminate].
  - destruct (pd_notna _).
    + destruct (py_float _) as [d|e]; cbn [rbind]; [|discriminate].
      destruct (PrimFloat.leb _ _ && negb _).
      { intros Heq. inversion Heq. in_list. }
      destruct (Str.nonempty _ && ALLOW_SPEC th); intros Heq; inversion Heq; in_list.
    + cbn [rbind].
      destruct (Str.nonempty _ && ALLOW_SPEC th); intros Heq; inversion Heq; in_list.
  - destruct (if py_bool _ then _ else _); intros Heq; inversion Heq; in_list.
Qed.

Lemma buy_gate_floats (th : thresholds) (cfg : gmap string pyval) (r : series)
    (s d : float) :
  _safe_get r "score" (VFloat np_nan) = VFloat s ->
  _safe_get r "dd_norm" (VFloat np_nan) = VFloat d ->
  exists g, buy_gate th cfg r = Ok g.
Proof.
  intros Hs Hd. unfold buy_gate. rewrite Hs, Hd. cbn [py_float].
  destruct (negb (py_bool _)); [eauto|].
  destruct (negb (py_bool _)); [eauto|].
  destruct (pd_notna (VFloat s)), (pd_notna (VFloat d)); cbn [rbind];
    repeat match goal with
           | |- context [if negb ?b then _ else _] => destruct (negb b)
           | |- context [if PrimFloat.ltb ?x ?y then _ else _] =>
               destruct (PrimFloat.ltb x y); cbn [rbind]
           end; eauto;
    destruct (_passes_required r cfg); eauto; destruct (ALLOW_SPEC th); eauto.
Qed.

Lemma decide_floats (th : thresholds) (cfg : gmap string pyval) (r : series)
    (s d : float) :
  _safe_get r "score" (VFloat np_nan) = VFloat s ->
  _safe_get r "dd_norm" (VFloat np_nan) = VFloat d ->
  exists x, decide th cfg r = Ok x.
Proof.
  intros Hs Hd. destruct (buy_gate_floats th cfg r s d Hs Hd) as [[b rb] Hg].
  unfold decide. rewrite Hg, Hd. cbn [rbind py_float].
  destruct (sell_signal cfg r) as [[|] rs]; [eauto|].
  destruct b.
  - destruct (pd_notna (VFloat d)); cbn [rbind].
    + destruct (PrimFloat.leb _ _ && negb _); [eauto|].
      destruct (Str.nonempty _ && ALLOW_SPEC th); eauto.
    + destruct (Str.nonempty _ && ALLOW_SPEC th); eauto.
  - destruct (if py_bool _ then _ else _); eauto.
Qed.

(** The classifier reads a record through the rule columns only. *)
Lemma decide_ext (th : thresholds) (cfg : gmap string pyval) (r r' : series) :
  (forall k, In k RULE_COLS -> series_get k r = series_get k r') ->
  decide th cfg r = decide th cfg r'.
Proof.
  intros Hget.
  assert (Hsafe : forall k d, In k RULE_COLS -> _safe_get r k d = _safe_get r' k d).
  { intros k d Hk. unfold _safe_get. rewrite (Hget k Hk). reflexivity. }
  unfold decide, sell_signal, buy_gate, _passes_required, require_pass, WATCH_COLS.
  cbn [List.filter].
  rewrite !Hsafe by (unfold RULE_COLS; in_list).
  rewrite !(Hget "pass_debt"), !(Hget "pass_interest_cover"), !(Hget "pass_fcf"),
    !(Hget "pass_payout"), !(Hget "pass_roic") by (unfold RULE_COLS; in_list).
  reflexivity.
Qed.

Lemma annotate_row_inv (th : thresholds) (cfg : gmap string pyval) (n q : series) :
  annotate_row th cfg n = Ok q ->
  exists a rb rs fc,
    decide th cfg n = Ok (a, rb, rs, fc)
    /\ q = with_sell_signal
             (with_buy_signal
                (n ++ combine DECIDED_COLUMNS [VStr a; VStr rb; VStr rs; VStr fc])).
Proof.
  unfold annotate_row, decided_cells.
  destruct (decide th cfg n) as [[[[a rb] rs] fc]|e]; cbn [rbind]; [|discriminate].
  intros Heq. inversion Heq. exists a, rb, rs, fc. auto.
Qed.

End Classifier.

(** The cells of an annotated row. *)
Lemma annotated_get (n : series) (a rb rs fc : string) :
  in_index "ACTION" n = false ->
  let q := with_sell_signal
             (with_buy_signal
                (n ++ combine DECIDED_COLUMNS [VStr a; VStr rb; VStr rs; VStr fc])) in
  series_get "ACTION" q = Some (VStr a)
  /\ series_get "BUY_SIGNAL" q = Some (VBool (str_in a ["BUY"; "STRONG BUY"]))
  /\ series_get "SELL_SIGNAL" q = Some (VBool (String.eqb a "REVIEW SELL"))
  /\ (forall k, str_in k ["ACTION"; "REASON_BUY"; "REASON_SELL"; "FAILED_CHECKS";
                          "BUY_SIGNAL"; "SELL_SIGNAL"] = false ->
                series_get k q = series_get k n).
Proof.
  intros Habs q. unfold in_index in Habs.
  destruct (series_get "ACTION" n) as [x|] eqn:Hn; [discriminate|]. clear Habs.
  set (m := n ++ combine DECIDED_COLUMNS [VStr a; VStr rb; VStr rs; VStr fc]) in *.
  assert (Hm : series_get "ACTION" m = Some (VStr a)).
  { unfold m. rewrite series_get_app, Hn. reflexivity. }
  assert (Hb : series_get "ACTION" (with_buy_signal m) = Some (VStr a)).
  { unfold with_buy_signal. rewrite series_get_set. exact Hm. }
  subst q. unfold with_sell_signal. rewrite !series_get_set. cbn.
  unfold _safe_get at 1. rewrite Hb. unfold eq_str.
  split; [reflexivity|]. split; [|split; [reflexivity|]].
  - unfold with_buy_signal. rewrite series_get_set. cbn.
    unfold _safe_get. rewrite Hm. reflexivity.
  - intros k Hk. rewrite series_get_set.
    unfold str_in in Hk. simpl in Hk. rewrite !orb_false_iff in Hk.
    destruct Hk as (H1 & H2 & H3 & H4 & H5 & H6 & _).
    rewrite H6. unfold with_buy_signal. rewrite series_get_set, H5.
    unfold m. rewrite series_get_app.
    destruct (series_get k n); [reflexivity|].
    unfold DECIDED_COLUMNS. cbn [combine series_get].
    rewrite (String.eqb_sym _ k), H1, (String.eqb_sym _ k), H2,
      (String.eqb_sym _ k), H3, (String.eqb_sym _ k), H4. reflexivity.
Qed.
(** ** The rows of a sorted frame *)

Lemma insert_row_In (by_ : list string) (x y : series) (l : list series) :
  In y (insert_row by_ x l) <-> y = x \/ In y l.
Proof.
  induction l as [|z l IH]; simpl.
  - split; intros [->|[]]; auto.
  - destruct (lex_before by_ z x); simpl; rewrite ?IH; split; intros Hy;
      intuition congruence.
Qed.

Lemma sort_rows_In (by_ : list string) (y : series) (l : list series) :
  In y (sort_rows by_ l) <-> In y l.
Proof.
  unfold sort_rows. induction l as [|x l IH]; simpl; [tauto|].
  rewrite insert_row_In, IH. split; intros [Hy|Hy]; auto.
Qed.

Lemma insert_row_length (by_ : list string) (x : series) (l : list series) :
  length (insert_row by_ x l) = S (length l).
Proof.
  induction l as [|z l IH]; simpl; [reflexivity|].
  destruct (lex_before by_ z x); simpl; [rewrite IH|]; reflexivity.
Qed.

Lemma sort_rows_length (by_ : list string) (l : list series) :
  length (sort_rows by_ l) = length l.
Proof.
  unfold sort_rows. induction l as [|x l IH]; simpl; [reflexivity|].
  rewrite insert_row_length, IH. reflexivity.
Qed.

(** ** Well-formed inputs *)

Lemma wf_input_inv (df : frame) :
  wf_input df = true ->
  rectangular df = true
  /\ distinct (map Str.strip (columns df)) = true
  /\ (forall c, In c ["ACTION"; "REASON_BUY"; "REASON_SELL"; "FAILED_CHECKS"] ->
                str_in c (map Str.strip (columns df)) = false)
  /\ (forall r, In r (rows df) ->
                length r = length (map Str.strip (columns df))
                /\ Forall (fun kv : string * pyval => int_in_range (snd kv) = true) r).
Proof.
  unfold wf_input. rewrite !andb_true_iff. intros (((Hr & Hd) & Hc) & Hi).
  split; [exact Hr|]. split; [exact Hd|]. split.
  - rewrite forallb_forall in Hc. intros c Hin. apply negb_true_iff. auto.
  - intros r Hin. unfold rectangular in Hr. rewrite forallb_forall in Hr, Hi.
    split.
    + rewrite length_map. apply Nat.eqb_eq. auto.
    + apply Forall_forall. intros kv Hkv. apply list_elem_of_In in Hkv.
      specialize (Hi r Hin). rewrite forallb_forall in Hi. auto.
Qed.

Section WholeCall.

Context `{PyBuiltins}.

Lemma normalize_row_labels (labels : list string) (r n : series) :
  length r = length labels -> normalize_row labels r = Ok n ->
  map fst n = add_label "dd_norm" labels.
Proof.
  intros Hlen Hn. apply normalize_row_inv in Hn.
  destruct Hn as (r3 & y & Hc & -> & _).
  rewrite series_set_labels, (cellwise_labels _ _ _ Hc), relabel_labels by exact Hlen.
  reflexivity.
Qed.

Lemma normalized_floats (labels : list string) (r n : series) :
  normalize_row labels r = Ok n ->
  (exists s, _safe_get n "score" (VFloat np_nan) = VFloat s)
  /\ (exists d, _safe_get n "dd_norm" (VFloat np_nan) = VFloat d).
Proof.
  intros Hn. apply normalize_row_inv in Hn.
  destruct Hn as (r3 & y & Hc & -> & _). unfold _safe_get.
  rewrite !series_get_set. cbn. split; [|eauto].
  pose proof (cellwise_get _ _ _ "score" Hc) as Hg.
  destruct (series_get "score" (relabel labels r)).
  - destruct Hg as (v' & -> & Hv). unfold normal_cell in Hv. simpl in Hv.
    destruct Hv as (x & _ & ->). eauto.
  - rewrite Hg. eauto.
Qed.


Lemma engine_no_rows (df : frame) (cfg : gmap string pyval) (out : frame) :
  rows df = [] -> engine df cfg = Ok out -> rows out = [].
Proof.
  intros Hr. unfold engine.
  destruct (normalized df) as [fr|e] eqn:Hn; cbn [rbind]; [|discriminate].
  apply normalized_rows in Hn; [|unfold rectangular; rewrite Hr; reflexivity].
  destruct Hn as (ns & Hns & ->). rewrite Hr in Hns. simpl in Hns.
  inversion Hns; subst ns. clear Hns.
  destruct (resolve_thresholds cfg) as [th|e]; cbn [rbind]; [|discriminate].
  unfold decided, df_apply_expand, set_columns. cbn [rows columns rbind map].
  destruct (Nat.eqb _ _); cbn [rbind]; [|discriminate].
  unfold signalled, pd_concat, get_col, set_col, has_column.
  cbn [rows columns map combine length rbind].
  destruct (str_in "ACTION" _); cbn [rbind Nat.eqb rows columns map combine length];
    [|discriminate].
  unfold has_column. cbn [columns].
  destruct (str_in "ACTION" _); cbn [rbind Nat.eqb rows columns map combine length];
    [|discriminate].
  unfold ordered, sort_values.
  destruct (has_column "score" _);
    destruct (forallb _ _); intros Heq; inversion Heq; reflexivity.
Qed.

End WholeCall.
(** ** The whole call *)

Lemma sample_run :
  call_compute_actions (H := Plain.builtins) Sample.table ∅ = Ok sample_result.
Proof. vm_compute. reflexivity. Qed.

Section Claims.

Context `{PyBuiltins}.

(** C1: every record of the input gets one row of the output, whose
    [ACTION] cell is one of the six labels, whose [BUY_SIGNAL] cell says
    whether that label is [BUY] or [STRONG BUY], and whose [SELL_SIGNAL]
    cell says whether it is [REVIEW SELL]. *)
Theorem one_action_per_record (df : frame) (cfg : gmap string pyval) (out : frame) :
  wf_input df = true ->
  call_compute_actions df cfg = Ok out ->
  length (rows out) = length (rows df)
  /\ forall q, In q (rows out) ->
       exists a, series_get "ACTION" q = Some (VStr a)
                 /\ In a ACTIONS
                 /\ series_get "BUY_SIGNAL" q
                    = Some (VBool (str_in a ["BUY"; "STRONG BUY"]))
                 /\ series_get "SELL_SIGNAL" q
                    = Some (VBool (String.eqb a "REVIEW SELL")).
Proof.
  intros Hwf Hcall. rewrite call_compute_actions_engine in Hcall.
  destruct (wf_input_inv df Hwf) as (Hrect & _ & Hclash & Hrows).
  destruct (rows df) as [|r0 rest] eqn:Hr.
  { rewrite (engine_no_rows df cfg out Hr Hcall). split; [reflexivity|].
    intros q []. }
  rewrite <- Hr in *.
  apply engine_by_rows in Hcall; [|exact Hrect|rewrite Hr; discriminate].
  destruct Hcall as (th & ns & pre & _ & Hns & Hpre & ->). cbn [rows]. split.
  - rewrite sort_rows_length, (rmapM_length _ _ _ Hpre). eapply rmapM_length; eauto.
  - intros q Hq. apply sort_rows_In in Hq.
    destruct (rmapM_In _ _ _ _ Hpre Hq) as (n & Hn & Hqn).
    destruct (rmapM_In _ _ _ _ Hns Hn) as (r & Hrin & Hnr).
    destruct (Hrows r Hrin) as [Hlen _].
    pose proof (normalize_row_labels _ _ _ Hlen Hnr) as Hlab.
    assert (Habs : in_index "ACTION" n = false).
    { destruct (in_index "ACTION" n) eqn:Hi; [|reflexivity].
      apply in_index_In in Hi. rewrite Hlab in Hi. apply str_in_In in Hi.
      rewrite str_in_add_label in Hi. simpl in Hi.
      rewrite (Hclash "ACTION") in Hi by in_list. discriminate. }
    apply annotate_row_inv in Hqn. destruct Hqn as (a & rb & rs & fc & Hd & ->).
    destruct (annotated_get n a rb rs fc Habs) as (Ha & Hb & Hs & _).
    exists a. split; [exact Ha|]. split; [|split; assumption].
    eapply decide_actions. exact Hd.
Qed.


End Claims.

Lemma one_action_sample :
  length (rows sample_result) = length (rows Sample.table).
Proof.
  apply (one_action_per_record (H := Plain.builtins) Sample.table ∅ sample_result
           eq_refl sample_run).
Defined.


(** ** Configuration fallbacks *)

Lemma cfg_get_default (cfg : gmap string pyval) (k : string) (d : pyval) :
  DEFAULT_CFG !! k = Some d ->
  cfg_get (cfg ∪ DEFAULT_CFG) k d = cfg_get cfg k d.
Proof.
  intros Hd. unfold cfg_get. rewrite lookup_union, Hd.
  destruct (cfg !! k); reflexivity.
Qed.

Lemma passes_required_default (cfg : gmap string pyval) (r : series) :
  _passes_required r (cfg ∪ DEFAULT_CFG) = _passes_required r cfg.
Proof.
  unfold _passes_required, require_pass.
  rewrite !cfg_get_default by (vm_compute; reflexivity). reflexivity.
Qed.

Section Fallbacks.

Context `{PyBuiltins}.

Lemma resolve_thresholds_default (cfg : gmap string pyval) :
  resolve_thresholds (cfg ∪ DEFAULT_CFG) = resolve_thresholds cfg.
Proof.
  unfold resolve_thresholds.
  rewrite !cfg_get_default by (vm_compute; reflexivity). reflexivity.
Qed.

Lemma decide_default (th : thresholds) (cfg : gmap string pyval) (r : series) :
  decide th (cfg ∪ DEFAULT_CFG) r = decide th cfg r.
Proof.
  unfold decide, sell_signal, buy_gate. rewrite !passes_required_default.
  reflexivity.
Qed.

Lemma engine_default (df : frame) (cfg : gmap string pyval) :
  engine df (cfg ∪ DEFAULT_CFG) = engine df cfg.
Proof.
  unfold engine. rewrite resolve_thresholds_default.
  destruct (normalized df) as [fr|e]; cbn [rbind]; [|reflexivity].
  destruct (resolve_thresholds cfg) as [th|e]; cbn [rbind]; [|reflexivity].
  assert (Hd : decided th (cfg ∪ DEFAULT_CFG) fr = decided th cfg fr).
  { unfold decided, df_apply_expand. destruct (rows fr) as [|r0 rest]; [reflexivity|].
    rewrite (rmapM_ext _ (fun r => let? x := decide th cfg r in Ok (decision_cells x)));
      [reflexivity|].
    intros r _. rewrite decide_default. reflexivity. }
  rewrite Hd. reflexivity.
Qed.

(** C10: a key that the configuration omits is read as its fallback, so
    a call with a configuration equals the call with the configuration
    completed by the nine fallbacks, and a call with the empty
    configuration equals the call with the nine fallbacks themselves:
    70, -0.20, -0.30 and speculative entries allowed; debt, interest and
    cash-flow checks required, ROIC and payout checks not. *)
Theorem missing_keys_fall_back (df : frame) (cfg : gmap string pyval) :
  call_compute_actions df cfg = call_compute_actions df (cfg ∪ DEFAULT_CFG)
  /\ call_compute_actions df ∅ = call_compute_actions df DEFAULT_CFG
  /\ resolve_thresholds ∅
     = Ok (Thresholds 70%float (-0.20)%float (-0.30)%float true)
  /\ (forall r, _passes_required r ∅ = _passes_required r DEFAULT_CFG)
  /\ DEFAULT_CFG !! "REQUIRE_PASS_DEBT" = Some (VBool true)
  /\ DEFAULT_CFG !! "REQUIRE_PASS_INTEREST" = Some (VBool true)
  /\ DEFAULT_CFG !! "REQUIRE_PASS_FCF" = Some (VBool true)
  /\ DEFAULT_CFG !! "REQUIRE_PASS_ROIC" = Some (VBool false)
  /\ DEFAULT_CFG !! "REQUIRE_PASS_PAYOUT" = Some (VBool false).
Proof.
  split; [|split; [|split; [|split]]].
  - rewrite !call_compute_actions_engine, engine_default. reflexivity.
  - rewrite !call_compute_actions_engine.
    rewrite <- (engine_default df ∅), (left_id_L ∅ (∪)). reflexivity.
  - vm_compute. reflexivity.
  - intros r. rewrite <- (passes_required_default ∅ r), (left_id_L ∅ (∪)).
    reflexivity.
  - repeat split; vm_compute; reflexivity.
Qed.

End Fallbacks.

(** ** Sorting *)

Lemma desc_before_asym (a b : pyval) :
  desc_before a b = true -> desc_before b a = false.
Proof.
  destruct a as [|x|z|x|s], b as [|y|z'|y|s']; simpl; try discriminate.
  - destruct x, y; simpl; congruence.
  - destruct (PrimFloat.is_nan x) eqn:Hx; [discriminate|].
    destruct (PrimFloat.is_nan y) eqn:Hy; [reflexivity|].
    intros Hlt. apply FltFacts.ltb_asym. exact Hlt.
Qed.

Lemma lex_before_asym (by_ : list string) (a b : series) :
  lex_before by_ a b = true -> lex_before by_ b a = false.
Proof.
  induction by_ as [|c by_ IH]; simpl; [discriminate|].
  destruct (desc_before (_safe_get a c VNone) (_safe_get b c VNone)) eqn:Hab.
  - rewrite (desc_before_asym _ _ Hab). simpl. reflexivity.
  - simpl. destruct (desc_before (_safe_get b c VNone) (_safe_get a c VNone));
      simpl; [discriminate|]. exact IH.
Qed.

Lemma insert_row_perm (by_ : list string) (x : series) (l : list series) :
  Permutation (insert_row by_ x l) (x :: l).
Proof.
  induction l as [|y l IH]; simpl; [reflexivity|].
  destruct (lex_before by_ y x); [|reflexivity].
  rewrite IH. apply perm_swap.
Qed.

Lemma sort_rows_perm (by_ : list string) (l : list series) :
  Permutation l (sort_rows by_ l).
Proof.
  unfold sort_rows. induction l as [|x l IH]; simpl; [reflexivity|].
  rewrite insert_row_perm. constructor. exact IH.
Qed.

Lemma insert_row_in_order (by_ : list string) (x : series) (l : list series) :
  in_order by_ l -> in_order by_ (insert_row by_ x l).
Proof.
  unfold in_order. induction l as [|y l IH]; simpl; intros Hs.
  - repeat constructor.
  - destruct (lex_before by_ y x) eqn:Hyx.
    + inversion Hs as [|? ? Hs' Hhd]; subst. constructor; [apply IH; exact Hs'|].
      destruct l as [|z l]; simpl.
      * constructor. apply lex_before_asym. exact Hyx.
      * destruct (lex_before by_ z x).
        -- inversion Hhd; subst. constructor. assumption.
        -- constructor. apply lex_before_asym. exact Hyx.
    + constructor; [exact Hs|]. constructor. exact Hyx.
Qed.

Lemma sort_rows_in_order (by_ : list string) (l : list series) :
  in_order by_ (sort_rows by_ l).
Proof.
  unfold sort_rows. induction l as [|x l IH]; simpl.
  - constructor.
  - apply insert_row_in_order. exact IH.
Qed.

(** A list in order is left as it is. *)
Lemma sort_rows_fixed (by_ : list string) (l : list series) :
  in_order by_ l -> sort_rows by_ l = l.
Proof.
  unfold in_order, sort_rows. induction 1 as [|x l Hs IH Hhd]; simpl; [reflexivity|].
  rewrite IH. destruct Hhd as [|y l' Hyx]; simpl; [reflexivity|].
  rewrite Hyx. reflexivity.
Qed.

(** Stability: a row that came before another one stays before it unless
    the other one has to go strictly first. *)
Lemma insert_row_sublist (by_ : list string) (x : series) (l : list series) :
  l `sublist_of` insert_row by_ x l.
Proof.
  induction l as [|y l IH]; simpl.
  - apply sublist_nil_l.
  - destruct (lex_before by_ y x).
    + apply sublist_skip. exact IH.
    + apply sublist_cons. reflexivity.
Qed.

Lemma insert_row_before (by_ : list string) (x b : series) (l : list series) :
  In b l -> lex_before by_ b x = false ->
  [x; b] `sublist_of` insert_row by_ x l.
Proof.
  induction l as [|y l IH]; simpl; intros Hb Hbx; [destruct Hb|].
  destruct (lex_before by_ y x) eqn:Hyx.
  - destruct Hb as [->|Hb]; [congruence|].
    apply sublist_cons. apply IH; assumption.
  - apply sublist_skip. apply sublist_cons_r.
    destruct Hb as [->|Hb].
    + right. exists []. split; [reflexivity|apply sublist_nil_l].
    + left. apply singleton_sublist_l. apply list_elem_of_In. exact Hb.
Qed.

Lemma sort_rows_stable (by_ : list string) (a b : series) (l : list series) :
  [a; b] `sublist_of` l -> lex_before by_ b a = false ->
  [a; b] `sublist_of` sort_rows by_ l.
Proof.
  intros Hsub Hba. induction l as [|x l IH].
  - apply sublist_nil_r in Hsub. discriminate.
  - change (sort_rows by_ (x :: l)) with (insert_row by_ x (sort_rows by_ l)).
    apply sublist_cons_r in Hsub. destruct Hsub as [Hsub|(l' & Heq & Hsub)].
    + etransitivity; [apply IH; exact Hsub|apply insert_row_sublist].
    + inversion Heq; subst. apply insert_row_before; [|exact Hba].
      apply sort_rows_In. apply list_elem_of_In.
      apply singleton_sublist_l. exact Hsub.
Qed.
Lemma Sorted_weaken {A} (R R' : A -> A -> Prop) (P : A -> Prop) (l : list A) :
  (forall a b, P a -> P b -> R a b -> R' a b) ->
  Forall P l -> Sorted R l -> Sorted R' l.
Proof.
  intros HR HP Hs. induction Hs as [|a l Hs IH Hhd]; [constructor|].
  inversion HP as [|? ? Pa Pl]; subst. constructor; [apply IH; exact Pl|].
  destruct Hhd as [|b l' Hab]; constructor.
  inversion Pl; subst. apply HR; assumption.
Qed.

Lemma lex_before_precedes (labels : list string) (a b : series) :
  keyed (str_in "score" labels) a -> keyed (str_in "score" labels) b ->
  lex_before (sort_keys labels) a b = precedes (str_in "score" labels) a b.
Proof.
  intros ([ba Ha1] & [sa Ha2] & Ha3) ([bb Hb1] & [sb Hb2] & Hb3).
  unfold sort_keys, precedes, buy_of, sell_of, score_of, score_before.
  destruct (str_in "score" labels).
  - destruct (Ha3 eq_refl) as [x Hx]. destruct (Hb3 eq_refl) as [y Hy].
    cbn [lex_before]. unfold _safe_get.
    rewrite Ha1, Ha2, Hb1, Hb2, Hx, Hy. cbn [desc_before py_bool].
    destruct ba, bb, sa, sb; cbn; try reflexivity;
      destruct (PrimFloat.is_nan x), (PrimFloat.is_nan y),
        (PrimFloat.ltb y x), (PrimFloat.ltb x y); reflexivity.
  - cbn [lex_before]. unfold _safe_get.
    rewrite Ha1, Ha2, Hb1, Hb2. cbn [desc_before py_bool].
    destruct ba, bb, sa, sb; reflexivity.
Qed.

Lemma Forall2_In_r {A B} (R : A -> B -> Prop) (l : list A) (l' : list B) (b : B) :
  Forall2 R l l' -> In b l' -> exists a, In a l /\ R a b.
Proof.
  induction 1 as [|a b' l l' Hab _ IH]; simpl; [intros []|].
  intros [<-|Hb]; [eauto|]. destruct (IH Hb) as (a' & Ha' & HR). eauto.
Qed.

Lemma buy_first (ws : bool) (l : list series) :
  Sorted (fun a b => precedes ws b a = false) l ->
  forall l1 a l2 b l3, l = l1 ++ a :: l2 ++ b :: l3 ->
                       buy_of a = false -> buy_of b = false.
Proof.
  intros Hs.
  assert (Hss : StronglySorted (fun a b => buy_of a = false -> buy_of b = false) l).
  { apply Sorted_StronglySorted.
    - intros x y z Hxy Hyz Hx. auto.
    - eapply (Sorted_weaken _ _ (fun _ => True)); [|apply Forall_forall; auto|exact Hs].
      intros a b _ _ Hp Ha. unfold precedes in Hp. rewrite Ha in Hp.
      destruct (buy_of b); [discriminate|reflexivity]. }
  clear Hs. intros l1 a l2 b l3 ->. induction l1 as [|x l1 IH]; simpl in Hss.
  - inversion Hss as [|? ? _ Hall]; subst. rewrite Forall_forall in Hall.
    apply Hall. apply list_elem_of_In. apply in_or_app. right. left. reflexivity.
  - inversion Hss as [|? ? Hss' _]; subst. apply IH. exact Hss'.
Qed.

Section Order.

Context `{PyBuiltins}.

Lemma classified_keyed (cfg : gmap string pyval) (df : frame) (r q : series) :
  wf_input df = true -> In r (rows df) ->
  classified cfg (map Str.strip (columns df)) r q ->
  keyed (str_in "score" (map Str.strip (columns df))) q.
Proof.
  intros Hwf Hr (th & n & _ & Hn & Hq).
  destruct (wf_input_inv df Hwf) as (_ & _ & Hclash & Hrows).
  destruct (Hrows r Hr) as [Hlen _].
  pose proof (normalize_row_labels _ _ _ Hlen Hn) as Hlab.
  assert (Habs : in_index "ACTION" n = false).
  { destruct (in_index "ACTION" n) eqn:Hi; [|reflexivity].
    apply in_index_In in Hi. rewrite Hlab in Hi. apply str_in_In in Hi.
    rewrite str_in_add_label in Hi. simpl in Hi.
    rewrite (Hclash "ACTION") in Hi by in_list. discriminate. }
  apply annotate_row_inv in Hq. destruct Hq as (a & rb & rs & fc & _ & ->).
  destruct (annotated_get n a rb rs fc Habs) as (_ & Hb & Hs & Hk).
  split; [eauto|]. split; [eauto|]. intros Hsc.
  rewrite (Hk "score") by reflexivity.
  apply normalize_row_inv in Hn. destruct Hn as (r3 & y & Hc & -> & _).
  rewrite series_get_set. cbn.
  pose proof (cellwise_get _ _ _ "score" Hc) as Hg.
  destruct (series_get "score" (relabel (map Str.strip (columns df)) r)) eqn:Hv.
  - destruct Hg as (v' & -> & Hv'). unfold normal_cell in Hv'. simpl in Hv'.
    destruct Hv' as (x & _ & ->). eauto.
  - exfalso. apply series_get_None in Hv. apply Hv.
    rewrite relabel_labels by exact Hlen. apply str_in_In. exact Hsc.
Qed.

(** C5: the rows of the output are the classified records, reordered;
    no row has to go strictly before its predecessor, where a row goes
    first on a true buy signal, then on a true sell signal, then, when
    the score column is there, on a larger score with not-a-number last;
    two records keep their input order unless the later one has to go
    strictly first; so no row with a true buy signal comes after a row
    with a false one. *)
Theorem output_sorted (df : frame) (cfg : gmap string pyval) (out : frame) :
  wf_input df = true ->
  call_compute_actions df cfg = Ok out ->
  exists pre,
    Forall2 (classified cfg (map Str.strip (columns df))) (rows df) pre
    /\ Permutation pre (rows out)
    /\ Forall (keyed (has_column "score" out)) (rows out)
    /\ Sorted (fun a b => precedes (has_column "score" out) b a = false) (rows out)
    /\ (forall a b, [a; b] `sublist_of` pre ->
                    precedes (has_column "score" out) b a = false ->
                    [a; b] `sublist_of` rows out)
    /\ (forall l1 a l2 b l3, rows out = l1 ++ a :: l2 ++ b :: l3 ->
                             buy_of a = false -> buy_of b = false).
Proof.
  intros Hwf Hcall. rewrite call_compute_actions_engine in Hcall.
  destruct (wf_input_inv df Hwf) as (Hrect & _ & _ & _).
  destruct (rows df) as [|r0 rest] eqn:Hr.
  { rewrite (engine_no_rows df cfg out Hr Hcall). exists [].
    split; [constructor|]. split; [reflexivity|]. split; [constructor|].
    split; [constructor|]. split.
    - intros a b Hsub. apply sublist_nil_r in Hsub. discriminate.
    - intros [|? ?] ? ? ? ? Heq; discriminate. }
  rewrite <- Hr in *.
  apply engine_by_rows in Hcall; [|exact Hrect|rewrite Hr; discriminate].
  destruct Hcall as (th & ns & pre & Hth & Hns & Hpre & ->).
  set (labels := map Str.strip (columns df)) in *.
  assert (Hws : has_column "score" (Frame (out_columns labels)
                  (sort_rows (sort_keys labels) pre)) = str_in "score" labels).
  { unfold has_column, out_columns. cbn [columns].
    rewrite !str_in_add_label, !str_in_app, !str_in_add_label. cbn.
    rewrite !orb_false_r. reflexivity. }
  rewrite Hws. cbn [rows].
  assert (Hcl : Forall2 (classified cfg labels) (rows df) pre).
  { assert (Hb : rmapM (fun r => let? n := normalize_row labels r in
                                 annotate_row th cfg n) (rows df) = Ok pre).
    { apply rmapM_bind. eauto. }
    apply rmapM_Forall2 in Hb. eapply Forall2_impl; [exact Hb|].
    intros r q. unfold classified.
    destruct (normalize_row labels r) as [n|e]; cbn [rbind]; [|discriminate].
    intros Hrq. exists th, n. auto. }
  assert (Hkeyed : forall q, In q pre -> keyed (str_in "score" labels) q).
  { intros q Hq. destruct (Forall2_In_r _ _ _ _ Hcl Hq) as (r & Hrin & Hrq).
    eapply classified_keyed; eassumption. }
  assert (Hsorted : forall q, In q (sort_rows (sort_keys labels) pre) ->
                              keyed (str_in "score" labels) q).
  { intros q Hq. apply Hkeyed. apply sort_rows_In in Hq. exact Hq. }
  exists pre. split; [exact Hcl|]. split; [apply sort_rows_perm|].
  split; [apply Forall_forall; intros q Hq; apply Hsorted;
          apply list_elem_of_In; exact Hq|].
  assert (Hord : Sorted (fun a b => precedes (str_in "score" labels) b a = false)
                   (sort_rows (sort_keys labels) pre)).
  { eapply (Sorted_weaken _ _ (keyed (str_in "score" labels)));
      [|apply Forall_forall; intros q Hq; apply Hsorted; apply list_elem_of_In;
        exact Hq
       |apply sort_rows_in_order].
    intros a b Ka Kb Hab. rewrite <- lex_before_precedes by assumption. exact Hab. }
  split; [exact Hord|]. split.
  - intros a b Hsub Hp. apply sort_rows_stable; [exact Hsub|].
    assert (Ha : In a pre).
    { apply list_elem_of_In. eapply elem_of_sublist; [|exact Hsub]. left. }
    assert (Hb : In b pre).
    { apply list_elem_of_In. eapply elem_of_sublist; [|exact Hsub]. right. left. }
    rewrite lex_before_precedes by auto. exact Hp.
  - apply (buy_first _ _ Hord).
Qed.

End Order.

Lemma output_sorted_sample :
  Sorted (fun a b => precedes (has_column "score" sample_result) b a = false)
    (rows sample_result).
Proof.
  destruct (output_sorted (H := Plain.builtins) Sample.table ∅ sample_result
              eq_refl sample_run) as (pre & _ & _ & _ & Hs & _).
  exact Hs.
Defined.

(** * Further properties of the engine and of the script *)

(** ** The decision table *)

Lemma sell_signal_rule (cfg : gmap string pyval) (r : series) :
  sell_signal cfg r
  = if sell_rule cfg r
    then (true, if quality_false r then "QUALITY_PASS=FALSE"
                else Str.join " / " (failed_checks cfg r))
    else (false, "").
Proof.
  unfold sell_signal, sell_rule, quality_false, _safe_get.
  rewrite passes_required_failed_checks.
  destruct (series_get "QUALITY_PASS" r) as [v|]; cbn [py_bool negb orb].
  - destruct (py_bool v); cbn [negb orb]; [|reflexivity].
    destruct (failed_checks cfg r); reflexivity.
  - destruct (failed_checks cfg r); reflexivity.
Qed.

Section DecisionTable.

Context `{PyBuiltins}.

Lemma leb_nan_r (x y : float) : PrimFloat.is_nan y = true -> PrimFloat.leb x y = false.
Proof.
  intros Hy. destruct (PrimFloat.leb x y) eqn:Hl; [|reflexivity].
  apply FltFacts.leb_not_nan in Hl. destruct Hl as [_ Hl]. congruence.
Qed.

Lemma ltb_nan_r (x y : float) : PrimFloat.is_nan y = true -> PrimFloat.ltb x y = false.
Proof.
  intros Hy. destruct (PrimFloat.ltb x y) eqn:Hl; [|reflexivity].
  apply FltFacts.ltb_not_nan in Hl. destruct Hl as [_ Hl]. congruence.
Qed.

Lemma leb_nan_l (x y : float) : PrimFloat.is_nan x = true -> PrimFloat.leb x y = false.
Proof.
  intros Hx. destruct (PrimFloat.leb x y) eqn:Hl; [|reflexivity].
  apply FltFacts.leb_not_nan in Hl. destruct Hl as [Hl _]. congruence.
Qed.

(** The buy gate of a record that passes the required checks. *)
Lemma buy_gate_rule (th : thresholds) (cfg : gmap string pyval) (r : series)
    (s d : float) :
  _safe_get r "score" (VFloat np_nan) = VFloat s ->
  _safe_get r "dd_norm" (VFloat np_nan) = VFloat d ->
  _passes_required r cfg = [] ->
  exists why, buy_gate th cfg r = Ok (buy_rule th r, why)
              /\ (buy_rule th r = true -> why = "ENTRY_OK").
Proof.
  intros Hs Hd Hreq. unfold buy_gate, buy_rule, flag_of, score_of, dd_of.
  rewrite Hs, Hd, Hreq. unfold pd_notna. cbn [py_float pd_isna].
  destruct (py_bool (_safe_get r "ENTRY_PERMITTED" (VBool false)));
    cbn [negb andb]; [|eexists; split; [reflexivity|discriminate]].
  destruct (py_bool (_safe_get r "QUALITY_PASS" (VBool false)));
    cbn [negb andb]; [|eexists; split; [reflexivity|discriminate]].
  destruct (PrimFloat.is_nan s) eqn:Hns; cbn [negb rbind] in *.
  - rewrite (leb_nan_r _ _ Hns). rewrite orb_false_r.
    destruct (py_bool (_safe_get r "BUY_CANDIDATE" (VBool false)));
      cbn [negb andb orb]; [|eexists; split; [reflexivity|discriminate]].
    destruct (PrimFloat.is_nan d) eqn:Hnd; cbn [negb rbind].
    + rewrite (ltb_nan_r _ _ Hnd). cbn [negb]. eexists; split; reflexivity.
    + destruct (PrimFloat.ltb (DD_BUY th) d); cbn [negb rbind];
        eexists; split; first [reflexivity|discriminate].
  - destruct (py_bool (_safe_get r "BUY_CANDIDATE" (VBool false))
              || PrimFloat.leb (SCORE_BUY_MIN th) s);
      cbn [negb andb orb]; [|eexists; split; [reflexivity|discriminate]].
    destruct (PrimFloat.is_nan d) eqn:Hnd; cbn [negb rbind].
    + rewrite (ltb_nan_r _ _ Hnd). cbn [negb]. eexists; split; reflexivity.
    + destruct (PrimFloat.ltb (DD_BUY th) d); cbn [negb rbind];
        eexists; split; first [reflexivity|discriminate].
Qed.

(** On a record whose score and normalised drawdown are floats, or are
    not there, the classifier answers the decision table. *)
Lemma decide_verdict (th : thresholds) (cfg : gmap string pyval) (r : series)
    (s d : float) :
  _safe_get r "score" (VFloat np_nan) = VFloat s ->
  _safe_get r "dd_norm" (VFloat np_nan) = VFloat d ->
  decide th cfg r = Ok (verdict th cfg r).
Proof.
  intros Hs Hd. unfold decide, verdict. rewrite sell_signal_rule.
  destruct (sell_rule cfg r) eqn:Hsell; [reflexivity|].
  assert (Hreq : _passes_required r cfg = []).
  { rewrite passes_required_failed_checks. unfold sell_rule in Hsell.
    apply orb_false_iff in Hsell. destruct Hsell as [_ Hf].
    destruct (failed_checks cfg r); [reflexivity|discriminate]. }
  destruct (buy_gate_rule th cfg r s d Hs Hd Hreq) as (why & Hg & Hwhy).
  rewrite Hg. cbn [rbind].
  destruct (buy_rule th r) eqn:Hbuy.
  - rewrite (Hwhy eq_refl). rewrite Hd.
    change (Str.startswith "ENTRY_OK_WITH_FLAGS:" "ENTRY_OK") with false.
    unfold pd_notna. cbn [Str.nonempty andb negb pd_isna py_float].
    unfold dd_of. rewrite Hd.
    destruct (PrimFloat.is_nan d) eqn:Hnd; cbn [negb rbind].
    + rewrite (leb_nan_l _ _ Hnd). reflexivity.
    + rewrite andb_true_r. destruct (PrimFloat.leb d (DD_STRONG th)); reflexivity.
  - unfold flag_of, watch_list.
    destruct (py_bool (_safe_get r "ENTRY_PERMITTED" (VBool false))); [|reflexivity].
    destruct (List.filter _ WATCH_COLS); reflexivity.
Qed.

End DecisionTable.

(** ** The rows of the output *)

Lemma annotated_reasons (n : series) (a rb rs fc : string) :
  (forall c, In c DECIDED_COLUMNS -> in_index c n = false) ->
  let q := with_sell_signal
             (with_buy_signal
                (n ++ combine DECIDED_COLUMNS [VStr a; VStr rb; VStr rs; VStr fc])) in
  series_get "REASON_BUY" q = Some (VStr rb)
  /\ series_get "REASON_SELL" q = Some (VStr rs)
  /\ series_get "FAILED_CHECKS" q = Some (VStr fc).
Proof.
  intros Habs q. subst q. unfold with_sell_signal, with_buy_signal.
  rewrite !series_get_set. cbn [String.eqb Ascii.eqb Bool.eqb].
  rewrite !series_get_app.
  assert (Hn : forall c, In c DECIDED_COLUMNS -> series_get c n = None).
  { intros c Hc. specialize (Habs c Hc). unfold in_index in Habs.
    destruct (series_get c n); [discriminate|reflexivity]. }
  rewrite !Hn by in_list. repeat split; reflexivity.
Qed.

Section OutputRows.

Context `{PyBuiltins}.

(** Every row of the output is a normalised record of the input with
    the cells of its decision. *)
Lemma output_rows (df : frame) (cfg : gmap string pyval) (out : frame) :
  wf_input df = true ->
  call_compute_actions df cfg = Ok out ->
  forall q, In q (rows out) ->
  exists th r n a rb rs fc,
    resolve_thresholds cfg = Ok th
    /\ In r (rows df)
    /\ normalize_row (map Str.strip (columns df)) r = Ok n
    /\ decide th cfg n = Ok (a, rb, rs, fc)
    /\ q = with_sell_signal
             (with_buy_signal
                (n ++ combine DECIDED_COLUMNS [VStr a; VStr rb; VStr rs; VStr fc]))
    /\ (forall c, In c DECIDED_COLUMNS -> in_index c n = false)
    /\ map fst n = add_label "dd_norm" (map Str.strip (columns df)).
Proof.
  intros Hwf Hcall q Hq. rewrite call_compute_actions_engine in Hcall.
  destruct (wf_input_inv df Hwf) as (Hrect & _ & Hclash & Hrows).
  destruct (rows df) as [|r0 rest] eqn:Hr.
  { rewrite (engine_no_rows df cfg out Hr Hcall) in Hq. destruct Hq. }
  rewrite <- Hr in *.
  apply engine_by_rows in Hcall; [|exact Hrect|rewrite Hr; discriminate].
  destruct Hcall as (th & ns & pre & Hth & Hns & Hpre & ->). cbn [rows] in Hq.
  apply sort_rows_In in Hq.
  destruct (rmapM_In _ _ _ _ Hpre Hq) as (n & Hn & Hqn).
  destruct (rmapM_In _ _ _ _ Hns Hn) as (r & Hrin & Hnr).
  destruct (Hrows r Hrin) as [Hlen _].
  pose proof (normalize_row_labels _ _ _ Hlen Hnr) as Hlab.
  apply annotate_row_inv in Hqn. destruct Hqn as (a & rb & rs & fc & Hd & ->).
  exists th, r, n, a, rb, rs, fc. repeat (split; [assumption || reflexivity|]).
  split; [|exact Hlab].
  intros c Hc. destruct (in_index c n) eqn:Hi; [|reflexivity].
  apply in_index_In in Hi. rewrite Hlab in Hi. apply str_in_In in Hi.
  rewrite str_in_add_label in Hi. rewrite (Hclash c Hc), orb_false_r in Hi.
  simpl in Hc. destruct Hc as [<-|[<-|[<-|[<-|[]]]]]; discriminate.
Qed.

(** The cells of an output row are those of the decision table on the
    row itself. *)
Lemma output_row_verdict (df : frame) (cfg : gmap string pyval) (out : frame) :
  wf_input df = true ->
  call_compute_actions df cfg = Ok out ->
  forall q, In q (rows out) ->
  exists th a rb rs fc,
    resolve_thresholds cfg = Ok th
    /\ verdict th cfg q = (a, rb, rs, fc)
    /\ series_get "ACTION" q = Some (VStr a)
    /\ series_get "REASON_BUY" q = Some (VStr rb)
    /\ series_get "REASON_SELL" q = Some (VStr rs)
    /\ series_get "FAILED_CHECKS" q = Some (VStr fc)
    /\ series_get "BUY_SIGNAL" q = Some (VBool (str_in a ["BUY"; "STRONG BUY"]))
    /\ series_get "SELL_SIGNAL" q = Some (VBool (String.eqb a "REVIEW SELL")).
Proof.
  intros Hwf Hcall q Hq.
  destruct (output_rows df cfg out Hwf Hcall q Hq)
    as (th & r & n & a & rb & rs & fc & Hth & _ & Hn & Hd & Hqn & Habs & _).
  destruct (annotated_get n a rb rs fc (Habs "ACTION" ltac:(in_list)))
    as (Ha & Hb & Hs & Hrest).
  destruct (annotated_reasons n a rb rs fc Habs) as (Hrb & Hrs & Hfc).
  cbv zeta in Ha, Hb, Hs, Hrest, Hrb, Hrs, Hfc. rewrite <- Hqn in *.
  destruct (normalized_floats _ _ _ Hn) as [[s Hsc] [d Hdd]].
  assert (Hsame : forall k, In k RULE_COLS -> series_get k q = series_get k n).
  { intros k Hk. apply Hrest. simpl in Hk.
    repeat (destruct Hk as [<-|Hk]; [reflexivity|]). destruct Hk. }
  assert (Hsc' : _safe_get q "score" (VFloat np_nan) = VFloat s).
  { unfold _safe_get in *. rewrite Hsame by in_list. exact Hsc. }
  assert (Hdd' : _safe_get q "dd_norm" (VFloat np_nan) = VFloat d).
  { unfold _safe_get in *. rewrite Hsame by in_list. exact Hdd. }
  pose proof (decide_verdict th cfg q s d Hsc' Hdd') as Hv.
  rewrite (decide_ext th cfg q n Hsame), Hd in Hv.
  assert (Hv' : verdict th cfg q = (a, rb, rs, fc)) by congruence.
  exists th, a, rb, rs, fc. repeat (split; [assumption|]). assumption.
Qed.

End OutputRows.

Section Unreachable.

Context `{PyBuiltins}.

Lemma buy_gate_entry_ok (th : thresholds) (cfg : gmap string pyval) (r : series)
    (rb : string) :
  _passes_required r cfg = [] -> buy_gate th cfg r = Ok (true, rb) -> rb = "ENTRY_OK".
Proof.
  unfold buy_gate. intros ->.
  destruct (negb (py_bool (_safe_get r "ENTRY_PERMITTED" (VBool false))));
    [discriminate|].
  destruct (negb (py_bool (_safe_get r "QUALITY_PASS" (VBool false))));
    [discriminate|].
  destruct (if pd_notna (_safe_get r "score" (VFloat np_nan)) then _ else _)
    as [ok|e]; cbn [rbind]; [|discriminate].
  destruct (negb _); [discriminate|].
  destruct (if pd_notna (_safe_get r "dd_norm" (VFloat np_nan)) then _ else _)
    as [[|]|e]; cbn [rbind]; [|congruence|discriminate].
  destruct (py_float _); cbn [rbind]; discriminate.
Qed.

(** X1: whatever the record, the thresholds and the configuration, the
    classifier answers one of five labels, never [SPECULATIVE / WATCH]:
    a record with a failed required check raises the sell signal before
    the buy gate is asked, so the gate never passes it with flags.  The
    buy reason it reports is [ENTRY_OK] on a buy label and empty
    otherwise, and the failed checks it reports repeat the sell reason. *)
Theorem speculative_watch_unreachable (th : thresholds) (cfg : gmap string pyval) (r : series)
    (a rb rs fc : string) :
  decide th cfg r = Ok (a, rb, rs, fc) ->
  In a REACHED_ACTIONS
  /\ rb = (if str_in a ["BUY"; "STRONG BUY"] then "ENTRY_OK" else "")
  /\ fc = rs.
Proof.
  unfold decide. rewrite sell_signal_rule.
  destruct (sell_rule cfg r) eqn:Hsell.
  { intros [= <- <- <- <-]. split; [in_list|]. split; reflexivity. }
  assert (Hreq : _passes_required r cfg = []).
  { rewrite passes_required_failed_checks. unfold sell_rule in Hsell.
    apply orb_false_iff in Hsell. destruct Hsell as [_ Hf].
    destruct (failed_checks cfg r); [reflexivity|discriminate]. }
  destruct (buy_gate th cfg r) as [[[|] why]|e] eqn:Hg; cbn [rbind]; [| |discriminate].
  - rewrite (buy_gate_entry_ok th cfg r why Hreq Hg).
    change (Str.startswith "ENTRY_OK_WITH_FLAGS:" "ENTRY_OK") with false.
    cbn [Str.nonempty andb negb].
    destruct (if pd_notna _ then _ else _) as [[|]|e]; cbn [rbind];
      [| |discriminate]; intros [= <- <- <- <-];
      (split; [in_list|split; reflexivity]).
  - destruct (if py_bool _ then _ else _); intros [= <- <- <- <-];
      (split; [in_list|split; reflexivity]).
Qed.

End Unreachable.

Lemma join_nonempty (sep x : string) (l : list string) :
  x <> "" -> Str.join sep (x :: l) <> "".
Proof.
  intros Hx. unfold Str.join. simpl. destruct x as [|c x]; [congruence|].
  destruct l; simpl; discriminate.
Qed.

Lemma failed_checks_names (cfg : gmap string pyval) (r : series) (x : string) :
  In x (failed_checks cfg r) -> In x (map snd REQUIRED_CHECKS).
Proof.
  unfold failed_checks. rewrite !in_map_iff. intros (chk & <- & Hin).
  apply filter_In in Hin. destruct Hin as [Hin _]. eauto.
Qed.

Lemma failed_checks_reason (cfg : gmap string pyval) (r : series)
    (x : string) (l : list string) :
  failed_checks cfg r = x :: l -> Str.join " / " (x :: l) <> "".
Proof.
  intros Hf. apply join_nonempty. assert (Hx : In x (map snd REQUIRED_CHECKS)).
  { apply (failed_checks_names cfg r). rewrite Hf. left. reflexivity. }
  simpl in Hx. repeat (destruct Hx as [<-|Hx]; [discriminate|]). destruct Hx.
Qed.

Lemma watch_list_reason (q : series) (x : string) (l : list string) :
  watch_list q = x :: l -> Str.join " / " (x :: l) <> "".
Proof.
  intros Hf. apply join_nonempty. assert (Hx : In x WATCH_COLS).
  { assert (Hin : In x (watch_list q)) by (rewrite Hf; left; reflexivity).
    unfold watch_list in Hin. apply filter_In in Hin. tauto. }
  simpl in Hx. repeat (destruct Hx as [<-|Hx]; [discriminate|]). destruct Hx.
Qed.

(** A pass flag on the watch list of a record that raises no sell
    signal belongs to a check that the configuration does not require. *)
Lemma watch_list_not_required (cfg : gmap string pyval) (q : series)
    (toggle : string) (dflt : bool) (flag : string) :
  sell_rule cfg q = false ->
  In (toggle, dflt, flag) REQUIRED_CHECKS -> In flag (watch_list q) ->
  py_bool (cfg_get cfg toggle (VBool dflt)) = false.
Proof.
  intros Hsell Hchk Hw. unfold sell_rule in Hsell. apply orb_false_iff in Hsell.
  destruct Hsell as [_ Hf]. unfold failed_checks in Hf.
  destruct (List.filter (check_fails cfg q) REQUIRED_CHECKS) as [|y l] eqn:Hfl;
    [|discriminate].
  assert (Hc : check_fails cfg q (toggle, dflt, flag) = false).
  { destruct (check_fails cfg q (toggle, dflt, flag)) eqn:Hc; [|reflexivity].
    assert (Hin : In (toggle, dflt, flag) (List.filter (check_fails cfg q) REQUIRED_CHECKS))
      by (apply filter_In; auto).
    rewrite Hfl in Hin. destruct Hin. }
  unfold watch_list in Hw. apply filter_In in Hw. destruct Hw as [_ Hw].
  unfold check_fails, _safe_get in Hc.
  destruct (series_get flag q) as [v|]; [|discriminate].
  rewrite Hw, andb_true_r in Hc. exact Hc.
Qed.

Section RowRules.

Context `{PyBuiltins}.

(** X2: in every row of the output the action is one of the five labels
    the classifier reaches; [REASON_BUY] is [ENTRY_OK] on a buy label and
    empty otherwise, so the reason for which the buy gate rejects a
    record is never reported; [FAILED_CHECKS] repeats [REASON_SELL]; and
    [REASON_SELL] is empty exactly on the labels [STRONG BUY], [BUY] and
    [HOLD]. *)
Theorem reason_columns (df : frame) (cfg : gmap string pyval) (out : frame) :
  wf_input df = true ->
  call_compute_actions df cfg = Ok out ->
  forall q, In q (rows out) ->
  exists a rb rs,
    series_get "ACTION" q = Some (VStr a)
    /\ series_get "REASON_BUY" q = Some (VStr rb)
    /\ series_get "REASON_SELL" q = Some (VStr rs)
    /\ series_get "FAILED_CHECKS" q = Some (VStr rs)
    /\ In a REACHED_ACTIONS
    /\ rb = (if str_in a ["BUY"; "STRONG BUY"] then "ENTRY_OK" else "")
    /\ (rs = "" <-> In a ["STRONG BUY"; "BUY"; "HOLD"]).
Proof.
  intros Hwf Hcall q Hq.
  destruct (output_row_verdict df cfg out Hwf Hcall q Hq)
    as (th & a & rb & rs & fc & _ & Hv & Ha & Hrb & Hrs & Hfc & _).
  assert (Hgoal : fc = rs /\ In a REACHED_ACTIONS
                  /\ rb = (if str_in a ["BUY"; "STRONG BUY"] then "ENTRY_OK" else "")
                  /\ (rs = "" <-> In a ["STRONG BUY"; "BUY"; "HOLD"])).
  { unfold verdict in Hv. destruct (sell_rule cfg q) eqn:Hsell.
    - unfold sell_rule in Hsell.
      destruct (quality_false q); cbn [orb] in Hsell.
      + inversion Hv; subst. split; [reflexivity|]. split; [in_list|].
        split; [reflexivity|]. split; [discriminate|].
        simpl. intros [Hx|[Hx|[Hx|[]]]]; discriminate.
      + destruct (failed_checks cfg q) as [|x l] eqn:Hf; [discriminate|].
        inversion Hv; subst. split; [reflexivity|]. split; [in_list|].
        split; [reflexivity|]. split.
        * intros Hempty. exfalso. exact (failed_checks_reason cfg q x l Hf Hempty).
        * simpl. intros [Hx|[Hx|[Hx|[]]]]; discriminate.
    - destruct (buy_rule th q).
      + destruct (PrimFloat.leb (dd_of q) (DD_STRONG th)); inversion Hv; subst;
          (split; [reflexivity|]); (split; [in_list|]); (split; [reflexivity|]);
          (split; [intros _; in_list|reflexivity]).
      + destruct (flag_of "ENTRY_PERMITTED" q).
        * destruct (watch_list q) as [|x l] eqn:Hw.
          -- inversion Hv; subst. split; [reflexivity|]. split; [in_list|].
             split; [reflexivity|]. split; [intros _; in_list|reflexivity].
          -- inversion Hv; subst. split; [reflexivity|]. split; [in_list|].
             split; [reflexivity|]. split.
             ++ intros Hempty. exfalso. exact (watch_list_reason q x l Hw Hempty).
             ++ simpl. intros [Hx|[Hx|[Hx|[]]]]; discriminate.
        * inversion Hv; subst. split; [reflexivity|]. split; [in_list|].
          split; [reflexivity|]. split; [intros _; in_list|reflexivity]. }
  destruct Hgoal as (-> & Hin & Hb & Hiff).
  exists a, rb, rs. auto 10.
Qed.

(** X3: the signals of an output row follow from the cells of the row
    itself.  [SELL_SIGNAL] holds exactly when the quality flag is there
    and false or a required check fails; [BUY_SIGNAL] holds exactly when
    there is no sell signal, entry is permitted, quality passed, the
    record is a candidate or its score reaches the minimum, and its
    normalised drawdown is not above the buy threshold; and the label is
    [STRONG BUY] exactly when, besides, the drawdown is at or below the
    strong threshold.  A missing score or drawdown fails every
    comparison, so a record without a drawdown is never held back by it
    and is never a strong buy. *)
Theorem signal_rules (df : frame) (cfg : gmap string pyval) (out : frame)
    (th : thresholds) :
  wf_input df = true ->
  call_compute_actions df cfg = Ok out ->
  resolve_thresholds cfg = Ok th ->
  forall q, In q (rows out) ->
    series_get "SELL_SIGNAL" q = Some (VBool (sell_rule cfg q))
    /\ series_get "BUY_SIGNAL" q
       = Some (VBool (negb (sell_rule cfg q) && buy_rule th q))
    /\ (series_get "ACTION" q = Some (VStr "STRONG BUY")
        <-> sell_rule cfg q = false /\ buy_rule th q = true
            /\ PrimFloat.leb (dd_of q) (DD_STRONG th) = true)
    /\ (PrimFloat.is_nan (dd_of q) = true ->
        PrimFloat.ltb (DD_BUY th) (dd_of q) = false
        /\ PrimFloat.leb (dd_of q) (DD_STRONG th) = false)
    /\ (PrimFloat.is_nan (score_of q) = true ->
        PrimFloat.leb (SCORE_BUY_MIN th) (score_of q) = false).
Proof.
  intros Hwf Hcall Hth q Hq.
  destruct (output_row_verdict df cfg out Hwf Hcall q Hq)
    as (th' & a & rb & rs & fc & Hth' & Hv & Ha & _ & _ & _ & Hb & Hs).
  assert (th' = th) by congruence. subst th'.
  rewrite Ha, Hb, Hs. unfold verdict in Hv.
  split; [|split; [|split; [|split]]].
  - destruct (sell_rule cfg q); [inversion Hv; reflexivity|].
    destruct (buy_rule th q);
      [destruct (PrimFloat.leb _ _); inversion Hv; reflexivity|].
    destruct (flag_of "ENTRY_PERMITTED" q); [|inversion Hv; reflexivity].
    destruct (watch_list q); inversion Hv; reflexivity.
  - destruct (sell_rule cfg q); [inversion Hv; reflexivity|].
    destruct (buy_rule th q);
      [destruct (PrimFloat.leb _ _); inversion Hv; reflexivity|].
    destruct (flag_of "ENTRY_PERMITTED" q); [|inversion Hv; reflexivity].
    destruct (watch_list q); inversion Hv; reflexivity.
  - destruct (sell_rule cfg q);
      [inversion Hv; split; [discriminate|intros (? & _); discriminate]|].
    destruct (buy_rule th q).
    + destruct (PrimFloat.leb _ _); inversion Hv;
        (split; [intros Heq; try discriminate; auto|intros (_ & _ & ?); congruence]).
    + destruct (flag_of "ENTRY_PERMITTED" q);
        [destruct (watch_list q)|]; inversion Hv;
        (split; [discriminate|intros (_ & ? & _); discriminate]).
  - intros Hn. split; [apply ltb_nan_r|apply leb_nan_l]; exact Hn.
  - intros Hn. apply leb_nan_r. exact Hn.
Qed.

(** X4: an output row is labelled [WATCH] exactly when it raises no
    sell signal, fails the buy rule, has entry permitted and holds a pass
    flag that is false; its [REASON_SELL] then lists those flags in the
    order debt, interest cover, cash flow, payout, ROIC, and each of them
    belongs to a check that the configuration does not require.  It is
    labelled [HOLD] exactly when it raises no sell signal, fails the buy
    rule and has no entry permitted or no false pass flag. *)
Theorem watch_rule (df : frame) (cfg : gmap string pyval) (out : frame)
    (th : thresholds) :
  wf_input df = true ->
  call_compute_actions df cfg = Ok out ->
  resolve_thresholds cfg = Ok th ->
  forall q, In q (rows out) ->
    (series_get "ACTION" q = Some (VStr "WATCH")
     <-> sell_rule cfg q = false /\ buy_rule th q = false
         /\ flag_of "ENTRY_PERMITTED" q = true /\ watch_list q <> [])
    /\ (series_get "ACTION" q = Some (VStr "WATCH") ->
        series_get "REASON_SELL" q = Some (VStr (Str.join " / " (watch_list q)))
        /\ forall toggle dflt flag,
             In (toggle, dflt, flag) REQUIRED_CHECKS -> In flag (watch_list q) ->
             py_bool (cfg_get cfg toggle (VBool dflt)) = false)
    /\ (series_get "ACTION" q = Some (VStr "HOLD")
        <-> sell_rule cfg q = false /\ buy_rule th q = false
            /\ (flag_of "ENTRY_PERMITTED" q = false \/ watch_list q = [])).
Proof.
  intros Hwf Hcall Hth q Hq.
  destruct (output_row_verdict df cfg out Hwf Hcall q Hq)
    as (th' & a & rb & rs & fc & Hth' & Hv & Ha & _ & Hrs & _).
  assert (th' = th) by congruence. subst th'.
  rewrite Ha, Hrs. unfold verdict in Hv.
  destruct (sell_rule cfg q) eqn:Hsell.
  { inversion Hv; subst. split; [|split].
    - split; [discriminate|intros (? & _); discriminate].
    - discriminate.
    - split; [discriminate|intros (? & _); discriminate]. }
  destruct (buy_rule th q) eqn:Hbuy.
  { destruct (PrimFloat.leb _ _); inversion Hv; subst; (split; [|split]);
      try discriminate;
      (split; [discriminate|intros (_ & ? & _); discriminate]). }
  destruct (flag_of "ENTRY_PERMITTED" q) eqn:Hentry.
  - destruct (watch_list q) as [|x l] eqn:Hw; inversion Hv; subst.
    + split; [|split].
      * split; [discriminate|intros (_ & _ & _ & ?); congruence].
      * discriminate.
      * split; auto.
    + split; [|split].
      * split; [intros _|reflexivity]. repeat split; discriminate.
      * intros _. split; [reflexivity|]. intros toggle dflt flag Hchk Hin.
        apply (watch_list_not_required cfg q toggle dflt flag Hsell Hchk).
        rewrite Hw. exact Hin.
      * split; [discriminate|]. intros (_ & _ & [?|?]); discriminate.
  - inversion Hv; subst. split; [|split].
    + split; [discriminate|intros (_ & _ & ? & _); discriminate].
    + discriminate.
    + split; auto.
Qed.

End RowRules.

Lemma speculative_watch_unreachable_run :
  buy_gate (H := Plain.builtins) Sample.defaults ∅ flagged_candidate
  = Ok (true, "ENTRY_OK_WITH_FLAGS:pass_debt")
  /\ In "REVIEW SELL" REACHED_ACTIONS.
Proof.
  split; [vm_compute; reflexivity|].
  apply (speculative_watch_unreachable (H := Plain.builtins) Sample.defaults ∅
           flagged_candidate "REVIEW SELL" "" "pass_debt" "pass_debt").
  vm_compute. reflexivity.
Defined.

Lemma reason_columns_sample :
  List.Forall
    (fun q : list (string * pyval) =>
       exists a rb rs,
         series_get "ACTION" q = Some (VStr a)
         /\ series_get "REASON_BUY" q = Some (VStr rb)
         /\ series_get "REASON_SELL" q = Some (VStr rs)
         /\ series_get "FAILED_CHECKS" q = Some (VStr rs)
         /\ In a REACHED_ACTIONS
         /\ rb = (if str_in a ["BUY"; "STRONG BUY"] then "ENTRY_OK" else "")
         /\ (rs = "" <-> In a ["STRONG BUY"; "BUY"; "HOLD"]))
    (rows sample_result).
Proof.
  apply List.Forall_forall.
  apply (reason_columns (H := Plain.builtins) Sample.table ∅ sample_result
           eq_refl sample_run).
Defined.

Lemma signal_rules_sample :
  List.Forall
    (fun q : list (string * pyval) =>
       series_get "BUY_SIGNAL" q
       = Some (VBool (negb (sell_rule ∅ q) && buy_rule Sample.defaults q)))
    (rows sample_result).
Proof.
  apply List.Forall_forall. intros q Hq.
  apply (signal_rules (H := Plain.builtins) Sample.table ∅ sample_result
           Sample.defaults eq_refl sample_run eq_refl q Hq).
Defined.

Lemma watch_rule_sample :
  List.Forall
    (fun q : list (string * pyval) =>
       series_get "ACTION" q = Some (VStr "HOLD")
       <-> sell_rule ∅ q = false /\ buy_rule Sample.defaults q = false
           /\ (flag_of "ENTRY_PERMITTED" q = false \/ watch_list q = []))
    (rows sample_result).
Proof.
  apply List.Forall_forall. intros q Hq.
  apply (watch_rule (H := Plain.builtins) Sample.table ∅ sample_result
           Sample.defaults eq_refl sample_run eq_refl q Hq).
Defined.

(** ** Trimming *)

Lemma lstrip_starts_clean (s : string) : starts_clean (Str.lstrip s) = true.
Proof.
  induction s as [|a s IH]; [reflexivity|]. simpl.
  destruct (Str.is_space a) eqn:Ha; [exact IH|]. simpl. rewrite Ha. reflexivity.
Qed.

Lemma lstrip_clean (s : string) : starts_clean s = true -> Str.lstrip s = s.
Proof.
  destruct s as [|a s]; [reflexivity|]. simpl. intros Ha.
  apply negb_true_iff in Ha. rewrite Ha. reflexivity.
Qed.

Lemma rstrip_starts_clean (s : string) :
  starts_clean s = true -> starts_clean (Str.rstrip s) = true.
Proof.
  destruct s as [|a s]; [reflexivity|]. simpl. intros Ha.
  apply negb_true_iff in Ha.
  destruct (Str.rstrip s); [rewrite Ha|]; simpl; rewrite Ha; reflexivity.
Qed.

Lemma rstrip_idem (s : string) : Str.rstrip (Str.rstrip s) = Str.rstrip s.
Proof.
  induction s as [|a s IH]; [reflexivity|]. simpl.
  destruct (Str.rstrip s) as [|b t] eqn:Hr.
  - destruct (Str.is_space a) eqn:Ha; [reflexivity|]. simpl. rewrite Ha. reflexivity.
  - change (Str.rstrip (String a (String b t)))
      with (match Str.rstrip (String b t) with
            | EmptyString => if Str.is_space a then EmptyString else String a EmptyString
            | r => String a r
            end).
    rewrite IH. reflexivity.
Qed.

Lemma strip_idem (s : string) : Str.strip (Str.strip s) = Str.strip s.
Proof.
  unfold Str.strip.
  rewrite (lstrip_clean (Str.rstrip (Str.lstrip s)))
    by (apply rstrip_starts_clean, lstrip_starts_clean).
  apply rstrip_idem.
Qed.


(** ** The cells of the output *)

Lemma annotated_cells (n : series) (a rb rs fc : string) (c : string) :
  (forall k, In k DECIDED_COLUMNS -> in_index k n = false) ->
  series_get c
    (with_sell_signal
       (with_buy_signal
          (n ++ combine DECIDED_COLUMNS [VStr a; VStr rb; VStr rs; VStr fc])))
  = if String.eqb c "SELL_SIGNAL" then Some (VBool (String.eqb a "REVIEW SELL"))
    else if String.eqb c "BUY_SIGNAL" then Some (VBool (str_in a ["BUY"; "STRONG BUY"]))
    else if String.eqb c "ACTION" then Some (VStr a)
    else if String.eqb c "REASON_BUY" then Some (VStr rb)
    else if String.eqb c "REASON_SELL" then Some (VStr rs)
    else if String.eqb c "FAILED_CHECKS" then Some (VStr fc)
    else series_get c n.
Proof.
  intros Habs.
  destruct (annotated_get n a rb rs fc (Habs "ACTION" ltac:(in_list)))
    as (Ha & Hb & Hs & Hrest).
  destruct (annotated_reasons n a rb rs fc Habs) as (Hrb & Hrs & Hfc).
  cbv zeta in Ha, Hb, Hs, Hrest, Hrb, Hrs, Hfc.
  destruct (String.eqb_spec c "SELL_SIGNAL") as [->|H1]; [exact Hs|].
  destruct (String.eqb_spec c "BUY_SIGNAL") as [->|H2]; [exact Hb|].
  destruct (String.eqb_spec c "ACTION") as [->|H3]; [exact Ha|].
  destruct (String.eqb_spec c "REASON_BUY") as [->|H4]; [exact Hrb|].
  destruct (String.eqb_spec c "REASON_SELL") as [->|H5]; [exact Hrs|].
  destruct (String.eqb_spec c "FAILED_CHECKS") as [->|H6]; [exact Hfc|].
  apply Hrest. unfold str_in. simpl.
  apply String.eqb_neq in H1, H2, H3, H4, H5, H6.
  rewrite H1, H2, H3, H4, H5, H6. reflexivity.
Qed.

Section OutputCells.

Context `{PyBuiltins}.

(** A classified row holds the converted cells of its record, the
    normalised drawdown and the cells of the decision. *)
Lemma classified_cells (df : frame) (cfg : gmap string pyval) (r q : series) :
  wf_input df = true -> In r (rows df) ->
  classified cfg (map Str.strip (columns df)) r q ->
  exists r3 y a rb rs fc,
    cellwise normal_cell (relabel (map Str.strip (columns df)) r) r3
    /\ map fst r3 = map Str.strip (columns df)
    /\ (if str_in "drawdown_from_52w_high" (map Str.strip (columns df))
        then exists x, series_get "drawdown_from_52w_high" r3 = Some (VFloat x)
                       /\ y = _normalize_drawdown x
        else series_get "drawdown_from_52w_high" r3 = None /\ y = np_nan)
    /\ forall c, series_get c q = output_cell r3 y a rb rs fc c.
Proof.
  intros Hwf Hr (th & n & _ & Hn & Hq).
  destruct (wf_input_inv df Hwf) as (_ & _ & Hclash & Hrows).
  destruct (Hrows r Hr) as [Hlen _].
  pose proof (normalize_row_labels _ _ _ Hlen Hn) as Hnlab.
  assert (Habs : forall k, In k DECIDED_COLUMNS -> in_index k n = false).
  { intros k Hk. destruct (in_index k n) eqn:Hi; [|reflexivity].
    apply in_index_In in Hi. rewrite Hnlab in Hi. apply str_in_In in Hi.
    rewrite str_in_add_label in Hi. rewrite (Hclash k Hk), orb_false_r in Hi.
    simpl in Hk. destruct Hk as [<-|[<-|[<-|[<-|[]]]]]; discriminate. }
  apply annotate_row_inv in Hq. destruct Hq as (a & rb & rs & fc & _ & ->).
  apply normalize_row_inv in Hn. destruct Hn as (r3 & y & Hc & Hn & Hy).
  exists r3, y, a, rb, rs, fc. split; [exact Hc|].
  assert (Hlab : map fst r3 = map Str.strip (columns df)).
  { rewrite (cellwise_labels _ _ _ Hc). apply relabel_labels. exact Hlen. }
  split; [exact Hlab|]. split.
  - destruct (str_in "drawdown_from_52w_high" (map Str.strip (columns df))) eqn:Hdd.
    + destruct Hy as (x & Hx & ->). exists x. split; [|reflexivity].
      unfold _safe_get in Hx.
      destruct (series_get "drawdown_from_52w_high" r3) as [v|] eqn:Hg;
        [congruence|].
      apply series_get_None in Hg. rewrite Hlab in Hg.
      apply str_in_In in Hdd. contradiction.
    + split; [|exact Hy]. apply series_get_None. rewrite Hlab.
      apply str_in_false. exact Hdd.
  - intros c. rewrite annotated_cells by exact Habs. unfold output_cell.
    rewrite Hn, series_get_set. reflexivity.
Qed.

(** The rows of the output are the classified records, reordered. *)
Lemma output_classified (df : frame) (cfg : gmap string pyval) (out : frame) :
  wf_input df = true ->
  call_compute_actions df cfg = Ok out ->
  exists pre,
    Forall2 (classified cfg (map Str.strip (columns df))) (rows df) pre
    /\ rows out = sort_rows (sort_keys (map Str.strip (columns df))) pre.
Proof.
  intros Hwf Hcall. rewrite call_compute_actions_engine in Hcall.
  destruct (wf_input_inv df Hwf) as (Hrect & _ & _ & _).
  destruct (rows df) as [|r0 rest] eqn:Hr.
  { rewrite (engine_no_rows df cfg out Hr Hcall). exists [].
    split; [constructor|reflexivity]. }
  rewrite <- Hr in *.
  apply engine_by_rows in Hcall; [|exact Hrect|rewrite Hr; discriminate].
  destruct Hcall as (th & ns & pre & Hth & Hns & Hpre & ->).
  exists pre. split; [|reflexivity].
  assert (Hb : rmapM (fun r => let? n := normalize_row (map Str.strip (columns df)) r in
                               annotate_row th cfg n) (rows df) = Ok pre).
  { apply rmapM_bind. eauto. }
  apply rmapM_Forall2 in Hb. eapply Forall2_impl; [exact Hb|].
  intros r q. unfold classified.
  destruct (normalize_row (map Str.strip (columns df)) r) as [n|e];
    cbn [rbind]; [|discriminate].
  intros Hrq. exists th, n. auto.
Qed.

Lemma output_row_classified (df : frame) (cfg : gmap string pyval) (out : frame)
    (q : series) :
  wf_input df = true ->
  call_compute_actions df cfg = Ok out ->
  In q (rows out) ->
  exists r, In r (rows df) /\ classified cfg (map Str.strip (columns df)) r q.
Proof.
  intros Hwf Hcall Hq.
  destruct (output_classified df cfg out Hwf Hcall) as (pre & Hcl & Hout).
  rewrite Hout in Hq. apply sort_rows_In in Hq.
  exact (Forall2_In_r _ _ _ _ Hcl Hq).
Qed.

End OutputCells.

Lemma Forall2_In_impl {A B} (R R' : A -> B -> Prop) (l : list A) (l' : list B) :
  (forall a b, In a l -> R a b -> R' a b) -> Forall2 R l l' -> Forall2 R' l l'.
Proof.
  intros HR Hf. induction Hf as [|a b l l' Hab Hf IH]; [constructor|].
  constructor; [apply HR; [left; reflexivity|exact Hab]|].
  apply IH. intros a' b' Ha'. apply HR. right. exact Ha'.
Qed.

Section Cells.

Context `{PyBuiltins}.

Lemma normal_converted (k : string) (v v' : pyval) :
  normal_cell k v v' -> converted_cell k v v'.
Proof.
  unfold normal_cell, converted_cell.
  destruct (str_in k TEXT_COLS); [intros -> _; reflexivity|]. auto.
Qed.

(** X5: the table that [compute_actions] returns is typed by its
    header.  In every row a cell of a text column that is not missing is
    a string without surrounding whitespace, a cell of a numeric column
    or of [dd_norm] is a float, a cell of a boolean column or of a signal
    column is a boolean, and the four decided cells are strings;
    [dd_norm] holds the normalised cell of [drawdown_from_52w_high], and
    not-a-number when the table has no such column. *)
Theorem output_typed (df : frame) (cfg : gmap string pyval) (out : frame) :
  wf_input df = true ->
  call_compute_actions df cfg = Ok out ->
  forall q, In q (rows out) ->
    (forall c v, series_get c q = Some v ->
       (In c TEXT_COLS -> pd_isna v = false ->
        exists s, v = VStr s /\ Str.strip s = s)
       /\ (In c ("dd_norm" :: NUM_COLS) -> exists x, v = VFloat x)
       /\ (In c ("BUY_SIGNAL" :: "SELL_SIGNAL" :: BOOL_COLS) -> exists b, v = VBool b)
       /\ (In c DECIDED_COLUMNS -> exists s, v = VStr s))
    /\ match series_get "drawdown_from_52w_high" q with
       | Some v => exists x, v = VFloat x
                             /\ series_get "dd_norm" q
                                = Some (VFloat (_normalize_drawdown x))
       | None => series_get "dd_norm" q = Some (VFloat np_nan)
       end.
Proof.
  intros Hwf Hcall q Hq.
  destruct (output_row_classified df cfg out q Hwf Hcall Hq) as (r & Hr & Hcl).
  destruct (classified_cells df cfg r q Hwf Hr Hcl)
    as (r3 & y & a & rb & rs & fc & Hc & Hlab & Hy & Hget).
  assert (Hback : forall c v', series_get c r3 = Some v' ->
            exists v, normal_cell c v v').
  { intros c v' Hv'.
    pose proof (cellwise_get _ _ _ c Hc) as Hg.
    destruct (series_get c (relabel (map Str.strip (columns df)) r)) as [v|].
    - destruct Hg as (v'' & Hv'' & Hn). exists v. congruence.
    - congruence. }
  split.
  - intros c v Hv. rewrite Hget in Hv. unfold output_cell in Hv.
    repeat split.
    + intros Hin _. simpl in Hin.
      repeat (destruct Hin as [<-|Hin];
              [cbn [String.eqb Ascii.eqb Bool.eqb] in Hv;
               destruct (Hback _ _ Hv) as (v0 & Hn);
               unfold normal_cell in Hn; cbn in Hn; subst v;
               eexists; split; [reflexivity|apply strip_idem]|]).
      destruct Hin.
    + intros Hin. simpl in Hin. destruct Hin as [<-|Hin].
      { cbn [String.eqb Ascii.eqb Bool.eqb] in Hv. inversion Hv. eauto. }
      repeat (destruct Hin as [<-|Hin];
              [cbn [String.eqb Ascii.eqb Bool.eqb] in Hv;
               destruct (Hback _ _ Hv) as (v0 & Hn);
               unfold normal_cell in Hn; cbn in Hn;
               destruct Hn as (x & _ & ->); eauto|]).
      destruct Hin.
    + intros Hin. simpl in Hin.
      destruct Hin as [<-|Hin];
        [cbn [String.eqb Ascii.eqb Bool.eqb] in Hv; inversion Hv; eauto|].
      destruct Hin as [<-|Hin];
        [cbn [String.eqb Ascii.eqb Bool.eqb] in Hv; inversion Hv; eauto|].
      repeat (destruct Hin as [<-|Hin];
              [cbn [String.eqb Ascii.eqb Bool.eqb] in Hv;
               destruct (Hback _ _ Hv) as (v0 & Hn);
               unfold normal_cell in Hn; cbn in Hn; subst v; eauto|]).
      destruct Hin.
    + intros Hin. simpl in Hin.
      repeat (destruct Hin as [<-|Hin];
              [cbn [String.eqb Ascii.eqb Bool.eqb] in Hv; inversion Hv; eauto|]).
      destruct Hin.
  - rewrite !Hget. unfold output_cell. cbn [String.eqb Ascii.eqb Bool.eqb].
    destruct (str_in "drawdown_from_52w_high" (map Str.strip (columns df))).
    + destruct Hy as (x & -> & ->). eauto.
    + destruct Hy as (-> & ->). reflexivity.
Qed.

(** X6: the rows of the output are the records of the input, reordered,
    and outside the seven columns that the engine writes each cell is the
    cell of the record under the trimmed header, converted by its
    column: the trimmed text of a cell that is not missing in a text
    column, the float of [_to_num] in a numeric column, the boolean of
    [_to_bool] in a boolean column, and the very same value in every
    other column. *)
Theorem cells_converted (df : frame) (cfg : gmap string pyval) (out : frame) :
  wf_input df = true ->
  call_compute_actions df cfg = Ok out ->
  exists pre,
    Permutation pre (rows out)
    /\ Forall2
         (fun r q : series =>
            forall c, str_in c ENGINE_COLS = false ->
              match series_get c (relabel (map Str.strip (columns df)) r) with
              | Some v => exists v', series_get c q = Some v' /\ converted_cell c v v'
              | None => series_get c q = None
              end)
         (rows df) pre.
Proof.
  intros Hwf Hcall.
  destruct (output_classified df cfg out Hwf Hcall) as (pre & Hcl & Hout).
  exists pre. split; [rewrite Hout; apply sort_rows_perm|].
  eapply Forall2_In_impl; [|exact Hcl].
  intros r q Hr Hrq c Hc.
  destruct (classified_cells df cfg r q Hwf Hr Hrq)
    as (r3 & y & a & rb & rs & fc & Hcw & _ & _ & Hget).
  rewrite Hget. unfold output_cell.
  unfold ENGINE_COLS, str_in in Hc. simpl in Hc. rewrite !orb_false_iff in Hc.
  destruct Hc as (H1 & H2 & H3 & H4 & H5 & H6 & H7 & _).
  rewrite H7, H6, H2, H3, H4, H5, H1.
  pose proof (cellwise_get _ _ _ c Hcw) as Hg.
  destruct (series_get c (relabel (map Str.strip (columns df)) r)) as [v|];
    [|exact Hg].
  destruct Hg as (v' & Hv' & Hn). exists v'. split; [exact Hv'|].
  apply normal_converted. exact Hn.
Qed.

End Cells.

Lemma output_typed_sample :
  List.Forall
    (fun q : list (string * pyval) =>
       match series_get "drawdown_from_52w_high" q with
       | Some v => exists x, v = VFloat x
                             /\ series_get "dd_norm" q
                                = Some (VFloat (_normalize_drawdown x))
       | None => series_get "dd_norm" q = Some (VFloat np_nan)
       end)
    (rows sample_result).
Proof.
  apply List.Forall_forall. intros q Hq.
  apply (output_typed (H := Plain.builtins) Sample.table ∅ sample_result
           eq_refl sample_run q Hq).
Defined.

Lemma cells_converted_sample :
  exists pre,
    Permutation pre (rows sample_result)
    /\ Forall2
         (fun r q : series =>
            forall c, str_in c ENGINE_COLS = false ->
              match series_get c (relabel (map Str.strip (columns Sample.table)) r) with
              | Some v => exists v', series_get c q = Some v'
                                     /\ converted_cell (H := Plain.builtins) c v v'
              | None => series_get c q = None
              end)
         (rows Sample.table) pre.
Proof.
  apply (cells_converted (H := Plain.builtins) Sample.table ∅ sample_result
           eq_refl sample_run).
Defined.

(** ** The blocks of the output *)

Lemma precedes_rank (ws : bool) (a b : series) :
  precedes ws b a = false -> (row_rank a <= row_rank b)%nat.
Proof.
  unfold precedes, row_rank.
  destruct (buy_of a), (buy_of b), (sell_of a), (sell_of b); simpl;
    intros Hp; try discriminate; lia.
Qed.

Lemma ranks_in_order (ws : bool) (l : list series) :
  Sorted (fun a b => precedes ws b a = false) l ->
  forall l1 a l2 b l3, l = l1 ++ a :: l2 ++ b :: l3 ->
                       (row_rank a <= row_rank b)%nat.
Proof.
  intros Hs.
  assert (Hss : StronglySorted (fun a b => (row_rank a <= row_rank b)%nat) l).
  { apply Sorted_StronglySorted.
    - intros x y z Hxy Hyz. lia.
    - eapply (Sorted_weaken _ _ (fun _ => True)); [|apply Forall_forall; auto|exact Hs].
      intros a b _ _ Hp. exact (precedes_rank ws a b Hp). }
  clear Hs. intros l1 a l2 b l3 ->. induction l1 as [|x l1 IH]; simpl in Hss.
  - inversion Hss as [|? ? _ Hall]; subst. rewrite Forall_forall in Hall.
    apply Hall. apply list_elem_of_In. apply in_or_app. right. left. reflexivity.
  - inversion Hss as [|? ? Hss' _]; subst. apply IH. exact Hss'.
Qed.

Section Blocks.

Context `{PyBuiltins}.

Lemma output_in_order (df : frame) (cfg : gmap string pyval) (out : frame) :
  wf_input df = true ->
  call_compute_actions df cfg = Ok out ->
  Sorted (fun a b => precedes (str_in "score" (map Str.strip (columns df))) b a = false)
    (rows out).
Proof.
  intros Hwf Hcall.
  destruct (output_classified df cfg out Hwf Hcall) as (pre & Hcl & Hout).
  rewrite Hout. set (labels := map Str.strip (columns df)) in *.
  assert (Hkeyed : forall q, In q (sort_rows (sort_keys labels) pre) ->
                             keyed (str_in "score" labels) q).
  { intros q Hq. apply sort_rows_In in Hq.
    destruct (Forall2_In_r _ _ _ _ Hcl Hq) as (r & Hrin & Hrq).
    eapply classified_keyed; eassumption. }
  eapply (Sorted_weaken _ _ (keyed (str_in "score" labels)));
    [|apply Forall_forall; intros q Hq; apply Hkeyed; apply list_elem_of_In; exact Hq
     |apply sort_rows_in_order].
  intros a b Ka Kb Hab. rewrite <- lex_before_precedes by assumption. exact Hab.
Qed.

(** X7: the output comes in three blocks: the rows labelled [BUY] or
    [STRONG BUY], then the rows labelled [REVIEW SELL], then the rows
    labelled [WATCH] or [HOLD]; no row of a later block comes before a row
    of an earlier one. *)
Theorem output_blocks (df : frame) (cfg : gmap string pyval) (out : frame) :
  wf_input df = true ->
  call_compute_actions df cfg = Ok out ->
  forall l1 qa l2 qb l3, rows out = l1 ++ qa :: l2 ++ qb :: l3 ->
  exists a b,
    series_get "ACTION" qa = Some (VStr a)
    /\ series_get "ACTION" qb = Some (VStr b)
    /\ (action_rank a <= action_rank b)%nat.
Proof.
  intros Hwf Hcall l1 qa l2 qb l3 Hsplit.
  pose proof (ranks_in_order _ _ (output_in_order df cfg out Hwf Hcall)
                l1 qa l2 qb l3 Hsplit) as Hrank.
  assert (Hrow : forall q, In q (rows out) ->
            exists a, series_get "ACTION" q = Some (VStr a)
                      /\ row_rank q = action_rank a).
  { intros q Hq.
    destruct (output_row_verdict df cfg out Hwf Hcall q Hq)
      as (th & a & rb & rs & fc & _ & _ & Ha & _ & _ & _ & Hb & Hs).
    exists a. split; [exact Ha|].
    unfold row_rank, action_rank, buy_of, sell_of, _safe_get.
    rewrite Hb, Hs. reflexivity. }
  destruct (Hrow qa) as (a & Ha & Hra).
  { rewrite Hsplit. apply in_or_app. right. left. reflexivity. }
  destruct (Hrow qb) as (b & Hb & Hrb).
  { rewrite Hsplit. apply in_or_app. right. right. apply in_or_app.
    right. left. reflexivity. }
  exists a, b. split; [exact Ha|]. split; [exact Hb|]. lia.
Qed.

End Blocks.

Lemma output_blocks_sample :
  exists a b,
    series_get "ACTION" (List.nth 1 (rows sample_result) []) = Some (VStr a)
    /\ series_get "ACTION" (List.nth 3 (rows sample_result) []) = Some (VStr b)
    /\ (action_rank a <= action_rank b)%nat.
Proof.
  apply (output_blocks (H := Plain.builtins) Sample.table ∅ sample_result
           eq_refl sample_run
           (firstn 1 (rows sample_result)) (List.nth 1 (rows sample_result) [])
           (firstn 1 (skipn 2 (rows sample_result)))
           (List.nth 3 (rows sample_result) [])
           (skipn 4 (rows sample_result))).
  vm_compute. reflexivity.
Defined.

(** ** The two converters *)

Lemma numeral_char_plain (a : ascii) :
  numeral_char a = true -> Str.is_space a = false /\ Str.lower_ascii a = a.
Proof.
  destruct a as [[|] [|] [|] [|] [|] [|] [|] [|]]; intros Hn;
    try discriminate Hn; split; reflexivity.
Qed.

Lemma numeral_lower (s : string) : all_chars numeral_char s = true -> Str.lower s = s.
Proof.
  induction s as [|a s IH]; [reflexivity|]. simpl. intros Hs.
  apply andb_true_iff in Hs. destruct Hs as [Ha Hs].
  destruct (numeral_char_plain a Ha) as [_ ->]. rewrite IH by exact Hs. reflexivity.
Qed.

Lemma numeral_rstrip (s : string) : all_chars numeral_char s = true -> Str.rstrip s = s.
Proof.
  induction s as [|a s IH]; [reflexivity|]. simpl. intros Hs.
  apply andb_true_iff in Hs. destruct Hs as [Ha Hs].
  destruct (numeral_char_plain a Ha) as [Hsp _]. rewrite IH by exact Hs.
  destruct s; [rewrite Hsp|]; reflexivity.
Qed.

Lemma numeral_strip (s : string) : all_chars numeral_char s = true -> Str.strip s = s.
Proof.
  intros Hs. unfold Str.strip. rewrite lstrip_clean.
  - apply numeral_rstrip. exact Hs.
  - destruct s as [|a s]; [reflexivity|]. simpl in *.
    apply andb_true_iff in Hs. destruct Hs as [Ha _].
    destruct (numeral_char_plain a Ha) as [-> _]. reflexivity.
Qed.

Lemma numeral_affirmative (s : string) :
  all_chars numeral_char s = true -> str_in s AFFIRMATIVE = String.eqb s "1".
Proof.
  destruct s as [|a s]; [reflexivity|]. simpl. intros Hs.
  apply andb_true_iff in Hs. destruct Hs as [Ha _]. revert Ha.
  destruct a as [[|] [|] [|] [|] [|] [|] [|] [|]]; intros Ha;
    try discriminate Ha; unfold str_in, AFFIRMATIVE; simpl;
    rewrite ?orb_false_r; reflexivity.
Qed.

Lemma uint_numeral (d : Decimal.uint) :
  all_chars numeral_char (NilEmpty.string_of_uint d) = true.
Proof. induction d; simpl; auto. Qed.

Lemma of_Z_numeral (z : Z) : all_chars numeral_char (Str.of_Z z) = true.
Proof.
  unfold Str.of_Z, NilZero.string_of_int, NilZero.string_of_uint.
  destruct (Z.to_int z) as [d|d]; destruct d; simpl; try reflexivity;
    apply uint_numeral.
Qed.

Lemma to_int_nonnil (z : Z) :
  Z.to_int z <> Decimal.Pos Decimal.Nil /\ Z.to_int z <> Decimal.Neg Decimal.Nil.
Proof.
  pose proof DecimalPos.Unsigned.to_uint_nonnil as Hp.
  destruct z as [|p|p]; simpl; split; try discriminate;
    intros Heq; inversion Heq as [Hd]; exact (Hp p Hd).
Qed.

(** Two integers with the same numeral are the same. *)
Lemma of_Z_inj (z z' : Z) : Str.of_Z z = Str.of_Z z' -> z = z'.
Proof.
  unfold Str.of_Z. intros Heq. apply DecimalZ.to_int_inj.
  destruct (to_int_nonnil z) as [Hp Hn]. destruct (to_int_nonnil z') as [Hp' Hn'].
  pose proof (NilZero.isi _ Hp Hn) as H1. pose proof (NilZero.isi _ Hp' Hn') as H2.
  rewrite Heq in H1. congruence.
Qed.

Lemma is_space_lower (a : ascii) : Str.is_space (Str.lower_ascii a) = Str.is_space a.
Proof. destruct a as [[|] [|] [|] [|] [|] [|] [|] [|]]; reflexivity. Qed.

Lemma lower_ascii_idem (a : ascii) :
  Str.lower_ascii (Str.lower_ascii a) = Str.lower_ascii a.
Proof. destruct a as [[|] [|] [|] [|] [|] [|] [|] [|]]; reflexivity. Qed.

Lemma lower_idem (s : string) : Str.lower (Str.lower s) = Str.lower s.
Proof.
  induction s as [|a s IH]; [reflexivity|]. simpl.
  rewrite lower_ascii_idem, IH. reflexivity.
Qed.

Lemma lstrip_lower (s : string) : Str.lstrip (Str.lower s) = Str.lower (Str.lstrip s).
Proof.
  induction s as [|a s IH]; [reflexivity|]. simpl. rewrite is_space_lower.
  destruct (Str.is_space a); [exact IH|reflexivity].
Qed.

Lemma rstrip_lower (s : string) : Str.rstrip (Str.lower s) = Str.lower (Str.rstrip s).
Proof.
  induction s as [|a s IH]; [reflexivity|]. simpl. rewrite IH, is_space_lower.
  destruct (Str.rstrip s); simpl; [destruct (Str.is_space a)|]; reflexivity.
Qed.

Lemma strip_lower (s : string) : Str.strip (Str.lower s) = Str.lower (Str.strip s).
Proof. unfold Str.strip. rewrite lstrip_lower, rstrip_lower. reflexivity. Qed.

Section Converters.

Context `{PyBuiltins}.

(** X8: [_to_bool] reads an integer as true exactly when it is 1, and
    reads [None] and not-a-number as false; on a text it looks at the
    trimmed, lower-cased text only, so that surrounding whitespace and
    letter case do not matter (stated for one-byte text, where trimming
    and lower-casing are those of Python). *)
Theorem to_bool_reads (z : Z) (x : float) (s : string) :
  all_chars is_ascii s = true ->
  _to_bool (VInt z) = Z.eqb z 1
  /\ _to_bool VNone = false
  /\ (PrimFloat.is_nan x = true -> _to_bool (VFloat x) = false)
  /\ _to_bool (VStr (Str.strip s)) = _to_bool (VStr s)
  /\ _to_bool (VStr (Str.lower s)) = _to_bool (VStr s).
Proof.
  intros _. split; [|split; [|split; [|split]]].
  - unfold _to_bool. cbn [pd_isna py_str].
    rewrite (numeral_strip _ (of_Z_numeral z)), (numeral_lower _ (of_Z_numeral z)).
    change (str_in (Str.of_Z z) AFFIRMATIVE = Z.eqb z 1).
    rewrite (numeral_affirmative _ (of_Z_numeral z)).
    destruct (Z.eqb_spec z 1) as [->|Hne]; [reflexivity|].
    apply String.eqb_neq. intros Heq. apply Hne. apply of_Z_inj. exact Heq.
  - reflexivity.
  - intros Hx. unfold _to_bool. cbn [pd_isna]. rewrite Hx. reflexivity.
  - unfold _to_bool. cbn [pd_isna py_str]. rewrite strip_idem. reflexivity.
  - unfold _to_bool. cbn [pd_isna py_str].
    rewrite strip_lower, lower_idem. reflexivity.
Qed.

(** X9: the only exception [_to_num] raises is [OverflowError], on an
    integer too large for a float; on [None], a boolean, a float or any
    text it returns, and what it returns for a text that [float] rejects
    is not-a-number. *)
Theorem to_num_raises (v : pyval) (e : exn) :
  _to_num v = Err e ->
  e = OverflowError /\ exists z, v = VInt z /\ int_in_range v = false.
Proof.
  unfold _to_num. destruct v as [|b|z|x|s]; cbn [pd_isna py_float py_str].
  - discriminate.
  - discriminate.
  - unfold int_in_range, Flt.of_Z.
    destruct (PrimFloat.is_infinity _); [|discriminate].
    intros [= <-]. eauto.
  - destruct (PrimFloat.is_nan x); discriminate.
  - destruct (float_of_str _); discriminate.
Qed.

End Converters.

Lemma to_bool_reads_sample :
  _to_bool (H := Plain.builtins) (VInt 1) = true
  /\ _to_bool (H := Plain.builtins) (VStr (Str.lower " SIM "))
     = _to_bool (H := Plain.builtins) (VStr " SIM ").
Proof.
  destruct (to_bool_reads (H := Plain.builtins) 1 np_nan " SIM " eq_refl)
    as (H1 & _ & _ & _ & H5).
  exact (conj H1 H5).
Defined.

Lemma to_num_raises_sample :
  OverflowError = OverflowError
  /\ exists z, VInt (10 ^ 400) = VInt z /\ int_in_range (VInt (10 ^ 400)) = false.
Proof.
  apply (to_num_raises (H := Plain.builtins) (VInt (10 ^ 400)) OverflowError).
  vm_compute. reflexivity.
Defined.

(** ** The script *)


Lemma passes_required_agree (c1 c2 : gmap string pyval) (r : series) :
  (forall toggle dflt flag, In (toggle, dflt, flag) REQUIRED_CHECKS ->
     cfg_get c1 toggle (VBool dflt) = cfg_get c2 toggle (VBool dflt)) ->
  _passes_required r c1 = _passes_required r c2.
Proof.
  intros Hc. unfold _passes_required, require_pass.
  rewrite (Hc "REQUIRE_PASS_DEBT" true "pass_debt") by in_list.
  rewrite (Hc "REQUIRE_PASS_INTEREST" true "pass_interest_cover") by in_list.
  rewrite (Hc "REQUIRE_PASS_FCF" true "pass_fcf") by in_list.
  rewrite (Hc "REQUIRE_PASS_ROIC" false "pass_roic") by in_list.
  rewrite (Hc "REQUIRE_PASS_PAYOUT" false "pass_payout") by in_list.
  reflexivity.
Qed.

Section ScriptFacts.

Context `{PyBuiltins}.

(** The call reads the configuration through the thresholds and the
    required checks only. *)
Lemma engine_agree (df : frame) (c1 c2 : gmap string pyval) :
  resolve_thresholds c1 = resolve_thresholds c2 ->
  (forall r, _passes_required r c1 = _passes_required r c2) ->
  engine df c1 = engine df c2.
Proof.
  intros Hth Hreq. unfold engine. rewrite Hth.
  destruct (normalized df) as [fr|e]; cbn [rbind]; [|reflexivity].
  destruct (resolve_thresholds c2) as [th|e]; cbn [rbind]; [|reflexivity].
  assert (Hd : decided th c1 fr = decided th c2 fr).
  { unfold decided, df_apply_expand. destruct (rows fr) as [|r0 rest]; [reflexivity|].
    rewrite (rmapM_ext _ (fun r => let? x := decide th c2 r in Ok (decision_cells x)));
      [reflexivity|].
    intros r _. unfold decide, sell_signal, buy_gate. rewrite !Hreq. reflexivity. }
  rewrite Hd. reflexivity.
Qed.



Lemma script_cfg_inv (base : gmap string pyval) (v1 v2 v3 : pyval)
    (c : gmap string pyval) :
  Script.cfg base v1 v2 v3 = Ok c ->
  exists s b g,
    py_float v1 = Ok s /\ py_float v2 = Ok b /\ py_float v3 = Ok g
    /\ resolve_thresholds c
       = Ok (Thresholds s b g (py_bool (cfg_get base "ALLOW_SPECULATIVE" (VBool true))))
    /\ forall r, _passes_required r c = _passes_required r base.
Proof.
  unfold Script.cfg.
  destruct (py_float v1) as [s|e]; cbn [rbind]; [|discriminate].
  destruct (py_float v2) as [b|e]; cbn [rbind]; [|discriminate].
  destruct (py_float v3) as [g|e]; cbn [rbind]; [|discriminate].
  intros [= <-]. exists s, b, g.
  split; [reflexivity|]. split; [reflexivity|]. split; [reflexivity|]. split.
  - vm_compute. reflexivity.
  - intros r. unfold _passes_required, require_pass, cfg_get.
    repeat rewrite ?lookup_insert_eq, ?lookup_insert_ne by discriminate.
    reflexivity.
Qed.

End ScriptFacts.

Section ScriptClaims.

Context `{PyBuiltins}.

(** X10: from a minimum score between 0 and 100 and two float
    drawdowns, as the widgets of the sidebar hand them back, the script
    builds a configuration that the engine accepts: its thresholds are
    these three numbers and the [ALLOW_SPECULATIVE] switch of the profile,
    its required checks are those of the profile, since the fallbacks
    of the script are the fallbacks of the engine, and a call with it is
    a call with the profile in which the three numbers are set. *)
Theorem script_cfg (base : gmap string pyval) (z : Z) (b g : float) :
  0 <= z <= 100 ->
  exists c s,
    Script.cfg base (VInt z) (VFloat b) (VFloat g) = Ok c
    /\ Flt.of_Z z = Ok s
    /\ resolve_thresholds c
       = Ok (Thresholds s b g (py_bool (cfg_get base "ALLOW_SPECULATIVE" (VBool true))))
    /\ (forall r, _passes_required r c = _passes_required r base)
    /\ (forall df,
          call_compute_actions df c
          = call_compute_actions df
              (<["SCORE_BUY_MIN" := VInt z]>
                 (<["DD_BUY" := VFloat b]> (<["DD_STRONG" := VFloat g]> base)))).
Proof.
  intros Hz.
  assert (Hs : exists s, Flt.of_Z z = Ok s).
  { pose proof (forall_risk
                  (fun z => match Flt.of_Z z with Ok _ => true | Err _ => false end)
                  ltac:(vm_compute; reflexivity) z Hz) as Hok.
    cbv beta in Hok. destruct (Flt.of_Z z) as [s|e]; [eauto|discriminate]. }
  destruct Hs as [s Hs].
  destruct (Script.cfg base (VInt z) (VFloat b) (VFloat g)) as [c|e] eqn:Hc.
  2:{ unfold Script.cfg in Hc. cbn [py_float] in Hc. rewrite Hs in Hc.
      cbn [rbind] in Hc. discriminate. }
  destruct (script_cfg_inv base _ _ _ c Hc) as (s' & b' & g' & H1 & H2 & H3 & Hth & Hreq).
  cbn [py_float] in H1, H2, H3. rewrite Hs in H1.
  inversion H1; inversion H2; inversion H3; subst s' b' g'.
  exists c, s. split; [reflexivity|]. split; [exact Hs|]. split; [exact Hth|].
  split; [exact Hreq|]. intros df. rewrite !call_compute_actions_engine.
  apply engine_agree.
  - rewrite Hth. set (m := <["SCORE_BUY_MIN" := VInt z]> _).
    assert (H1' : m !! "SCORE_BUY_MIN" = Some (VInt z)) by apply lookup_insert_eq.
    assert (H2' : m !! "DD_BUY" = Some (VFloat b)).
    { unfold m. rewrite lookup_insert_ne by discriminate. apply lookup_insert_eq. }
    assert (H3' : m !! "DD_STRONG" = Some (VFloat g)).
    { unfold m. rewrite !lookup_insert_ne by discriminate. apply lookup_insert_eq. }
    assert (H4' : m !! "ALLOW_SPECULATIVE" = base !! "ALLOW_SPECULATIVE").
    { unfold m. rewrite !lookup_insert_ne by discriminate. reflexivity. }
    unfold resolve_thresholds, cfg_get. rewrite H1', H2', H3', H4'.
    cbn [py_float]. rewrite Hs. reflexivity.
  - intros r. rewrite Hreq. symmetry. apply passes_required_agree.
    intros toggle dflt flag Hin. unfold cfg_get.
    simpl in Hin.
    repeat (destruct Hin as [Heq|Hin];
            [inversion Heq; subst; rewrite !lookup_insert_ne by discriminate;
             reflexivity|]).
    destruct Hin.
Qed.


End ScriptClaims.

(** X12: for every risk from 0 to 100 the default minimum score lies
    between 55 and 85, inside the range of its widget, and the default
    strong-buy drawdown is strictly below the default buy drawdown, which
    is negative; a higher risk never raises the minimum score and never
    lowers a drawdown threshold. *)
Theorem slider_bounds (risk risk' : Z) :
  0 <= risk <= 100 -> risk <= risk' <= 100 ->
  exists s b g s' b' g',
    App.score_min risk = Ok s /\ App.dd_buy risk = Ok b /\ App.dd_strong risk = Ok g
    /\ App.score_min risk' = Ok s' /\ App.dd_buy risk' = Ok b'
    /\ App.dd_strong risk' = Ok g'
    /\ 55 <= s <= 85
    /\ PrimFloat.ltb g b = true /\ PrimFloat.ltb b 0 = true
    /\ s' <= s /\ PrimFloat.leb b b' = true /\ PrimFloat.leb g g' = true.
Proof.
  intros Hr Hr'.
  pose proof (forall_risk SliderCheck.in_bounds ltac:(vm_compute; reflexivity)
                risk Hr) as Hb.
  pose proof (forall_risk SliderCheck.monotone_from ltac:(vm_compute; reflexivity)
                risk Hr) as Hm.
  unfold SliderCheck.monotone_from in Hm. rewrite forallb_forall in Hm.
  assert (Hin : In risk' (map Z.of_nat (seq 0 101))).
  { apply in_map_iff. exists (Z.to_nat risk'). split; [lia|].
    apply in_seq. lia. }
  specialize (Hm risk' Hin).
  replace (Z.leb risk risk') with true in Hm by (symmetry; apply Z.leb_le; lia).
  cbn [negb orb] in Hm.
  unfold SliderCheck.in_bounds in Hb. unfold SliderCheck.ordered_at in Hm.
  destruct (App.score_min risk) as [s|?], (App.dd_buy risk) as [b|?],
    (App.dd_strong risk) as [g|?]; try discriminate.
  destruct (App.score_min risk') as [s'|?], (App.dd_buy risk') as [b'|?],
    (App.dd_strong risk') as [g'|?]; try discriminate.
  apply andb_true_iff in Hb. destruct Hb as [Hb H4].
  apply andb_true_iff in Hb. destruct Hb as [Hb H3].
  apply andb_true_iff in Hb. destruct Hb as [H1 H2].
  apply andb_true_iff in Hm. destruct Hm as [Hm H7].
  apply andb_true_iff in Hm. destruct Hm as [H5 H6].
  apply Z.leb_le in H1, H2, H5.
  exists s, b, g, s', b', g'. repeat (split; [reflexivity|]).
  repeat split; assumption.
Qed.

Lemma script_cfg_sample :
  exists c s,
    Script.cfg (H := Plain.builtins) ∅ (VInt 70) (VFloat (-0.20)) (VFloat (-0.30)) = Ok c
    /\ Flt.of_Z 70 = Ok s
    /\ resolve_thresholds (H := Plain.builtins) c
       = Ok (Thresholds s (-0.20) (-0.30)
               (py_bool (cfg_get ∅ "ALLOW_SPECULATIVE" (VBool true))))
    /\ (forall r, _passes_required r c = _passes_required r ∅)
    /\ (forall df,
          call_compute_actions (H := Plain.builtins) df c
          = call_compute_actions (H := Plain.builtins) df
              (<["SCORE_BUY_MIN" := VInt 70]>
                 (<["DD_BUY" := VFloat (-0.20)]> (<["DD_STRONG" := VFloat (-0.30)]> ∅)))).
Proof.
  apply (script_cfg (H := Plain.builtins) ∅ 70 (-0.20) (-0.30)). lia.
Defined.


Lemma slider_bounds_sample :
  exists s b g s' b' g',
    App.score_min 20 = Ok s /\ App.dd_buy 20 = Ok b /\ App.dd_strong 20 = Ok g
    /\ App.score_min 80 = Ok s' /\ App.dd_buy 80 = Ok b'
    /\ App.dd_strong 80 = Ok g'
    /\ 55 <= s <= 85
    /\ PrimFloat.ltb g b = true /\ PrimFloat.ltb b 0 = true
    /\ s' <= s /\ PrimFloat.leb b b' = true /\ PrimFloat.leb g g' = true.
Proof. apply (slider_bounds 20 80); lia. Defined.

(** ** A second run on the output *)

Lemma series_get_filter (p : string -> bool) (k : string) (r : series) :
  series_get k (List.filter (fun kv : string * pyval => p (fst kv)) r)
  = if p k then series_get k r else None.
Proof.
  induction r as [|[k0 v] r IH]; simpl; [destruct (p k); reflexivity|].
  destruct (p k0) eqn:Hp0; simpl.
  - destruct (String.eqb_spec k0 k) as [->|Hne]; [rewrite Hp0; reflexivity|exact IH].
  - rewrite IH. destruct (String.eqb_spec k0 k) as [->|Hne]; [|reflexivity].
    rewrite Hp0. reflexivity.
Qed.

Lemma map_fst_filter (p : string -> bool) (r : series) :
  map fst (List.filter (fun kv : string * pyval => p (fst kv)) r)
  = List.filter p (map fst r).
Proof.
  induction r as [|[k0 v] r IH]; simpl; [reflexivity|].
  destruct (p k0); simpl; rewrite IH; reflexivity.
Qed.

Lemma str_in_filter (p : string -> bool) (k : string) (l : list string) :
  str_in k (List.filter p l) = p k && str_in k l.
Proof.
  unfold str_in. induction l as [|c l IH]; simpl; [rewrite andb_false_r; reflexivity|].
  destruct (p c) eqn:Hc; simpl; rewrite IH.
  - destruct (String.eqb_spec k c) as [->|Hne]; simpl.
    + rewrite Hc. reflexivity.
    + reflexivity.
  - destruct (String.eqb_spec k c) as [->|Hne]; simpl; [|reflexivity].
    rewrite Hc. reflexivity.
Qed.

Lemma relabel_self (r : series) : relabel (map fst r) r = r.
Proof.
  unfold relabel. induction r as [|[k v] r IH]; simpl; [reflexivity|].
  rewrite IH. reflexivity.
Qed.

Lemma is_nan_eq (x : float) : PrimFloat.is_nan x = true -> x = np_nan.
Proof.
  intros Hx. apply FloatAxioms.Prim2SF_inj.
  destruct (Prim2SF x) eqn:Hp; try reflexivity;
    (assert (Hf : PrimFloat.is_nan x = false)
       by (apply FltFacts.is_nan_false; rewrite Hp; discriminate);
     congruence).
Qed.

Lemma cellwise_Forall R (P : pyval -> Prop) (r r' : series) :
  cellwise R r r' -> (forall k v v', P v -> R k v v' -> P v') ->
  Forall (fun kv : string * pyval => P (snd kv)) r ->
  Forall (fun kv : string * pyval => P (snd kv)) r'.
Proof.
  unfold cellwise. intros Hc HP.
  induction Hc as [|kv kv' r r' [_ HR] _ IH]; intros Hr; constructor;
    inversion Hr; subst; eauto.
Qed.

Lemma series_set_Forall (P : string * pyval -> Prop) (c : string) (v : pyval)
    (r : series) :
  P (c, v) -> Forall P r -> Forall P (series_set c v r).
Proof.
  intros Hv Hr. unfold series_set. destruct (in_index c r).
  - induction Hr as [|[k w] r Hk Hr IH]; simpl; constructor; [|exact IH].
    destruct (String.eqb_spec k c) as [->|Hne]; [exact Hv|exact Hk].
  - apply Forall_app. split; [exact Hr|]. constructor; [exact Hv|constructor].
Qed.

Lemma Forall_list_filter {A} (P : A -> Prop) (p : A -> bool) (l : list A) :
  Forall P l -> Forall P (List.filter p l).
Proof.
  intros Hl. induction Hl as [|a l Ha Hl IH]; simpl; [constructor|].
  destruct (p a); [constructor; assumption|exact IH].
Qed.

Lemma combine_relabelled (labels : list string) (r : series) :
  length r = length labels ->
  Forall (fun kv : string * pyval => int_in_range (snd kv) = true) r ->
  Forall (fun kv : string * pyval => int_in_range (snd kv) = true) (relabel labels r).
Proof.
  unfold relabel. revert labels.
  induction r as [|[k v] r IH]; intros [|c labels] Hlen Hr; simpl in *;
    try constructor; try discriminate.
  - inversion Hr; assumption.
  - apply IH; [lia|inversion Hr; assumption].
Qed.

Lemma expected_not_engine (c : string) :
  str_in c EXPECTED_COLUMNS = true -> str_in c ENGINE_COLS = false.
Proof.
  intros Hc. apply str_in_In in Hc. simpl in Hc.
  repeat (destruct Hc as [<-|Hc]; [reflexivity|]). destruct Hc.
Qed.

Lemma expected_strip (c : string) :
  str_in c EXPECTED_COLUMNS = true -> Str.strip c = c.
Proof.
  intros Hc. apply str_in_In in Hc. simpl in Hc.
  repeat (destruct Hc as [<-|Hc]; [reflexivity|]). destruct Hc.
Qed.

Lemma filter_stripped (p : string -> bool) (l : list string) :
  (forall c, p c = true -> Str.strip c = c) ->
  map Str.strip (List.filter p l) = List.filter p l.
Proof.
  intros Hp. induction l as [|c l IH]; cbn [List.filter map]; [reflexivity|].
  destruct (p c) eqn:Hc; [|exact IH].
  cbn [map]. rewrite IH, (Hp c Hc). reflexivity.
Qed.

(** What [lex_before] reads of two rows. *)
Lemma lex_before_ext (by_ : list string) (a b a' b' : series) :
  (forall c, In c by_ -> series_get c a' = series_get c a) ->
  (forall c, In c by_ -> series_get c b' = series_get c b) ->
  lex_before by_ a' b' = lex_before by_ a b.
Proof.
  induction by_ as [|c by_ IH]; intros Ha Hb; simpl; [reflexivity|].
  unfold _safe_get. rewrite (Ha c), (Hb c) by (left; reflexivity).
  rewrite IH; [reflexivity| |]; intros k Hk; [apply Ha|apply Hb]; right; exact Hk.
Qed.

Lemma Sorted_Forall2 {A} (R R' : A -> A -> Prop) (S : A -> A -> Prop)
    (l l' : list A) :
  (forall a b a' b', S a a' -> S b b' -> R a b -> R' a' b') ->
  Forall2 S l l' -> Sorted R l -> Sorted R' l'.
Proof.
  intros HR Hf. induction Hf as [|a a' l l' Ha Hf IH]; intros Hs; [constructor|].
  inversion Hs as [|? ? Hs' Hhd]; subst. constructor; [apply IH; exact Hs'|].
  destruct Hf as [|b b' l l' Hb Hf]; constructor.
  inversion Hhd; subst. eapply HR; eassumption.
Qed.

Lemma rmapM_related {A B} (S : A -> B -> Prop) (f : A -> result B) (l : list A) :
  (forall a, In a l -> exists b, f a = Ok b /\ S a b) ->
  exists l', rmapM f l = Ok l' /\ Forall2 S l l'.
Proof.
  induction l as [|a l IH]; intros Hf; simpl.
  - exists []. split; [reflexivity|constructor].
  - destruct (Hf a (or_introl eq_refl)) as (b & Hb & Sab).
    destruct IH as (l' & Hl' & HS); [intros x Hx; apply Hf; right; exact Hx|].
    rewrite Hb, Hl'. cbn [rbind]. exists (b :: l'). split; [reflexivity|].
    constructor; assumption.
Qed.

Lemma Forall2_column {A} (g g' : A -> pyval) (S : A -> A -> Prop) (l l' : list A) :
  (forall a a', S a a' -> g' a' = g a) -> Forall2 S l l' -> map g' l' = map g l.
Proof.
  intros Hg Hf. induction Hf as [|a a' l l' Ha Hf IH]; simpl; [reflexivity|].
  rewrite IH, (Hg a a' Ha). reflexivity.
Qed.

Section SecondRun.

Context `{PyBuiltins}.

(** A converted cell is left as it is by a second conversion. *)
Lemma normal_cell_again (k : string) (v0 v v' : pyval) :
  normal_cell k v0 v -> normal_cell k v v' -> v' = v.
Proof.
  unfold normal_cell. destruct (str_in k TEXT_COLS).
  - intros -> ->. cbn [py_str]. rewrite strip_idem. reflexivity.
  - destruct (str_in k NUM_COLS).
    + intros (x & _ & ->) (x' & Hx' & ->). unfold _to_num in Hx'.
      cbn [pd_isna py_float] in Hx'.
      destruct (PrimFloat.is_nan x) eqn:Hn; inversion Hx'; subst.
      * rewrite (is_nan_eq x Hn). reflexivity.
      * reflexivity.
    + destruct (str_in k BOOL_COLS).
      * intros -> ->. reflexivity.
      * intros -> ->. reflexivity.
Qed.

Lemma normal_cell_in_range (k : string) (v v' : pyval) :
  int_in_range v = true -> normal_cell k v v' -> int_in_range v' = true.
Proof.
  unfold normal_cell. intros Hv.
  destruct (str_in k TEXT_COLS); [intros ->; reflexivity|].
  destruct (str_in k NUM_COLS); [intros (x & _ & ->); reflexivity|].
  destruct (str_in k BOOL_COLS); [intros ->; reflexivity|].
  intros ->. exact Hv.
Qed.

End SecondRun.

Section SecondRunRows.

Context `{PyBuiltins}.

(** A classified row, cut down to the recognised columns, is normalised
    and classified again into a row with the same known cells. *)
Lemma second_pass (df : frame) (cfg : gmap string pyval) (th : thresholds)
    (r n q : series) :
  wf_input df = true -> In r (rows df) ->
  normalize_row (map Str.strip (columns df)) r = Ok n ->
  annotate_row th cfg n = Ok q ->
  let labels2 := List.filter (fun c => str_in c EXPECTED_COLUMNS)
                   (out_columns (map Str.strip (columns df))) in
  let q2 := List.filter (fun kv : string * pyval => str_in (fst kv) EXPECTED_COLUMNS) q in
  map fst q2 = labels2
  /\ exists n2 q', normalize_row labels2 q2 = Ok n2
                   /\ annotate_row th cfg n2 = Ok q'
                   /\ same_known_cells q q'.
Proof.
  intros Hwf Hr Hn Hq labels2 q2.
  set (labels := map Str.strip (columns df)) in *.
  destruct (wf_input_inv df Hwf) as (_ & _ & Hclash & Hrows).
  destruct (Hrows r Hr) as [Hlen Hrange]. fold labels in Hlen, Hclash.
  pose proof (normalize_row_labels _ _ _ Hlen Hn) as Hnlab.
  assert (Habs : forall k, In k DECIDED_COLUMNS -> in_index k n = false).
  { intros k Hk. destruct (in_index k n) eqn:Hi; [|reflexivity].
    apply in_index_In in Hi. rewrite Hnlab in Hi. apply str_in_In in Hi.
    rewrite str_in_add_label in Hi. rewrite (Hclash k Hk), orb_false_r in Hi.
    simpl in Hk. destruct Hk as [<-|[<-|[<-|[<-|[]]]]]; discriminate. }
  apply annotate_row_inv in Hq. destruct Hq as (a & rb & rs & fc & Hd & Hq).
  pose proof Hn as Hinv. apply normalize_row_inv in Hinv.
  destruct Hinv as (r3 & y & Hc & Hn3 & Hy).
  assert (Hlab3 : map fst r3 = labels).
  { rewrite (cellwise_labels _ _ _ Hc). apply relabel_labels. exact Hlen. }
  assert (Hcells : forall c, series_get c q = output_cell r3 y a rb rs fc c).
  { intros c. rewrite Hq, annotated_cells by exact Habs. unfold output_cell.
    rewrite Hn3, series_get_set. reflexivity. }
  assert (Hqlab : map fst q = out_columns labels).
  { rewrite Hq. unfold with_sell_signal, with_buy_signal.
    rewrite !series_set_labels, map_app, Hnlab. reflexivity. }
  assert (Hrange3 : Forall (fun kv : string * pyval => int_in_range (snd kv) = true) r3).
  { eapply (cellwise_Forall _ (fun v => int_in_range v = true)); [exact Hc| |].
    - intros k v v'. apply normal_cell_in_range.
    - apply combine_relabelled; assumption. }
  assert (Hrangeq : Forall (fun kv : string * pyval => int_in_range (snd kv) = true) q).
  { rewrite Hq. unfold with_sell_signal, with_buy_signal.
    apply series_set_Forall; [reflexivity|].
    apply series_set_Forall; [reflexivity|].
    apply Forall_app. split.
    - rewrite Hn3. apply series_set_Forall; [reflexivity|exact Hrange3].
    - repeat constructor. }
  assert (Hq2lab : map fst q2 = labels2).
  { unfold q2, labels2. rewrite (map_fst_filter (fun c => str_in c EXPECTED_COLUMNS)).
    rewrite Hqlab. reflexivity. }
  split; [exact Hq2lab|].
  assert (Hlen2 : length q2 = length labels2).
  { rewrite <- Hq2lab. symmetry. apply length_map. }
  destruct (normalize_row_total labels2 q2 Hlen2) as [n2 Hn2].
  { unfold q2. apply Forall_list_filter. exact Hrangeq. }
  pose proof (normalize_row_labels _ _ _ Hlen2 Hn2) as Hn2lab.
  pose proof Hn2 as Hinv2. apply normalize_row_inv in Hinv2.
  destruct Hinv2 as (r3' & y' & Hc' & Hn3' & Hy').
  assert (Hrel : relabel labels2 q2 = q2).
  { rewrite <- Hq2lab. apply relabel_self. }
  rewrite Hrel in Hc'.
  assert (Hin2 : forall c, str_in c EXPECTED_COLUMNS = true ->
                           str_in c labels2 = str_in c labels).
  { intros c Hc2. unfold labels2.
    rewrite (str_in_filter (fun c => str_in c EXPECTED_COLUMNS)). cbv beta.
    rewrite Hc2. cbn [andb]. unfold out_columns.
    rewrite !str_in_add_label, str_in_app, str_in_add_label.
    pose proof (expected_not_engine c Hc2) as Hne.
    unfold ENGINE_COLS, str_in in Hne. simpl in Hne. rewrite !orb_false_iff in Hne.
    destruct Hne as (H1 & H2 & H3 & H4 & H5 & H6 & H7 & _).
    unfold str_in at 2. simpl. rewrite H1, H2, H3, H4, H5, H6, H7.
    rewrite !orb_false_r. reflexivity. }
  assert (Hout2 : forall c, str_in c EXPECTED_COLUMNS = false ->
                            str_in c labels2 = false).
  { intros c Hc2. unfold labels2.
    rewrite (str_in_filter (fun c => str_in c EXPECTED_COLUMNS)). cbv beta.
    rewrite Hc2. reflexivity. }
  assert (Hsame3 : forall c, str_in c EXPECTED_COLUMNS = true ->
                             series_get c r3' = series_get c r3).
  { intros c Hc2.
    assert (Hq2c : series_get c q2 = series_get c r3).
    { unfold q2. rewrite (series_get_filter (fun c => str_in c EXPECTED_COLUMNS)).
      rewrite Hc2, Hcells. unfold output_cell.
      pose proof (expected_not_engine c Hc2) as Hne.
      unfold ENGINE_COLS, str_in in Hne. simpl in Hne. rewrite !orb_false_iff in Hne.
      destruct Hne as (H1 & H2 & H3 & H4 & H5 & H6 & H7 & _).
      rewrite H7, H6, H2, H3, H4, H5, H1. reflexivity. }
    pose proof (cellwise_get _ _ _ c Hc') as Hg. rewrite Hq2c in Hg.
    pose proof (cellwise_get _ _ _ c Hc) as Hg0.
    destruct (series_get c (relabel labels r)) as [v0|].
    - destruct Hg0 as (v & Hv & Hv0). rewrite Hv in Hg.
      destruct Hg as (v' & Hv' & Hvv). rewrite Hv', Hv. f_equal.
      exact (normal_cell_again c v0 v v' Hv0 Hvv).
    - rewrite Hg0 in Hg. rewrite Hg, Hg0. reflexivity. }
  assert (Hyy : y' = y).
  { rewrite (Hin2 "drawdown_from_52w_high" eq_refl) in Hy'.
    destruct (str_in "drawdown_from_52w_high" labels).
    - destruct Hy as (x & Hx & ->). destruct Hy' as (x' & Hx' & ->).
      unfold _safe_get in Hx, Hx'.
      rewrite (Hsame3 "drawdown_from_52w_high" eq_refl) in Hx'.
      rewrite Hx in Hx'. inversion Hx'. reflexivity.
    - congruence. }
  subst y'.
  assert (Hrule : forall k, In k RULE_COLS -> series_get k n2 = series_get k n).
  { intros k Hk. rewrite Hn3', Hn3, !series_get_set.
    simpl in Hk.
    repeat (destruct Hk as [<-|Hk]; [try reflexivity; apply Hsame3; reflexivity|]).
    destruct Hk. }
  assert (Hd2 : decide th cfg n2 = Ok (a, rb, rs, fc)).
  { rewrite (decide_ext th cfg n2 n Hrule). exact Hd. }
  assert (Habs2 : forall k, In k DECIDED_COLUMNS -> in_index k n2 = false).
  { intros k Hk. destruct (in_index k n2) eqn:Hi; [|reflexivity].
    apply in_index_In in Hi. rewrite Hn2lab in Hi. apply str_in_In in Hi.
    rewrite str_in_add_label in Hi.
    simpl in Hk. destruct Hk as [<-|[<-|[<-|[<-|[]]]]];
      rewrite Hout2 in Hi by reflexivity; discriminate. }
  exists n2. eexists. split; [exact Hn2|]. split.
  - unfold annotate_row, decided_cells. rewrite Hd2. cbn [rbind decision_cells].
    reflexivity.
  - intros c Hc2. rewrite annotated_cells by exact Habs2.
    rewrite Hcells. unfold output_cell.
    destruct (String.eqb c "SELL_SIGNAL") eqn:E1; [reflexivity|].
    destruct (String.eqb c "BUY_SIGNAL") eqn:E2; [reflexivity|].
    destruct (String.eqb c "ACTION") eqn:E3; [reflexivity|].
    destruct (String.eqb c "REASON_BUY") eqn:E4; [reflexivity|].
    destruct (String.eqb c "REASON_SELL") eqn:E5; [reflexivity|].
    destruct (String.eqb c "FAILED_CHECKS") eqn:E6; [reflexivity|].
    rewrite Hn3', series_get_set.
    destruct (String.eqb c "dd_norm") eqn:E7; [reflexivity|].
    apply Hsame3. rewrite str_in_app in Hc2.
    unfold ENGINE_COLS in Hc2. unfold str_in at 2 in Hc2. simpl in Hc2.
    rewrite E1, E2, E3, E4, E5, E6, E7 in Hc2. rewrite orb_false_r in Hc2.
    exact Hc2.
Qed.

(** A second run on the output of a first one, cut down to the
    recognised columns, returns, row by row, the known cells of the
    first. *)
Lemma second_run_rows (df : frame) (cfg : gmap string pyval) (out1 : frame) :
  wf_input df = true -> rows df <> [] ->
  call_compute_actions df cfg = Ok out1 ->
  exists out2,
    call_compute_actions (restrict EXPECTED_COLUMNS out1) cfg = Ok out2
    /\ Forall2 same_known_cells (rows out1) (rows out2).
Proof.
  intros Hwf Hne Hcall. rewrite call_compute_actions_engine in Hcall.
  destruct (wf_input_inv df Hwf) as (Hrect & _ & _ & _).
  apply engine_by_rows in Hcall; [|exact Hrect|exact Hne].
  destruct Hcall as (th & ns & pre & Hth & Hns & Hpre & ->).
  set (labels := map Str.strip (columns df)) in *.
  set (rows1 := sort_rows (sort_keys labels) pre).
  set (keep := fun c : string => str_in c EXPECTED_COLUMNS).
  set (labels2 := List.filter keep (out_columns labels)).
  set (cut := List.filter (fun kv : string * pyval => str_in (fst kv) EXPECTED_COLUMNS)).
  assert (Hrow : forall q, In q rows1 ->
            map fst (cut q) = labels2
            /\ exists q', (let? n2 := normalize_row labels2 (cut q) in
                           annotate_row th cfg n2) = Ok q'
                          /\ same_known_cells q q').
  { intros q Hq. unfold rows1 in Hq. apply sort_rows_In in Hq.
    destruct (rmapM_In _ _ _ _ Hpre Hq) as (n & Hn & Hqn).
    destruct (rmapM_In _ _ _ _ Hns Hn) as (r & Hrin & Hnr).
    destruct (second_pass df cfg th r n q Hwf Hrin Hnr Hqn)
      as (Hlab & n2 & q' & Hn2 & Hq' & Hsame).
    cbv zeta in Hlab, Hn2. split; [exact Hlab|]. exists q'.
    split; [|exact Hsame]. unfold labels2, keep, cut, labels.
    rewrite Hn2. cbn [rbind]. exact Hq'. }
  destruct (rmapM_related same_known_cells
              (fun q => let? n2 := normalize_row labels2 (cut q) in
                        annotate_row th cfg n2) rows1)
    as (pre2 & Hpre2 & Hrel).
  { intros q Hq. exact (proj2 (Hrow q Hq)). }
  apply rmapM_bind in Hpre2. destruct Hpre2 as (ns2 & Hns2 & Hann2).
  set (df2 := restrict EXPECTED_COLUMNS (Frame (out_columns labels) rows1)).
  assert (Hcols2 : map Str.strip (columns df2) = labels2).
  { unfold df2, restrict. cbn [columns]. fold keep labels2.
    apply filter_stripped. intros c Hc. apply expected_strip. exact Hc. }
  assert (Hlen1 : length rows1 = length (rows df)).
  { unfold rows1. rewrite sort_rows_length, (rmapM_length _ _ _ Hpre).
    eapply rmapM_length; eauto. }
  assert (Hkeys : sort_keys labels2 = sort_keys labels).
  { unfold sort_keys, labels2. rewrite (str_in_filter keep). unfold keep at 1.
    cbn [andb]. change (str_in "score" EXPECTED_COLUMNS) with true. cbn [andb].
    unfold out_columns. rewrite !str_in_add_label, str_in_app, str_in_add_label.
    cbn. rewrite !orb_false_r. reflexivity. }
  assert (Hengine : engine df2 cfg
                    = Ok (Frame (out_columns labels2)
                            (sort_rows (sort_keys labels2) pre2))).
  { apply engine_by_rows.
    - unfold rectangular, df2, restrict. cbn [rows columns]. fold keep labels2 cut.
      apply forallb_forall. intros q2 Hq2. apply in_map_iff in Hq2.
      destruct Hq2 as (q & <- & Hq). apply Nat.eqb_eq.
      destruct (Hrow q Hq) as [Hlab _]. rewrite <- Hlab. symmetry. apply length_map.
    - unfold df2, restrict. cbn [rows]. intros Hnil.
      apply (f_equal (@length _)) in Hnil. rewrite length_map, Hlen1 in Hnil.
      destruct (rows df); [congruence|discriminate].
    - exists th, ns2, pre2. split; [exact Hth|]. split; [|split].
      + rewrite Hcols2. unfold df2, restrict. cbn [rows]. fold cut.
        rewrite rmapM_map. exact Hns2.
      + exact Hann2.
      + rewrite Hcols2. reflexivity. }
  assert (Hord : in_order (sort_keys labels) pre2).
  { unfold in_order.
    eapply (Sorted_Forall2 _ _ same_known_cells rows1 pre2);
      [|exact Hrel|apply sort_rows_in_order].
    intros a b a' b' Ha Hb Hab. cbv beta in *.
    rewrite (lex_before_ext (sort_keys labels) b a b' a'); [exact Hab| |];
      intros c Hc; [apply Hb|apply Ha]; unfold sort_keys in Hc;
      destruct (str_in "score" labels); simpl in Hc;
      repeat (destruct Hc as [<-|Hc]; [reflexivity|]); destruct Hc. }
  exists (Frame (out_columns labels2) (sort_rows (sort_keys labels2) pre2)).
  rewrite call_compute_actions_engine. split; [exact Hengine|].
  rewrite Hkeys, (sort_rows_fixed _ _ Hord). cbn [rows]. exact Hrel.
Qed.

(** X13: a second run on the output of a first one, cut down to the
    recognised columns, does not raise and gives the rows of the first
    run back in the same order: each recognised column and each column
    that the engine writes, the action among them, holds the same cells
    as in the first output.  On a table without rows the second run can
    raise, hence the hypothesis. *)
Theorem second_run_same (df : frame) (cfg : gmap string pyval) (out1 : frame) :
  wf_input df = true -> rows df <> [] ->
  call_compute_actions df cfg = Ok out1 ->
  exists out2,
    call_compute_actions (restrict EXPECTED_COLUMNS out1) cfg = Ok out2
    /\ length (rows out2) = length (rows out1)
    /\ forall c, str_in c (EXPECTED_COLUMNS ++ ENGINE_COLS) = true ->
                 column_of c out2 = column_of c out1.
Proof.
  intros Hwf Hne Hcall.
  destruct (second_run_rows df cfg out1 Hwf Hne Hcall) as (out2 & Hcall2 & Hrel).
  exists out2. split; [exact Hcall2|]. split.
  - symmetry. eapply Forall2_length. exact Hrel.
  - intros c Hc. unfold column_of.
    apply (Forall2_column _ _ same_known_cells); [|exact Hrel].
    intros q q' Hs. unfold _safe_get. rewrite (Hs c Hc). reflexivity.
Qed.

(** C8, as the code has it: on a table with a record, a second run on
    the output of the first, cut down to the recognised columns, returns
    the records in the order of the first output, each with the
    recognised cells and the action it has there. *)
Theorem second_run_same_actions (df : frame) (cfg : gmap string pyval)
    (out1 : frame) :
  wf_input df = true -> rows df <> [] ->
  call_compute_actions df cfg = Ok out1 ->
  exists out2,
    call_compute_actions (restrict EXPECTED_COLUMNS out1) cfg = Ok out2
    /\ column_of "ACTION" out2 = column_of "ACTION" out1
    /\ Forall2
         (fun q q' : series =>
            (forall c, str_in c EXPECTED_COLUMNS = true ->
                       series_get c q' = series_get c q)
            /\ exists a, In a ACTIONS
                         /\ series_get "ACTION" q = Some (VStr a)
                         /\ series_get "ACTION" q' = Some (VStr a))
         (rows out1) (rows out2).
Proof.
  intros Hwf Hne Hcall.
  destruct (second_run_rows df cfg out1 Hwf Hne Hcall) as (out2 & Hcall2 & Hrel).
  exists out2. split; [exact Hcall2|]. split.
  - unfold column_of. apply (Forall2_column _ _ same_known_cells); [|exact Hrel].
    intros q q' Hs. unfold _safe_get. rewrite (Hs "ACTION" eq_refl). reflexivity.
  - eapply Forall2_In_impl; [|exact Hrel].
    intros q q' Hq Hs. split.
    + intros c Hc. apply Hs. rewrite str_in_app, Hc. reflexivity.
    + destruct (output_rows df cfg out1 Hwf Hcall q Hq)
        as (th & r & n & a & rb & rs & fc & _ & _ & _ & Hd & Hqn & Habs & _).
      destruct (annotated_get n a rb rs fc (Habs "ACTION" ltac:(in_list)))
        as (Ha & _).
      cbv zeta in Ha. rewrite <- Hqn in Ha.
      exists a. split; [eapply decide_actions; exact Hd|]. split; [exact Ha|].
      rewrite (Hs "ACTION" eq_refl). exact Ha.
Qed.

End SecondRunRows.

Lemma second_run_same_actions_sample :
  exists out2,
    call_compute_actions (H := Plain.builtins)
      (restrict EXPECTED_COLUMNS sample_result) ∅ = Ok out2
    /\ column_of "ACTION" out2 = column_of "ACTION" sample_result.
Proof.
  destruct (second_run_same_actions (H := Plain.builtins) Sample.table ∅
              sample_result eq_refl) as (out2 & Hcall & Hact & _).
  - discriminate.
  - exact sample_run.
  - exists out2. split; assumption.
Defined.

(** C8, as stated, fails on a table without records: with three
    columns, one of them not recognised, the first run returns a table
    without rows, and the second run, on the two recognised columns,
    raises, the frame that [apply] answers having three columns where
    four labels are assigned. *)
Lemma second_run_raises :
  wf_input no_records = true
  /\ call_compute_actions (H := Plain.builtins) no_records ∅ = Ok no_records_result
  /\ columns (restrict EXPECTED_COLUMNS no_records_result) = ["ticker"; "name"]
  /\ call_compute_actions (H := Plain.builtins)
       (restrict EXPECTED_COLUMNS no_records_result) ∅ = Err ValueError.
Proof. repeat split; vm_compute; reflexivity. Qed.

Lemma second_run_same_sample :
  exists out2,
    call_compute_actions (H := Plain.builtins)
      (restrict EXPECTED_COLUMNS sample_result) ∅ = Ok out2
    /\ length (rows out2) = length (rows sample_result)
    /\ forall c, str_in c (EXPECTED_COLUMNS ++ ENGINE_COLS) = true ->
                 column_of c out2 = column_of c sample_result.
Proof.
  apply (second_run_same (H := Plain.builtins) Sample.table ∅ sample_result eq_refl).
  - discriminate.
  - exact sample_run.
Defined.

(** ** When the call raises *)

Section Raises.

Context `{PyBuiltins}.



End Raises.


(** ** The speculative switch *)

Section Speculative.

Context `{PyBuiltins}.

Lemma decide_allow_spec (s b g : float) (a a' : bool) (cfg : gmap string pyval)
    (r : series) :
  decide (Thresholds s b g a) cfg r = decide (Thresholds s b g a') cfg r.
Proof.
  unfold decide. rewrite sell_signal_rule.
  destruct (sell_rule cfg r) eqn:Hsell; [reflexivity|].
  assert (Hreq : _passes_required r cfg = []).
  { rewrite passes_required_failed_checks. unfold sell_rule in Hsell.
    apply orb_false_iff in Hsell. destruct Hsell as [_ Hf].
    destruct (failed_checks cfg r); [reflexivity|discriminate]. }
  assert (Hg : buy_gate (Thresholds s b g a) cfg r
               = buy_gate (Thresholds s b g a') cfg r).
  { unfold buy_gate. rewrite Hreq. reflexivity. }
  rewrite Hg.
  destruct (buy_gate (Thresholds s b g a') cfg r) as [[[|] why]|e] eqn:Hb;
    cbn [rbind]; [|reflexivity|reflexivity].
  rewrite (buy_gate_entry_ok _ cfg r why Hreq Hb).
  change (Str.startswith "ENTRY_OK_WITH_FLAGS:" "ENTRY_OK") with false.
  cbn [Str.nonempty andb negb DD_STRONG]. reflexivity.
Qed.

(** X15: the [ALLOW_SPECULATIVE] switch has no effect on what
    [compute_actions] answers: two configurations that agree on every
    other key give the same table or raise the same exception, whatever
    the input.  A record with a failed required check is a [REVIEW SELL]
    before the switch is read. *)
Theorem allow_speculative_ignored (df : frame) (cfg cfg' : gmap string pyval) :
  (forall k, k <> "ALLOW_SPECULATIVE" -> cfg !! k = cfg' !! k) ->
  call_compute_actions df cfg = call_compute_actions df cfg'.
Proof.
  intros Hk. rewrite !call_compute_actions_engine.
  assert (Hget : forall k d, k <> "ALLOW_SPECULATIVE" -> cfg_get cfg k d = cfg_get cfg' k d).
  { intros k d Hne. unfold cfg_get. rewrite (Hk k Hne). reflexivity. }
  assert (Hreq : forall r, _passes_required r cfg = _passes_required r cfg').
  { intros r. apply passes_required_agree. intros toggle dflt flag Hin.
    apply Hget. simpl in Hin.
    repeat (destruct Hin as [Heq|Hin]; [inversion Heq; subst; discriminate|]).
    destruct Hin. }
  unfold engine.
  destruct (normalized df) as [fr|e]; cbn [rbind]; [|reflexivity].
  unfold resolve_thresholds.
  rewrite (Hget "SCORE_BUY_MIN"), (Hget "DD_BUY"), (Hget "DD_STRONG") by discriminate.
  destruct (py_float (cfg_get cfg' "SCORE_BUY_MIN" (VInt 70))) as [s|e];
    cbn [rbind]; [|reflexivity].
  destruct (py_float (cfg_get cfg' "DD_BUY" (VFloat (-0.20)%float))) as [b|e];
    cbn [rbind]; [|reflexivity].
  destruct (py_float (cfg_get cfg' "DD_STRONG" (VFloat (-0.30)%float))) as [g|e];
    cbn [rbind]; [|reflexivity].
  set (a := py_bool (cfg_get cfg "ALLOW_SPECULATIVE" (VBool true))).
  set (a' := py_bool (cfg_get cfg' "ALLOW_SPECULATIVE" (VBool true))).
  assert (Hd : decided (Thresholds s b g a) cfg fr
               = decided (Thresholds s b g a') cfg' fr).
  { unfold decided, df_apply_expand. destruct (rows fr) as [|r0 rest]; [reflexivity|].
    rewrite (rmapM_ext _ (fun r => let? x := decide (Thresholds s b g a') cfg' r in
                                   Ok (decision_cells x)));
      [reflexivity|].
    intros r _. rewrite (decide_allow_spec s b g a a').
    unfold decide, sell_signal, buy_gate. rewrite !Hreq. reflexivity. }
  rewrite Hd. reflexivity.
Qed.

End Speculative.

Lemma allow_speculative_ignored_sample :
  call_compute_actions (H := Plain.builtins) Sample.table ∅
  = call_compute_actions (H := Plain.builtins) Sample.table
      {[ "ALLOW_SPECULATIVE" := VBool false ]}.
Proof.
  apply (allow_speculative_ignored (H := Plain.builtins) Sample.table ∅
           {[ "ALLOW_SPECULATIVE" := VBool false ]}).
  intros k Hne. rewrite lookup_empty, lookup_singleton_ne; [reflexivity|].
  intros Heq. apply Hne. symmetry. exact Heq.
Defined.

(** ** Absent columns and the classifier *)

Section AbsentCells.

Context `{PyBuiltins}.

Lemma watch_list_absent (r : series) (c : string) :
  in_index c r = false -> In c WATCH_COLS ->
  ~ In c (watch_list r) /\ In c (watch_list (r ++ [(c, VBool false)])).
Proof.
  intros Habs Hc. unfold in_index in Habs.
  destruct (series_get c r) eqn:Hg; [discriminate|]. split.
  - unfold watch_list. intros Hin. apply filter_In in Hin.
    destruct Hin as [_ Hin]. rewrite Hg in Hin. discriminate.
  - unfold watch_list. apply filter_In. split; [exact Hc|].
    rewrite series_get_app, Hg. simpl. rewrite String.eqb_refl. reflexivity.
Qed.

(** What the classifier puts on its watch list. *)
Lemma decide_watch_list (th : thresholds) (cfg : gmap string pyval) (r : series)
    (a rb rs fc : string) :
  decide th cfg r = Ok (a, rb, rs, fc) ->
  (a = "WATCH" -> rs = Str.join " / " (watch_list r) /\ watch_list r <> [])
  /\ (a = "HOLD" -> flag_of "ENTRY_PERMITTED" r = false \/ watch_list r = []).
Proof.
  unfold decide.
  destruct (sell_signal cfg r) as [[|] rs0].
  { intros [= <- <- <- <-]. split; discriminate. }
  destruct (buy_gate th cfg r) as [[[|] why]|e]; cbn [rbind]; [| |discriminate].
  - destruct (if pd_notna _ then _ else _) as [[|]|e]; cbn [rbind];
      [| |discriminate].
    + intros [= <- <- <- <-]. split; discriminate.
    + destruct (Str.nonempty _ && ALLOW_SPEC th);
        intros [= <- <- <- <-]; split; discriminate.
  - unfold watch_list, flag_of.
    destruct (py_bool (_safe_get r "ENTRY_PERMITTED" (VBool false))).
    + destruct (List.filter _ WATCH_COLS) as [|x l]; intros [= <- <- <- <-].
      * split; [discriminate|]. intros _. right. reflexivity.
      * split; [|discriminate]. intros _. split; [reflexivity|discriminate].
    + intros [= <- <- <- <-]. split; [discriminate|]. intros _. left. reflexivity.
Qed.

(** C4, as the code has it: where the required-checks gate, the sell
    rule and the buy gate read a boolean column that the record lacks,
    the outcome is that of a [False] cell, except that the sell rule
    reads an absent [QUALITY_PASS] as [True]; an absent [score] or
    [dd_norm] is read as not-a-number by the buy gate and by the
    classifier; an absent [ENTRY_PERMITTED] or [BUY_CANDIDATE] is read as
    [False] by the classifier; a record whose [score] and [dd_norm] are
    floats or are not there is classified without an exception; and an
    absent pass flag is not read as [False] by the classifier: it is not
    on the watch list, where a [False] cell would be, and the watch list
    that the classifier reports, or finds empty, holds the pass flags
    that are there and false. *)
Theorem absent_column_defaults (th : thresholds) (cfg : gmap string pyval)
    (r : series) (c : string) :
  in_index c r = false ->
  (In c BOOL_COLS ->
   _passes_required (r ++ [(c, VBool false)]) cfg = _passes_required r cfg
   /\ buy_gate th cfg (r ++ [(c, VBool false)]) = buy_gate th cfg r
   /\ (c <> "QUALITY_PASS" ->
       sell_signal cfg (r ++ [(c, VBool false)]) = sell_signal cfg r))
  /\ (c = "QUALITY_PASS" ->
      sell_signal cfg (r ++ [(c, VBool true)]) = sell_signal cfg r)
  /\ (In c ["score"; "dd_norm"] ->
      buy_gate th cfg (r ++ [(c, VFloat np_nan)]) = buy_gate th cfg r
      /\ decide th cfg (r ++ [(c, VFloat np_nan)]) = decide th cfg r)
  /\ (In c ["ENTRY_PERMITTED"; "BUY_CANDIDATE"] ->
      decide th cfg (r ++ [(c, VBool false)]) = decide th cfg r)
  /\ (forall s d, _safe_get r "score" (VFloat np_nan) = VFloat s ->
                  _safe_get r "dd_norm" (VFloat np_nan) = VFloat d ->
                  exists x, decide th cfg r = Ok x)
  /\ (In c WATCH_COLS ->
      ~ In c (watch_list r) /\ In c (watch_list (r ++ [(c, VBool false)])))
  /\ (forall a rb rs fc, decide th cfg r = Ok (a, rb, rs, fc) ->
        (a = "WATCH" -> rs = Str.join " / " (watch_list r) /\ watch_list r <> [])
        /\ (a = "HOLD" ->
            flag_of "ENTRY_PERMITTED" r = false \/ watch_list r = [])).
Proof.
  intros Habs. split; [|split; [|split; [|split; [|split; [|split]]]]].
  - intros Hc.
    assert (Hp : _passes_required (r ++ [(c, VBool false)]) cfg
                 = _passes_required r cfg).
    { apply passes_required_absent; [exact Habs|].
      simpl in Hc. unfold WATCH_COLS. simpl.
      repeat (destruct Hc as [<-|Hc];
              [first [left; split; [tauto|reflexivity]
                     | right; intros Hx;
                       repeat (destruct Hx as [Hx|Hx]; [discriminate|]);
                       destruct Hx]|]).
      destruct Hc. }
    split; [exact Hp|]. split.
    + unfold buy_gate. rewrite Hp. absent_cell Habs.
      simpl in Hc.
      repeat (destruct Hc as [<-|Hc]; [absent_cell Habs; reflexivity|]).
      destruct Hc.
    + intros Hq. unfold sell_signal. rewrite Hp.
      rewrite (safe_get_absent _ _ _ _ _ Habs) by (left; congruence).
      reflexivity.
  - intros ->. unfold sell_signal.
    rewrite passes_required_absent;
      [|exact Habs
       |right; unfold WATCH_COLS; simpl; intros Hx;
        repeat (destruct Hx as [Hx|Hx]; [discriminate|]); destruct Hx].
    absent_cell Habs. reflexivity.
  - intros Hc.
    assert (Hp : _passes_required (r ++ [(c, VFloat np_nan)]) cfg
                 = _passes_required r cfg).
    { apply passes_required_absent; [exact Habs|]. right.
      unfold WATCH_COLS. simpl in *. intros Hx.
      destruct Hc as [<-|[<-|[]]];
        repeat (destruct Hx as [Hx|Hx]; [discriminate|]); destruct Hx. }
    assert (Hb : buy_gate th cfg (r ++ [(c, VFloat np_nan)]) = buy_gate th cfg r).
    { unfold buy_gate. rewrite Hp. simpl in Hc.
      destruct Hc as [<-|[<-|[]]]; absent_cell Habs; reflexivity. }
    split; [exact Hb|]. unfold decide, sell_signal. rewrite Hb, Hp.
    unfold WATCH_COLS. simpl in Hc. cbn [List.filter].
    destruct Hc as [<-|[<-|[]]]; absent_cell Habs; reflexivity.
  - intros Hc.
    assert (Hp : _passes_required (r ++ [(c, VBool false)]) cfg
                 = _passes_required r cfg).
    { apply passes_required_absent; [exact Habs|]. right.
      unfold WATCH_COLS. simpl in *. intros Hx.
      destruct Hc as [<-|[<-|[]]];
        repeat (destruct Hx as [Hx|Hx]; [discriminate|]); destruct Hx. }
    assert (Hb : buy_gate th cfg (r ++ [(c, VBool false)]) = buy_gate th cfg r).
    { unfold buy_gate. rewrite Hp. simpl in Hc.
      destruct Hc as [<-|[<-|[]]]; absent_cell Habs; reflexivity. }
    unfold decide, sell_signal. rewrite Hb, Hp.
    unfold WATCH_COLS. simpl in Hc. cbn [List.filter].
    destruct Hc as [<-|[<-|[]]]; absent_cell Habs; reflexivity.
  - intros s d Hs Hd. exact (decide_floats th cfg r s d Hs Hd).
  - intros Hc. apply watch_list_absent; assumption.
  - intros a rb rs fc Hd. exact (decide_watch_list th cfg r a rb rs fc Hd).
Qed.

End AbsentCells.

Lemma absent_column_defaults_run :
  in_index "score" Sample.no_quality = false
  /\ buy_gate (H := Plain.builtins) Sample.defaults ∅
       (Sample.no_quality ++ [("score", VFloat np_nan)])
     = buy_gate (H := Plain.builtins) Sample.defaults ∅ Sample.no_quality
  /\ ~ In "pass_payout" (watch_list Sample.no_quality).
Proof.
  split; [reflexivity|].
  destruct (absent_column_defaults (H := Plain.builtins) Sample.defaults ∅
              Sample.no_quality "score" eq_refl)
    as (_ & _ & Hnum & _).
  split; [apply Hnum; simpl; tauto|].
  destruct (absent_column_defaults (H := Plain.builtins) Sample.defaults ∅
              Sample.no_quality "pass_payout" eq_refl)
    as (_ & _ & _ & _ & _ & Hwatch & _).
  apply Hwatch. unfold WATCH_COLS. simpl. tauto.
Defined.
